(** * EdgeCV4Safety controller: distance-to-throttle governor and its plumbing

    A shallow embedding of [SpeedControllerUDP.py], [udp_listener.py] and
    [dummyListener.py].

    - Python floats are IEEE-754 binary64 values; they are represented by
      [spec_float] with the comparison operators of the standard
      specification of floating-point arithmetic ([SFltb], [SFleb], [SFeqb]).
    - [distance_queue] is a FIFO of floats ([queue.Queue()] with no bound).
    - [run_rtde_controller] is a state-and-exception passing program over a
      scripted robot, a logical clock advanced by [time.sleep], and a trace of
      the RTDE calls it makes.
    - the supervisor loop of [main] and the reception loop of
      [udp_listener.main] are folds over what they read;
    - the [finally] block of [main], the set-up of the listener's socket and
      the stand-alone receiver of [dummyListener.py] are functions of what
      their calls answer and of how long they block. *)

From Stdlib Require Import ZArith List Bool Ascii String Lia.
From Stdlib Require Import SpecFloat.
Import ListNotations.

Local Open Scope Z_scope.

(* ================================================================== *)
(** * Python floats *)

Module PyFloat.

Definition prec : Z := 53.
Definition emax : Z := 1024.

Definition float : Type := spec_float.

Definition ltb (a b : float) : bool := SFltb a b.
Definition leb (a b : float) : bool := SFleb a b.
(** Python's [a != b]: true on unordered operands. *)
Definition neqb (a b : float) : bool := negb (SFeqb a b).

Definition is_nan (a : float) : bool :=
  match a with S754_nan => true | _ => false end.

(** An integer literal used as an operand of a float comparison. Python
    compares an int and a float by value; the literals of this program are
    small enough to be floats themselves. *)
Definition of_int (n : Z) : float := binary_normalize prec emax n 0 false.

(** [m * 10 ^ e10] rounded to the nearest binary64, ties to even: the value
    of a decimal literal with digits [m] and decimal exponent [e10]. *)
Definition of_decimal (neg : bool) (m : Z) (e10 : Z) : float :=
  match m with
  | Z0 => S754_zero neg
  | Zneg _ => S754_nan
  | Zpos _ =>
      if 0 <=? e10 then
        binary_normalize prec emax ((if neg then - m else m) * 10 ^ e10) 0 false
      else
        let d := 10 ^ (- e10) in
        let s := Z.max 0 (prec + 2 + Zdigits2 d - Zdigits2 m) in
        let '(q, r) := Z.div_eucl (Z.shiftl m s) d in
        binary_round_aux prec emax neg q (- s) (new_location d r)
  end.

Definition is_digit (c : ascii) : bool :=
  let n := Z.of_nat (nat_of_ascii c) in (48 <=? n) && (n <=? 57).

Definition digit_value (c : ascii) : Z := Z.of_nat (nat_of_ascii c) - 48.

(** Reads a run of decimal digits: the number read so far, how many digits,
    and what follows the run. *)
Fixpoint read_digits (acc : Z) (count : Z) (s : string) : Z * Z * string :=
  match s with
  | String c rest =>
      if is_digit c then read_digits (10 * acc + digit_value c) (count + 1) rest
      else (acc, count, s)
  | EmptyString => (acc, count, s)
  end.

Definition read_sign (s : string) : bool * string :=
  match s with
  | String "-"%char rest => (true, rest)
  | String "+"%char rest => (false, rest)
  | _ => (false, s)
  end.

(** The plain decimal fragment of the syntax of float literals:
    [sign? digits ("." digits?)?] or [sign? "." digits], which is all
    the literals of the source need. Anything else is rejected. What
    [float] accepts of a string at run time is [float_of_str], below. *)
Definition parse_decimal (s : string) : option float :=
  let '(neg, body) := read_sign s in
  let '(ip, ni, after_int) := read_digits 0 0 body in
  match after_int with
  | EmptyString => if 0 <? ni then Some (of_decimal neg ip 0) else None
  | String "."%char frac =>
      let '(m, nf, after_frac) := read_digits ip 0 frac in
      match after_frac with
      | EmptyString =>
          if 0 <? ni + nf then Some (of_decimal neg m (- nf)) else None
      | _ => None
      end
  | _ => None
  end.

(** A float literal of the source text. *)
Definition lit (s : string) : float :=
  match parse_decimal s with Some f => f | None => S754_nan end.

End PyFloat.

Import PyFloat.

Declare Scope pyfloat_scope.
Delimit Scope pyfloat_scope with py.
Infix "<?" := PyFloat.ltb (at level 70, no associativity) : pyfloat_scope.
Infix "<=?" := PyFloat.leb (at level 70, no associativity) : pyfloat_scope.
Infix "!=?" := PyFloat.neqb (at level 70, no associativity) : pyfloat_scope.

(* ================================================================== *)
(** * Speed Governor *)

(** --- Speed thresholds --- *)
Definition VELOCITY_THRESHOLD_0_5M : float := Eval vm_compute in lit "0.0".
Definition VELOCITY_THRESHOLD_1M : float := Eval vm_compute in lit "0.3".
Definition VELOCITY_2M_THRESHOLD : float := Eval vm_compute in lit "0.7".
Definition VELOCITY_3M_THRESHOLD : float := Eval vm_compute in lit "1.0".
Definition VELOCITY_OVER_3M_THRESHOLD : float := Eval vm_compute in lit "1.0".

(** The integer literals [0] .. [4] of the comparisons. *)
Definition int0 : float := Eval vm_compute in of_int 0.
Definition int1 : float := Eval vm_compute in of_int 1.
Definition int2 : float := Eval vm_compute in of_int 2.
Definition int3 : float := Eval vm_compute in of_int 3.
Definition int4 : float := Eval vm_compute in of_int 4.

Definition calculate_speed_fraction (distance : float) : float :=
  if (distance <? int0)%py then VELOCITY_OVER_3M_THRESHOLD
  else if (distance <? int1)%py then VELOCITY_THRESHOLD_0_5M
  else if (int1 <=? distance)%py && (distance <? int2)%py then VELOCITY_THRESHOLD_1M
  else if (int2 <=? distance)%py && (distance <? int3)%py then VELOCITY_2M_THRESHOLD
  else if (int3 <=? distance)%py && (distance <? int4)%py then VELOCITY_3M_THRESHOLD
  else VELOCITY_OVER_3M_THRESHOLD.

(** Which [return] of [calculate_speed_fraction] is reached. *)
Inductive Branch : Type :=
| BranchNegative      (* if distance < 0 *)
| BranchBelow1        (* elif distance < 1 *)
| Branch1To2          (* elif 1 <= distance < 2 *)
| Branch2To3          (* elif 2 <= distance < 3 *)
| Branch3To4          (* elif 3 <= distance < 4 *)
| BranchElse.         (* else *)

Definition speed_branch (distance : float) : Branch :=
  if (distance <? int0)%py then BranchNegative
  else if (distance <? int1)%py then BranchBelow1
  else if (int1 <=? distance)%py && (distance <? int2)%py then Branch1To2
  else if (int2 <=? distance)%py && (distance <? int3)%py then Branch2To3
  else if (int3 <=? distance)%py && (distance <? int4)%py then Branch3To4
  else BranchElse.

Definition branch_value (b : Branch) : float :=
  match b with
  | BranchNegative => VELOCITY_OVER_3M_THRESHOLD
  | BranchBelow1 => VELOCITY_THRESHOLD_0_5M
  | Branch1To2 => VELOCITY_THRESHOLD_1M
  | Branch2To3 => VELOCITY_2M_THRESHOLD
  | Branch3To4 => VELOCITY_3M_THRESHOLD
  | BranchElse => VELOCITY_OVER_3M_THRESHOLD
  end.

Definition in_unit_interval (r : float) : bool :=
  (lit "0.0" <=? r)%py && (r <=? lit "1.0")%py.


(* ================================================================== *)
(** * The distance queue *)

(** [distance_queue = Queue()]: a FIFO with no bound on its size. *)
Module Queue.

Definition t : Type := list float.

Definition new : t := [].

(** [put] appends at the tail; with no [maxsize] it never blocks. *)
Definition put (q : t) (item : float) : t := q ++ [item].

Definition empty (q : t) : bool :=
  match q with [] => true | _ :: _ => false end.

Definition qsize (q : t) : nat := List.length q.

(** [get_nowait] removes the head; [None] stands for raising [Empty]. *)
Definition get_nowait (q : t) : option (float * t) :=
  match q with
  | [] => None
  | item :: rest => Some (item, rest)
  end.

Definition put_all (q : t) (items : list float) : t := fold_left put items q.

End Queue.

(** The drain loop of the RTDE cycle:
    [while not distance_queue.empty():
         current_distance = distance_queue.get_nowait()]
    under [try ... except Empty: pass]. It yields the new value of
    [current_distance] and the queue it leaves. *)
Fixpoint drain (fuel : nat) (q : Queue.t) (current_distance : float)
  : float * Queue.t :=
  match fuel with
  | O => (current_distance, q)
  | S fuel' =>
      if negb (Queue.empty q) then
        match Queue.get_nowait q with
        | Some (item, rest) => drain fuel' rest item
        | None => (current_distance, q)        (* except Empty: pass *)
        end
      else (current_distance, q)
  end.

(** Each turn of the loop removes one item, so [qsize] turns are enough. *)
Definition consume_latest (q : Queue.t) (current_distance : float)
  : float * Queue.t :=
  drain (S (Queue.qsize q)) q current_distance.

(* ================================================================== *)
(** * The RTDE controller thread *)

(** --- Global configuration --- *)
Definition RTDE_FREQUENCY : Z := 100.
Definition MAX_RETRIES : nat := 5.

(** An attribute of the object [send_input_setup] returns: the recipe
    decides whether it exists; a fresh one holds [None]. *)
Inductive attr (T : Type) : Type :=
| Absent
| Present (value : option T).
Arguments Absent {T}.
Arguments Present {T} value.

Definition hasattr {T : Type} (a : attr T) : bool :=
  match a with Absent => false | Present _ => true end.

Record DataObject : Type := mkData {
  speed_slider_mask : attr Z;
  speed_slider_fraction : attr float
}.

Inductive Exn : Type :=
| ConnectionRefusedError
| OtherException.

(** What the controller does to the outside world, in order. Durations
    are in milliseconds. *)
Inductive Event : Type :=
| NewRTDE                          (* con = rtde.RTDE(ROBOT_HOST, ROBOT_PORT) *)
| Connect                          (* con.connect() *)
| LoadRecipe                       (* rtde_config.ConfigFile, get_recipe *)
| SendInputSetup                   (* con.send_input_setup *)
| SendOutputSetup (frequency : Z)  (* con.send_output_setup *)
| SendStart                        (* con.send_start() *)
| Receive                          (* con.receive() *)
| Send (data : DataObject)         (* con.send(input_data) *)
| SendPause                        (* con.send_pause() *)
| Disconnect                       (* con.disconnect() *)
| Sleep (ms : Z).                  (* time.sleep *)

(** ** The scripted robot *)

Inductive ConnectOutcome : Type :=
| ConnectOk          (* returns, [is_connected()] is true *)
| ConnectNoLink      (* returns, [is_connected()] is still false *)
| ConnectRaises.     (* raises *)

Inductive CallOutcome (T : Type) : Type :=
| Returned (value : T)
| Raised (e : Exn).
Arguments Returned {T} value.
Arguments Raised {T} e.

Inductive ReceiveOutcome : Type :=
| StatePacket                 (* a state object *)
| NoPacket                    (* [None] *)
| ReceiveRaises (e : Exn).

(** The library and the robot behind it are outside the repository; the
    controller is run against every script of their answers. The first
    index is the connection attempt, the second the retry or the cycle
    within it. *)
Record Robot : Type := mkRobot {
  connect_outcome : nat -> nat -> ConnectOutcome;
  load_recipe : nat -> CallOutcome unit;
  input_setup : nat -> CallOutcome (option DataObject);
  output_setup : nat -> CallOutcome bool;
  start_outcome : nat -> CallOutcome bool;
  link_up : nat -> nat -> bool;            (* [is_connected()] at a cycle head *)
  receive_outcome : nat -> nat -> ReceiveOutcome;
  send_outcome : nat -> nat -> CallOutcome unit;
  pause_outcome : nat -> CallOutcome unit;
  link_at_finally : nat -> bool;           (* [is_connected()] in [finally] *)
  (** samples the supervisor put on the queue since the previous cycle *)
  arrivals : nat -> nat -> list float
}.

(** ** State of the thread and of what it shares *)

Record State : Type := mkState {
  now : Z;                              (* logical clock, ms *)
  trace : list Event;                   (* oldest first *)
  distance_queue : Queue.t;
  connected : bool;                     (* con.is_connected() *)
  input_data : option DataObject;
  current_distance : float;
  previous_speed_fraction : float
}.

Definition initial_state : State :=
  {| now := 0;
     trace := [];
     distance_queue := Queue.new;
     connected := false;
     input_data := None;
     current_distance := SFopp (lit "1.0");
     previous_speed_fraction := SFopp (lit "1.0") |}.

Definition set_now (v : Z) (s : State) : State :=
  mkState v (trace s) (distance_queue s) (connected s) (input_data s)
    (current_distance s) (previous_speed_fraction s).
Definition set_trace (v : list Event) (s : State) : State :=
  mkState (now s) v (distance_queue s) (connected s) (input_data s)
    (current_distance s) (previous_speed_fraction s).
Definition set_distance_queue (v : Queue.t) (s : State) : State :=
  mkState (now s) (trace s) v (connected s) (input_data s)
    (current_distance s) (previous_speed_fraction s).
Definition set_connected (v : bool) (s : State) : State :=
  mkState (now s) (trace s) (distance_queue s) v (input_data s)
    (current_distance s) (previous_speed_fraction s).
Definition set_input_data (v : option DataObject) (s : State) : State :=
  mkState (now s) (trace s) (distance_queue s) (connected s) v
    (current_distance s) (previous_speed_fraction s).
Definition set_current_distance (v : float) (s : State) : State :=
  mkState (now s) (trace s) (distance_queue s) (connected s) (input_data s)
    v (previous_speed_fraction s).
Definition set_previous_speed_fraction (v : float) (s : State) : State :=
  mkState (now s) (trace s) (distance_queue s) (connected s) (input_data s)
    (current_distance s) v.

(** ** Statements: state passing with exceptions *)

Inductive Outcome (A : Type) : Type :=
| Ret (a : A)
| Raise (e : Exn)
| OutOfFuel.           (* a loop of the model was cut short *)
Arguments Ret {A} a.
Arguments Raise {A} e.
Arguments OutOfFuel {A}.

Definition M (A : Type) : Type := State -> Outcome A * State.

Definition ret {A : Type} (a : A) : M A := fun s => (Ret a, s).

Definition bind {A B : Type} (c : M A) (k : A -> M B) : M B :=
  fun s =>
    match c s with
    | (Ret a, s') => k a s'
    | (Raise e, s') => (Raise e, s')
    | (OutOfFuel, s') => (OutOfFuel, s')
    end.

Definition raise {A : Type} (e : Exn) : M A := fun s => (Raise e, s).

Definition get {A : Type} (f : State -> A) : M A := fun s => (Ret (f s), s).

Definition modify (f : State -> State) : M unit := fun s => (Ret tt, f s).

Declare Scope stmt_scope.
Delimit Scope stmt_scope with stmt.
Notation "x <- c1 ;; c2" := (bind c1 (fun x => c2))
  (at level 61, c1 at next level, right associativity) : stmt_scope.
Notation "c1 ;; c2" := (bind c1 (fun _ => c2))
  (at level 61, right associativity) : stmt_scope.

Local Open Scope stmt_scope.

Definition emit (e : Event) : M unit :=
  modify (fun s => set_trace (trace s ++ [e]) s).

(** [time.sleep]: the thread does nothing else for the whole duration. *)
Definition sleep (ms : Z) : M unit :=
  emit (Sleep ms) ;; modify (fun s => set_now (now s + ms) s).

(** A library call whose answer the script gives. *)
Definition call {T : Type} (e : Event) (answer : CallOutcome T) : M T :=
  emit e ;;
  match answer with
  | Returned v => ret v
  | Raised x => raise x
  end.

Section Controller.

(** The robot, and the instant at which [stop_event] is set, if ever. *)
Variable robot : Robot.
Variable stop_at : option Z.

Definition is_set (t : Z) : bool :=
  match stop_at with
  | Some t0 => (t0 <=? t)%Z
  | None => false
  end.

Definition stop_event_is_set : M bool := get (fun s => is_set (now s)).

Definition is_connected : M bool := get connected.

(** --- RTDE CONNECTION LOOP --- for attempt [a]. *)
Fixpoint connection_loop (fuel : nat) (a : nat) (retries : nat) : M unit :=
  match fuel with
  | O => fun s => (OutOfFuel, s)
  | S fuel' =>
      c <- is_connected ;;
      stop <- stop_event_is_set ;;
      if negb c && negb stop then
        if (MAX_RETRIES <=? retries)%nat then raise ConnectionRefusedError
        else
          emit Connect ;;
          match connect_outcome robot a retries with
          | ConnectOk =>
              modify (set_connected true)        (* break *)
          | ConnectNoLink | ConnectRaises =>
              sleep 2000 ;;
              connection_loop fuel' a (S retries)
          end
      else ret tt
  end.

Definition set_mask (d : DataObject) : DataObject :=
  if hasattr (speed_slider_mask d)
  then mkData (Present (Some 1%Z)) (speed_slider_fraction d)
  else d.

Definition set_fraction (v : float) (d : DataObject) : DataObject :=
  mkData (speed_slider_mask d) (Present (Some v)).

Definition init_fraction (d : DataObject) : DataObject :=
  if hasattr (speed_slider_fraction d)
  then set_fraction VELOCITY_OVER_3M_THRESHOLD d
  else d.

(** --- RTDE SETUP ORDER IS CRUCIAL --- *)
Definition handshake (a : nat) : M unit :=
  (* 1. Setup Input *)
  r <- call SendInputSetup (input_setup robot a) ;;
  modify (set_input_data r) ;;
  match r with
  | None => raise OtherException
  | Some d =>
      modify (set_input_data (Some (init_fraction (set_mask d)))) ;;
      (* 2. Setup Output *)
      ok <- call (SendOutputSetup RTDE_FREQUENCY) (output_setup robot a) ;;
      if negb ok then raise OtherException
      else
        (* 3. Starting RTDE Synchronization *)
        started <- call SendStart (start_outcome robot a) ;;
        if negb started then raise OtherException
        else ret tt
  end.

(** The body of [if state:] in cycle [k] of attempt [a]. *)
Definition on_state_packet (a k : nat) : M unit :=
  q <- get distance_queue ;;
  d0 <- get current_distance ;;
  let '(d, q') := consume_latest q d0 in
  modify (set_distance_queue q') ;;
  modify (set_current_distance d) ;;
  let new_speed_fraction := calculate_speed_fraction d in
  data <- get input_data ;;
  previous <- get previous_speed_fraction ;;
  match data with
  | Some obj =>
      if hasattr (speed_slider_fraction obj)
         && (new_speed_fraction !=? previous)%py
      then
        let obj' := set_fraction new_speed_fraction obj in
        modify (set_input_data (Some obj')) ;;
        call (Send obj') (send_outcome robot a k) ;;
        modify (set_previous_speed_fraction new_speed_fraction)
      else ret tt
  | None => ret tt
  end.

(** One turn of the main communication loop, after its condition held. *)
Definition cycle_body (a k : nat) : M unit :=
  emit Receive ;;
  match receive_outcome robot a k with
  | ReceiveRaises e => raise e
  | StatePacket => on_state_packet a k
  | NoPacket => ret tt
  end ;;
  sleep (1000 / RTDE_FREQUENCY).

(** What the supervisor published since the last cycle reaches the queue. *)
Definition deliver (a k : nat) : M unit :=
  modify (fun s =>
    set_distance_queue (Queue.put_all (distance_queue s) (arrivals robot a k)) s).

(** --- MAIN RTDE COMMUNICATION LOOP ---
    [while not stop_event.is_set() and con.is_connected():] asks the
    connection only when the event is not set. *)
Fixpoint cycle_loop (fuel : nat) (a k : nat) : M unit :=
  match fuel with
  | O => fun s => (OutOfFuel, s)
  | S fuel' =>
      deliver a k ;;
      stop <- stop_event_is_set ;;
      if stop then ret tt
      else
        modify (fun s => set_connected (connected s && link_up robot a k) s) ;;
        c <- is_connected ;;
        if c then
          cycle_body a k ;;
          cycle_loop fuel' a (S k)
        else ret tt
  end.

(** The [try] block of one turn of the outer loop. *)
Definition attempt_body (cycle_fuel : nat) (a : nat) : M unit :=
  emit NewRTDE ;;
  modify (set_connected false) ;;
  connection_loop (S MAX_RETRIES) a 0 ;;
  c <- is_connected ;;
  if negb c then raise ConnectionRefusedError
  else
    call LoadRecipe (load_recipe robot a) ;;
    handshake a ;;
    cycle_loop cycle_fuel a 0.

(** The [finally] block: [if con and con.is_connected():] asks the
    connection again, which may have dropped the link since the last time
    it was asked (when a call on it raised, say). *)
Definition teardown (a : nat) : M unit :=
  modify (fun s => set_connected (connected s && link_at_finally robot a) s) ;;
  c <- is_connected ;;
  (if c then
     emit SendPause ;;
     match pause_outcome robot a with
     | Returned _ => emit Disconnect ;; modify (set_connected false)
     | Raised _ => ret tt                    (* except Exception: log *)
     end
   else ret tt) ;;
  sleep 30000.

(** The [except] clause that matches what the [try] block raised, then
    the [finally] block. *)
Definition except_finally (a : nat) (tried : Outcome unit * State)
  : Outcome unit * State :=
  match tried with
  | (Ret _, s1) => teardown a s1
  | (Raise ConnectionRefusedError, s1) => (sleep 10000 ;; teardown a) s1
  | (Raise OtherException, s1) => (sleep 5000 ;; teardown a) s1
  | (OutOfFuel, s1) => (OutOfFuel, s1)
  end.

(** One turn of the outer loop. *)
Definition attempt (cycle_fuel : nat) (a : nat) : M unit :=
  fun s => except_finally a (attempt_body cycle_fuel a s).

(** How a run of the thread ends within the fuel it is given. *)
Inductive Run : Type :=
| ThreadEnded (attempts : nat) (s : State)    (* the function returned *)
| StillRunning (attempts : nat) (s : State)   (* more turns to go *)
| Crashed (e : Exn) (s : State).              (* an exception escaped *)

Fixpoint outer_loop (fuel cycle_fuel : nat) (a : nat) (s : State) : Run :=
  if is_set (now s) then ThreadEnded a s
  else
    match fuel with
    | O => StillRunning a s
    | S fuel' =>
        match attempt cycle_fuel a s with
        | (Ret tt, s') => outer_loop fuel' cycle_fuel (S a) s'
        | (Raise e, s') => Crashed e s'
        | (OutOfFuel, s') => StillRunning a s'
        end
    end.

Definition run_rtde_controller (fuel cycle_fuel : nat) : Run :=
  outer_loop fuel cycle_fuel 0 initial_state.

End Controller.

(* ================================================================== *)
(** * The methods of [str] that [main] uses *)

Module Str.

Local Open Scope string_scope.

(** [str.isspace] on the characters below 256. *)
Definition isspace (c : ascii) : bool :=
  let n := nat_of_ascii c in
  ((9 <=? n) && (n <=? 13) || (28 <=? n) && (n <=? 32)
   || (n =? 133) || (n =? 160))%nat.

Definition is_empty (s : string) : bool :=
  match s with EmptyString => true | String _ _ => false end.

Fixpoint lstrip (s : string) : string :=
  match s with
  | String c rest => if isspace c then lstrip rest else s
  | EmptyString => EmptyString
  end.

Fixpoint rstrip (s : string) : string :=
  match s with
  | String c rest =>
      let rest' := rstrip rest in
      if isspace c && is_empty rest' then EmptyString else String c rest'
  | EmptyString => EmptyString
  end.

Definition strip (s : string) : string := rstrip (lstrip s).

(** [s.split(sep)] for a one-character separator: never an empty list. *)
Fixpoint split (sep : ascii) (s : string) : list string :=
  match s with
  | EmptyString => [EmptyString]
  | String c rest =>
      if Ascii.eqb c sep then EmptyString :: split sep rest
      else
        match split sep rest with
        | field :: fields => String c field :: fields
        | [] => [String c EmptyString]
        end
  end.

Definition startswith (s prefix : string) : bool := String.prefix prefix s.

End Str.

(* ================================================================== *)
(** * [float] of a string *)

(** What Python's [float] accepts, on the characters below 256: white
    space around the text is dropped; then come a sign, if any, and
    [inf], [infinity] or [nan] in any case, or a decimal number
    ([digits], [digits.], [.digits] or [digits.digits], with single
    underscores allowed between digits) and, if any, an exponent ([e] or
    [E], a sign, digits). The value is the nearest binary64. [None] stands
    for [ValueError]. *)

Definition lower (c : ascii) : ascii :=
  let n := nat_of_ascii c in
  if ((65 <=? n) && (n <=? 90))%nat then ascii_of_nat (n + 32) else c.

Fixpoint lowercase (s : string) : string :=
  match s with
  | EmptyString => EmptyString
  | String c rest => String (lower c) (lowercase rest)
  end.

(** Reads a run of digits in which an underscore may stand between two
    digits: the number read so far, how many digits, and what follows. *)
Fixpoint digitpart (acc : Z) (count : Z) (s : string) : Z * Z * string :=
  match s with
  | String c rest =>
      if is_digit c then digitpart (10 * acc + digit_value c) (count + 1) rest
      else if Ascii.eqb c "_" && (0 <? count) then
        match rest with
        | String d _ => if is_digit d then digitpart acc count rest
                        else (acc, count, s)
        | EmptyString => (acc, count, s)
        end
      else (acc, count, s)
  | EmptyString => (acc, count, s)
  end.

Definition float_of_str (text : string) : option float :=
  let '(neg, body) := read_sign (Str.strip text) in
  let word := lowercase body in
  if String.eqb word "inf" || String.eqb word "infinity"
  then Some (S754_infinity neg)
  else if String.eqb word "nan" then Some S754_nan
  else
    let '(ip, ni, after_int) := digitpart 0 0 body in
    let '(m, nf, after_frac) :=
      match after_int with
      | String "."%char frac => digitpart ip 0 frac
      | _ => (ip, 0, after_int)
      end in
    if ni + nf =? 0 then None
    else
      match after_frac with
      | EmptyString => Some (of_decimal neg m (- nf))
      | String c exponent =>
          if Ascii.eqb (lower c) "e" then
            let '(eneg, digits) := read_sign exponent in
            let '(ev, ne, rest) := digitpart 0 0 digits in
            if (0 <? ne) && Str.is_empty rest
            then Some (of_decimal neg m ((if eneg then - ev else ev) - nf))
            else None
          else None
      end.

(* ================================================================== *)
(** * The supervisor loop of [main] (SpeedControllerUDP.py) *)

Module Supervisor.

Local Open Scope string_scope.

(** A descriptor that [poller.poll] reports ready, with what [readline]
    then does on it: it returns a line (the empty string at the end of
    the stream), or it raises, as it does with [UnicodeDecodeError] on
    bytes that are no text in the encoding of the stream. *)
Inductive Ready : Type :=
| StdoutReady (line : string)     (* udp_process.stdout *)
| StderrReady (line : string)     (* udp_process.stderr *)
| StdinReady (line : string)      (* sys.stdin *)
| StdoutRaises                    (* udp_process.stdout.readline() raises *)
| StderrRaises                    (* udp_process.stderr.readline() raises *)
| StdinRaises.                    (* sys.stdin.readline() raises *)

(** The child has exited: its return code, and what
    [udp_process.stderr.read()] then gives ([None]: it raises). *)
Record Exit : Type := mkExit {
  exit_code : Z;
  exit_stderr : option string
}.

(** One wake of [poller.poll(100)]: how long it blocked, what is ready, and
    what [udp_process.poll()] says afterwards. *)
Record Wake : Type := mkWake {
  blocked_ms : Z;
  ready : list Ready;
  returncode : option Exit
}.

Inductive LogEntry : Type :=
| LogPut (received_distance : float)       (* [MAIN_PROC] Distance (PUT) *)
| LogMalformed (line : string)             (* [MAIN_PROC] Malformed UDP line *)
| LogUnknown (line : string)               (* [MAIN_PROC] Unknown UDP output *)
| LogChildStderr (line : string)           (* [MAIN_PROC_UDP_ERR] *)
| LogQuit                                  (* User requested interruption *)
| LogIgnored (line : string)               (* Ignored input *)
| LogChildExit (code : Z)                  (* UDP subprocess terminated *)
| LogRemainingStderr (text : string).      (* Remaining stderr output *)

Record Main : Type := mkMain {
  clock : Z;                     (* ms *)
  distance_queue : Queue.t;
  stop_event : bool;
  stop_set_at : option Z;        (* when [stop_event.set()] was first called *)
  log : list LogEntry            (* oldest first *)
}.

Definition initial : Main := mkMain 0 Queue.new false None [].

Definition info (e : LogEntry) (m : Main) : Main :=
  mkMain (clock m) (distance_queue m) (stop_event m) (stop_set_at m)
    (log m ++ [e]).

Definition put (x : float) (m : Main) : Main :=
  mkMain (clock m) (Queue.put (distance_queue m) x) (stop_event m)
    (stop_set_at m) (log m).

Definition set_stop (m : Main) : Main :=
  mkMain (clock m) (distance_queue m) true
    (match stop_set_at m with Some t => Some t | None => Some (clock m) end)
    (log m).

Definition wait (ms : Z) (m : Main) : Main :=
  mkMain (clock m + ms) (distance_queue m) (stop_event m) (stop_set_at m)
    (log m).

(** A handler either returns or lets an exception escape the loop. *)
Inductive Handled : Type :=
| Returns (m : Main)
| Escapes (m : Main).

(** The reads that raise: no handler of the loop is around them. *)
Definition raises (r : Ready) : bool :=
  match r with
  | StdoutRaises | StderrRaises | StdinRaises => true
  | _ => false
  end.

(** A wake in which a read raises: a [readline] on a ready descriptor, or
    the [read] of what is left of the child's stderr once it has
    exited. *)
Definition wake_aborts (w : Wake) : bool :=
  existsb raises (ready w)
  || match returncode w with
     | Some e =>
         match exit_stderr e with None => true | Some _ => false end
     | None => false
     end.

Section Loop.

(** Python's [float(str)]; [None] stands for [ValueError]. *)
Variable py_float : string -> option float.

(** The text handed to [float]: [line.strip().split(':')[1]]. *)
Definition distance_field (line : string) : option string :=
  nth_error (Str.split ":" (Str.strip line)) 1.

Definition on_stdout (line : string) (m : Main) : Handled :=
  if Str.is_empty line then Returns m
  else if Str.startswith line "DISTANCE:" then
    match distance_field line with
    | None => Escapes m                          (* IndexError *)
    | Some field =>
        match py_float field with
        | Some received_distance =>
            Returns (info (LogPut received_distance)
                       (put received_distance m))
        | None => Returns (info (LogMalformed (Str.strip line)) m)
        end
    end
  else Returns (info (LogUnknown (Str.strip line)) m).

Definition on_stderr (err_line : string) (m : Main) : Handled :=
  if Str.is_empty err_line then Returns m
  else Returns (info (LogChildStderr (Str.strip err_line)) m).

Definition on_stdin (line : string) (m : Main) : Handled :=
  let line := Str.strip line in
  if String.eqb line "q" then Returns (set_stop (info LogQuit m))
  else Returns (info (LogIgnored line) m).

Definition on_ready (r : Ready) (m : Main) : Handled :=
  match r with
  | StdoutReady line => on_stdout line m
  | StderrReady line => on_stderr line m
  | StdinReady line => on_stdin line m
  | StdoutRaises | StderrRaises | StdinRaises => Escapes m
  end.

(** [for fd, event in ready_fds: ...] *)
Fixpoint on_all_ready (rs : list Ready) (m : Main) : Handled :=
  match rs with
  | [] => Returns m
  | r :: rest =>
      match on_ready r m with
      | Returns m' => on_all_ready rest m'
      | Escapes m' => Escapes m'
      end
  end.

(** [poller.poll(100)] blocks for at most its timeout. *)
Definition poll_wait (w : Wake) : Z := Z.min 100 (Z.max 0 (blocked_ms w)).

Inductive LoopEnd : Type :=
| Left (m : Main)          (* the loop is over, [finally] runs next *)
| Aborted (m : Main)       (* an exception escaped, [finally] runs next *)
| Polling (m : Main).      (* still in the loop when the script ends *)

(** [while not stop_event.is_set(): ...] over the wakes of the script. *)
Fixpoint main_loop (wakes : list Wake) (m : Main) : LoopEnd :=
  if stop_event m then Left m
  else
    match wakes with
    | [] => Polling m
    | w :: rest =>
        match on_all_ready (ready w) (wait (poll_wait w) m) with
        | Escapes m' => Aborted m'
        | Returns m' =>
            match returncode w with
            | Some e =>
                let m1 := info (LogChildExit (exit_code e)) m' in
                match exit_stderr e with
                | None => Aborted m1          (* stderr.read() raises *)
                | Some stderr_output =>
                    Left (set_stop
                            (if Str.is_empty stderr_output then m1
                             else info (LogRemainingStderr stderr_output) m1))
                end
            | None => main_loop rest m'
            end
        end
    end.

End Loop.

End Supervisor.

(* ================================================================== *)
(** * The reception loop of [main] (udp_listener.py) *)

Module UdpListener.

(** [struct.unpack('<f', data)[0]]: four bytes, least significant first,
    read as a binary32 and widened to a Python float. *)
Definition bits_of (data : list Byte.byte) : Z :=
  fold_right (fun b acc => Z.of_N (Byte.to_N b) + 256 * acc) 0 data.

Definition unpack_float (data : list Byte.byte) : float :=
  let bits := bits_of data in
  let negative := Z.testbit bits 31 in
  let exponent := Z.land (Z.shiftr bits 23) 255 in
  let mantissa := Z.land bits 8388607 in
  let signed (m : Z) := if negative then - m else m in
  if exponent =? 0 then
    if mantissa =? 0 then S754_zero negative
    else binary_normalize prec emax (signed mantissa) (-149) false
  else if exponent =? 255 then
    if mantissa =? 0 then S754_infinity negative else S754_nan
  else binary_normalize prec emax (signed (mantissa + 8388608))
         (exponent - 150) false.

(** [struct.calcsize('<f')] *)
Definition calcsize_f : nat := 4.

Inductive Recv : Type :=
| Datagram (payload : list Byte.byte)      (* what the sender put on the wire *)
| RecvRaises.                              (* [recvfrom] raised *)

Inductive Output : Type :=
| WriteDistance (received_distance : float)  (* stdout: DISTANCE:<value>, flushed *)
| InfoForwarded (received_distance : float)
| InfoMalformed (size : nat)
| ErrorLogged
| Sleep (ms : Z).

(** One turn of [while True]. *)
Definition on_recv (r : Recv) : list Output :=
  match r with
  | Datagram payload =>
      let data := firstn 1024 payload in        (* sock.recvfrom(1024) *)
      if (List.length data =? calcsize_f)%nat then
        let received_distance := unpack_float data in
        [WriteDistance received_distance; InfoForwarded received_distance]
      else [InfoMalformed (List.length data)]
  | RecvRaises => [ErrorLogged; Sleep 100]
  end.

Definition reception_loop (inputs : list Recv) : list Output :=
  flat_map on_recv inputs.

Definition is_distance_line (o : Output) : bool :=
  match o with WriteDistance _ => true | _ => false end.

End UdpListener.

(* ================================================================== *)
(** * Vocabulary of the statements *)

(** One failed connection try, as it shows in the trace, and [n] of them. *)
Definition failed_try : list Event := [Connect; Sleep 2000].

Definition tries (n : nat) : list Event := List.concat (repeat failed_try n).

(** A turn of the outer loop whose connection retries all fail. *)
Definition exhausted_turn : list Event :=
  NewRTDE :: tries MAX_RETRIES ++ [Sleep 10000; Sleep 30000].

Definition is_connect (e : Event) : bool :=
  match e with Connect => true | _ => false end.

(** Events of the cyclic exchange. *)
Definition is_exchange (e : Event) : bool :=
  match e with Receive | Send _ => true | _ => false end.

(** No event of the cyclic exchange among [evs]. *)
Definition quiet (evs : list Event) : Prop :=
  forallb (fun e => negb (is_exchange e)) evs = true.

(** The three calls of the handshake. *)
Definition is_setup (e : Event) : bool :=
  match e with
  | SendInputSetup | SendOutputSetup _ | SendStart => true
  | _ => false
  end.

(** No call of the handshake among [evs]. *)
Definition no_setup (evs : list Event) : Prop :=
  forallb (fun e => negb (is_setup e)) evs = true.

(** The state fields that only the cyclic exchange writes are the same in
    [s] and [s']. *)
Definition same_data (s s' : State) : Prop :=
  distance_queue s' = distance_queue s
  /\ current_distance s' = current_distance s
  /\ previous_speed_fraction s' = previous_speed_fraction s.

(** The pause of the [except] clause that handles what was raised. *)
Definition backoff (r : Outcome unit) : Z :=
  match r with
  | Raise ConnectionRefusedError => 10000
  | Raise OtherException => 5000
  | _ => 0
  end.

(** The objects handed to [con.send], in order. *)
Definition sends (evs : list Event) : list DataObject :=
  flat_map (fun e => match e with Send d => [d] | _ => [] end) evs.

(** The instant at which each event of a trace starts, for a thread started
    at [t]: time passes in [time.sleep] only. *)
Fixpoint timeline (t : Z) (evs : list Event) : list (Z * Event) :=
  match evs with
  | [] => []
  | e :: rest =>
      (t, e) :: timeline (match e with Sleep ms => t + ms | _ => t end) rest
  end.

Section Vocabulary.

Variable robot : Robot.

Definition input_ok (a : nat) : bool :=
  match input_setup robot a with Returned (Some _) => true | _ => false end.

Definition output_ok (a : nat) : bool :=
  match output_setup robot a with Returned true => true | _ => false end.

Definition start_ok (a : nat) : bool :=
  match start_outcome robot a with Returned true => true | _ => false end.

Definition handshake_ok (a : nat) : bool :=
  input_ok a && output_ok a && start_ok a.

(** The calls of the handshake up to and including the first that fails. *)
Definition handshake_events (a : nat) : list Event :=
  SendInputSetup ::
    (if input_ok a then
       SendOutputSetup RTDE_FREQUENCY ::
         (if output_ok a then [SendStart] else [])
     else []).

(** The fraction cycle [k] computes, from the queue and the distance the
    cycle starts with. *)
Definition cycle_fraction (s : State) : float :=
  calculate_speed_fraction
    (fst (consume_latest (distance_queue s) (current_distance s))).

(** Whether [input_data] has the attribute the cycle writes. *)
Definition has_slider (s : State) : bool :=
  match input_data s with
  | Some obj => hasattr (speed_slider_fraction obj)
  | None => false
  end.

(** The condition under which a cycle that got a state packet sends. *)
Definition gate (s : State) : bool :=
  match input_data s with
  | Some obj =>
      hasattr (speed_slider_fraction obj)
      && (cycle_fraction s !=? previous_speed_fraction s)%py
  | None => false
  end.

(** [n] consecutive turns of the main communication loop, from cycle [k]. *)
Fixpoint cycles (n : nat) (a k : nat) : M unit :=
  match n with
  | O => ret tt
  | S n' =>
      (deliver robot a k ;; cycle_body robot a k ;; cycles n' a (S k))%stmt
  end.

(** The fractions these turns compute when each receives a state packet. *)
Fixpoint computed (n : nat) (a k : nat) (q : Queue.t) (d : float)
  : list float :=
  match n with
  | O => []
  | S n' =>
      let '(d', q') :=
        consume_latest (Queue.put_all q (arrivals robot a k)) d in
      calculate_speed_fraction d' :: computed n' a (S k) q' d'
  end.

End Vocabulary.

(** The values the governor returns, and those the controller can hold as
    the fraction sent last. *)
Definition table (f : float) : Prop :=
  In f [VELOCITY_THRESHOLD_0_5M; VELOCITY_THRESHOLD_1M; VELOCITY_2M_THRESHOLD;
        VELOCITY_3M_THRESHOLD].

Definition known (p : float) : Prop := p = SFopp (lit "1.0") \/ table p.

(** Change detection over a sequence of computed fractions: the ones that
    differ from the fraction sent last. *)
Fixpoint gated (previous : float) (fractions : list float) : list float :=
  match fractions with
  | [] => []
  | f :: rest =>
      if (f !=? previous)%py then f :: gated f rest
      else gated previous rest
  end.

(** The invariant of the supervisor loop: [stop_event] is set exactly when
    the time of setting it was recorded, and no time has passed since. *)
Definition prompt (m : Supervisor.Main) : Prop :=
  (Supervisor.stop_event m = false /\ Supervisor.stop_set_at m = None)
  \/ (Supervisor.stop_event m = true
      /\ Supervisor.stop_set_at m = Some (Supervisor.clock m)).

(* ================================================================== *)
(** * Scripts for the examples *)

(** An input object as a recipe with both slider fields gives it, and one
    from a recipe that leaves [speed_slider_fraction] out. *)
Definition full_recipe_object : DataObject :=
  mkData (Present None) (Present None).

Definition sliderless_object : DataObject :=
  mkData (Present None) Absent.

(** A robot that always answers, with no sample on the queue. *)
Definition responsive_robot (obj : DataObject) : Robot :=
  {| connect_outcome := fun _ _ => ConnectOk;
     load_recipe := fun _ => Returned tt;
     input_setup := fun _ => Returned (Some obj);
     output_setup := fun _ => Returned true;
     start_outcome := fun _ => Returned true;
     link_up := fun _ _ => true;
     receive_outcome := fun _ _ => StatePacket;
     send_outcome := fun _ _ => Returned tt;
     pause_outcome := fun _ => Returned tt;
     link_at_finally := fun _ => true;
     arrivals := fun _ _ => [] |}.

(** A robot that refuses every connection. *)
Definition dead_robot : Robot :=
  {| connect_outcome := fun _ _ => ConnectRaises;
     load_recipe := fun _ => Returned tt;
     input_setup := fun _ => Returned (Some full_recipe_object);
     output_setup := fun _ => Returned true;
     start_outcome := fun _ => Returned true;
     link_up := fun _ _ => true;
     receive_outcome := fun _ _ => StatePacket;
     send_outcome := fun _ _ => Returned tt;
     pause_outcome := fun _ => Returned tt;
     link_at_finally := fun _ => true;
     arrivals := fun _ _ => [] |}.

(** A robot whose output setup is refused. *)
Definition refusing_robot : Robot :=
  {| connect_outcome := fun _ _ => ConnectOk;
     load_recipe := fun _ => Returned tt;
     input_setup := fun _ => Returned (Some full_recipe_object);
     output_setup := fun _ => Returned false;
     start_outcome := fun _ => Returned true;
     link_up := fun _ _ => true;
     receive_outcome := fun _ _ => StatePacket;
     send_outcome := fun _ _ => Returned tt;
     pause_outcome := fun _ => Returned tt;
     link_at_finally := fun _ => true;
     arrivals := fun _ _ => [] |}.

(** A robot that always answers, while the samples 3.5, then 2.5 and 1.5
    together, then nothing, then 0.5 reach the queue before the first four
    cycles of every connection. *)
Definition approaching_robot : Robot :=
  {| connect_outcome := fun _ _ => ConnectOk;
     load_recipe := fun _ => Returned tt;
     input_setup := fun _ => Returned (Some full_recipe_object);
     output_setup := fun _ => Returned true;
     start_outcome := fun _ => Returned true;
     link_up := fun _ _ => true;
     receive_outcome := fun _ _ => StatePacket;
     send_outcome := fun _ _ => Returned tt;
     pause_outcome := fun _ => Returned tt;
     link_at_finally := fun _ => true;
     arrivals := fun _ k =>
       match k with
       | 0%nat => [lit "3.5"]
       | 1%nat => [lit "2.5"; lit "1.5"]
       | 3%nat => [lit "0.5"]
       | _ => []
       end |}.

(** The line feed that ends a line of the child's output. *)
Definition LF : string := String (ascii_of_nat 10) EmptyString.

(* ================================================================== *)
(** * Vocabulary of the further properties *)

(** The state in which a run of the thread is left. *)
Definition final_state (r : Run) : State :=
  match r with
  | ThreadEnded _ s | StillRunning _ s | Crashed _ s => s
  end.

(** An object as the controller means to send it: the fraction is one of
    the table and the mask, where the recipe has one, is 1. *)
Definition table_command (d : DataObject) : Prop :=
  (exists f : float, speed_slider_fraction d = Present (Some f) /\ table f)
  /\ (speed_slider_mask d = Absent \/ speed_slider_mask d = Present (Some 1)).

(** The mask of the object [send_input_setup] gave, once the handshake has
    been through it. *)
Definition mask_set (data : option DataObject) : Prop :=
  match data with
  | Some d =>
      speed_slider_mask d = Absent \/ speed_slider_mask d = Present (Some 1)
  | None => True
  end.

(** A robot that answers every call as the controller hopes, whatever
    reaches the queue in the meantime. *)
Definition obliging (robot : Robot) (d : DataObject) : Prop :=
  (forall a, connect_outcome robot a 0 = ConnectOk)
  /\ (forall a, load_recipe robot a = Returned tt)
  /\ (forall a, input_setup robot a = Returned (Some d))
  /\ (forall a, output_setup robot a = Returned true)
  /\ (forall a, start_outcome robot a = Returned true)
  /\ (forall a k, link_up robot a k = true)
  /\ (forall a k, receive_outcome robot a k = StatePacket)
  /\ (forall a k, send_outcome robot a k = Returned tt)
  /\ (forall a, pause_outcome robot a = Returned tt)
  /\ (forall a, link_at_finally robot a = true).

(** The cycles the main communication loop runs when [stop_event] is set
    [t] ms after the loop started: one every 10 ms, the last one starting
    before [t]. *)
Definition cycles_before (t : Z) : nat := Z.to_nat ((t + 9) / 10).

(** What [n] cycles without a state packet leave in the trace. *)
Definition idle_cycles (n : nat) : list Event :=
  List.concat (repeat [Receive; Sleep (1000 / RTDE_FREQUENCY)] n).

(** The samples that reach the queue before cycles [k] .. [k + n - 1] of
    connection [a], oldest first. *)
Definition arrived (robot : Robot) (a k n : nat) : list float :=
  flat_map (arrivals robot a) (seq k n).

(** The state of the thread when its first handshake, with an obliging
    robot, is done: connected, nothing published yet, the clock still at
    zero. *)
Definition after_handshake (d : DataObject) : State :=
  {| now := 0;
     trace := [NewRTDE; Connect; LoadRecipe; SendInputSetup;
               SendOutputSetup RTDE_FREQUENCY; SendStart];
     distance_queue := Queue.new;
     connected := true;
     input_data := Some (init_fraction (set_mask d));
     current_distance := SFopp (lit "1.0");
     previous_speed_fraction := SFopp (lit "1.0") |}.

(** What [finally] does with a connection that was up the last time it
    was asked: it asks again and, if the link is still up, calls
    [send_pause] and then, unless that raised, [disconnect]. *)
Definition release (robot : Robot) (a : nat) : list Event :=
  if link_at_finally robot a then
    SendPause ::
      match pause_outcome robot a with
      | Returned _ => [Disconnect]
      | Raised _ => []
      end
  else [].

(** A robot that accepts the connection and the handshake and then sends
    no state packet, while a sample of 0.5 m reaches the queue before
    every cycle. *)
Definition silent_robot : Robot :=
  {| connect_outcome := fun _ _ => ConnectOk;
     load_recipe := fun _ => Returned tt;
     input_setup := fun _ => Returned (Some full_recipe_object);
     output_setup := fun _ => Returned true;
     start_outcome := fun _ => Returned true;
     link_up := fun _ _ => true;
     receive_outcome := fun _ _ => NoPacket;
     send_outcome := fun _ _ => Returned tt;
     pause_outcome := fun _ => Returned tt;
     link_at_finally := fun _ => true;
     arrivals := fun _ _ => [lit "0.5"] |}.

(** A robot whose link is lost before the second cycle, one whose
    [receive] raises in the second cycle, and one whose [send] and
    [send_pause] raise. *)
Definition dropping_robot : Robot :=
  {| connect_outcome := fun _ _ => ConnectOk;
     load_recipe := fun _ => Returned tt;
     input_setup := fun _ => Returned (Some full_recipe_object);
     output_setup := fun _ => Returned true;
     start_outcome := fun _ => Returned true;
     link_up := fun _ k => (k <? 1)%nat;
     receive_outcome := fun _ _ => StatePacket;
     send_outcome := fun _ _ => Returned tt;
     pause_outcome := fun _ => Returned tt;
     link_at_finally := fun _ => true;
     arrivals := fun _ _ => [] |}.

Definition failing_receive_robot : Robot :=
  {| connect_outcome := fun _ _ => ConnectOk;
     load_recipe := fun _ => Returned tt;
     input_setup := fun _ => Returned (Some full_recipe_object);
     output_setup := fun _ => Returned true;
     start_outcome := fun _ => Returned true;
     link_up := fun _ _ => true;
     receive_outcome := fun _ k =>
       if (k <? 1)%nat then StatePacket else ReceiveRaises OtherException;
     send_outcome := fun _ _ => Returned tt;
     pause_outcome := fun _ => Returned tt;
     link_at_finally := fun _ => true;
     arrivals := fun _ _ => [] |}.

Definition failing_send_robot : Robot :=
  {| connect_outcome := fun _ _ => ConnectOk;
     load_recipe := fun _ => Returned tt;
     input_setup := fun _ => Returned (Some full_recipe_object);
     output_setup := fun _ => Returned true;
     start_outcome := fun _ => Returned true;
     link_up := fun _ _ => true;
     receive_outcome := fun _ _ => StatePacket;
     send_outcome := fun _ _ => Raised OtherException;
     pause_outcome := fun _ => Raised OtherException;
     link_at_finally := fun _ => true;
     arrivals := fun _ _ => [] |}.

(** A robot whose [receive] raises in the second cycle and whose link is
    down when [finally] asks. *)
Definition vanishing_robot : Robot :=
  {| connect_outcome := fun _ _ => ConnectOk;
     load_recipe := fun _ => Returned tt;
     input_setup := fun _ => Returned (Some full_recipe_object);
     output_setup := fun _ => Returned true;
     start_outcome := fun _ => Returned true;
     link_up := fun _ _ => true;
     receive_outcome := fun _ k =>
       if (k <? 1)%nat then StatePacket else ReceiveRaises OtherException;
     send_outcome := fun _ _ => Returned tt;
     pause_outcome := fun _ => Returned tt;
     link_at_finally := fun _ => false;
     arrivals := fun _ _ => [] |}.

(** A robot that accepts the connection while the recipe file cannot be
    read. *)
Definition recipeless_robot : Robot :=
  {| connect_outcome := fun _ _ => ConnectOk;
     load_recipe := fun _ => Raised OtherException;
     input_setup := fun _ => Returned (Some full_recipe_object);
     output_setup := fun _ => Returned true;
     start_outcome := fun _ => Returned true;
     link_up := fun _ _ => true;
     receive_outcome := fun _ _ => StatePacket;
     send_outcome := fun _ _ => Returned tt;
     pause_outcome := fun _ => Returned tt;
     link_at_finally := fun _ => true;
     arrivals := fun _ _ => [] |}.

(** A robot whose [send_input_setup] raises, with the link down when
    [finally] asks. *)
Definition aborting_robot : Robot :=
  {| connect_outcome := fun _ _ => ConnectOk;
     load_recipe := fun _ => Returned tt;
     input_setup := fun _ => Raised OtherException;
     output_setup := fun _ => Returned true;
     start_outcome := fun _ => Returned true;
     link_up := fun _ _ => true;
     receive_outcome := fun _ _ => StatePacket;
     send_outcome := fun _ _ => Returned tt;
     pause_outcome := fun _ => Returned tt;
     link_at_finally := fun _ => false;
     arrivals := fun _ _ => [] |}.

(* ------------------------------------------------------------------ *)
(** ** The supervisor loop, wake by wake *)

Module SupervisorRun.

Import Supervisor.
Local Open Scope string_scope.

(** A line of [sys.stdin] that makes the supervisor quit. *)
Definition quits (line : string) : bool := String.eqb (Str.strip line) "q".

Definition asks_to_quit (r : Ready) : bool :=
  match r with StdinReady line => quits line | _ => false end.

(** A wake that brings a reason to stop: the operator typed [q], or the
    child has exited. *)
Definition wake_stops (w : Wake) : bool :=
  existsb asks_to_quit (ready w)
  || match returncode w with Some _ => true | None => false end.

(** A wake after which the loop is over: it brings a reason to stop, or a
    read raises in it. *)
Definition wake_ends (w : Wake) : bool := wake_stops w || wake_aborts w.

(** The wake that ends the loop, if there is one. *)
Definition ending (wakes : list Wake) : option Wake := find wake_ends wakes.

(** The wakes the loop goes through: those up to and including the first
    that ends it. *)
Fixpoint rounds (wakes : list Wake) : list Wake :=
  match wakes with
  | [] => []
  | w :: rest => w :: (if wake_ends w then [] else rounds rest)
  end.

(** The descriptors read in a wake: those that come before the first
    whose [readline] raises. *)
Fixpoint served (rs : list Ready) : list Ready :=
  match rs with
  | [] => []
  | r :: rest => if raises r then [] else r :: served rest
  end.

(** The time spent in [poller.poll] over some wakes. *)
Definition total_wait (wakes : list Wake) : Z :=
  fold_right (fun w t => poll_wait w + t) 0 wakes.

Definition left_in (e : LoopEnd) : Main :=
  match e with Left m | Aborted m | Polling m => m end.

(** The line a [readline] on the child's stdout returned; the empty
    string is the end of the stream, not a line. *)
Definition stdout_line (r : Ready) : list string :=
  match r with
  | StdoutReady line => if Str.is_empty line then [] else [line]
  | _ => []
  end.

(** The lines of the child's stdout that the loop has read, in the order
    read. *)
Definition stdout_read (wakes : list Wake) : list string :=
  flat_map (fun w => flat_map stdout_line (served (ready w))) (rounds wakes).

Section Samples.

Variable py_float : string -> option float.

(** The sample a line of the child's stdout carries, if any. *)
Definition sample_of (line : string) : list float :=
  if Str.is_empty line then []
  else if Str.startswith line "DISTANCE:" then
    match distance_field line with
    | Some field =>
        match py_float field with
        | Some received_distance => [received_distance]
        | None => []
        end
    | None => []
    end
  else [].

Definition samples_read (r : Ready) : list float :=
  match r with StdoutReady line => sample_of line | _ => [] end.

(** The samples of the lines read in one wake, in the order read. *)
Definition samples (w : Wake) : list float :=
  flat_map samples_read (served (ready w)).

End Samples.

End SupervisorRun.

(* ------------------------------------------------------------------ *)
(** ** The reception loop, datagram by datagram *)

Module ListenerRun.

Import UdpListener.

(** A payload of the size of a binary32. *)
Definition well_sized (payload : list Byte.byte) : bool :=
  (List.length payload =? calcsize_f)%nat.

(** The payloads that [recvfrom] returned, in order. *)
Definition payloads (inputs : list Recv) : list (list Byte.byte) :=
  flat_map (fun r => match r with Datagram p => [p] | RecvRaises => [] end)
    inputs.

Definition raised (inputs : list Recv) : nat :=
  List.length
    (filter (fun r => match r with RecvRaises => true | _ => false end) inputs).

Definition is_sleep (o : Output) : bool :=
  match o with Sleep _ => true | _ => false end.

End ListenerRun.

(* ================================================================== *)
(** * [main] of udp_listener.py: the socket, the loop and the handlers *)

Module ListenerMain.

(** How a call on the socket ends: it returns, raises [socket.error]
    ([OSError] or one of its subclasses), or raises another [Exception]. *)
Inductive Answer : Type :=
| Fine
| SocketError
| OtherError.

(** The answers to the four calls that come before the loop. *)
Record Setup : Type := mkSetup {
  socket_answer : Answer;        (* socket.socket(AF_INET, SOCK_DGRAM) *)
  reuseaddr_answer : Answer;     (* setsockopt(SOL_SOCKET, SO_REUSEADDR, 1) *)
  rcvbuf_answer : Answer;        (* setsockopt(SOL_SOCKET, SO_RCVBUF, 1024 * 1024) *)
  bind_answer : Answer           (* sock.bind((LISTEN_IP, LISTEN_PORT)) *)
}.

Inductive Event : Type :=
| NewSocket
| SetReuseAddr (value : Z)
| SetRcvBuf (bytes : Z)
| Bind
| Loop (o : UdpListener.Output)      (* what the reception loop does *)
| Close.                             (* sock.close() *)

(** What leaves the [try] block. *)
Inductive Raised : Type :=
| RaisedSocketError
| RaisedOther
| SystemExit (code : Z).             (* sys.exit(code) *)

Definition raised_by (a : Answer) : Raised :=
  match a with
  | SocketError => RaisedSocketError
  | _ => RaisedOther
  end.

(** How the process stands when the script of datagrams is used up. *)
Inductive Ending : Type :=
| Exits (code : Z)
| Receiving.                         (* in [while True], until a signal *)

(** The state of the [try] block: the events so far, whether [sock] has
    been assigned, and what was raised, if anything. *)
Record Tried : Type := mkTried {
  events : list Event;
  sock : bool;
  raised : option Raised
}.

Definition try_block (setup : Setup) (inputs : list UdpListener.Recv)
  : Tried :=
  match socket_answer setup with
  | Fine =>
      match reuseaddr_answer setup with
      | Fine =>
          match rcvbuf_answer setup with
          | Fine =>
              match bind_answer setup with
              | Fine =>
                  mkTried
                    ([NewSocket; SetReuseAddr 1; SetRcvBuf (1024 * 1024); Bind]
                     ++ map Loop (UdpListener.reception_loop inputs))
                    true None
              | SocketError =>
                  (* except socket.error: ...; sys.exit(1) *)
                  mkTried
                    [NewSocket; SetReuseAddr 1; SetRcvBuf (1024 * 1024); Bind]
                    true (Some (SystemExit 1))
              | OtherError =>
                  mkTried
                    [NewSocket; SetReuseAddr 1; SetRcvBuf (1024 * 1024); Bind]
                    true (Some RaisedOther)
              end
          | a =>
              mkTried [NewSocket; SetReuseAddr 1; SetRcvBuf (1024 * 1024)]
                true (Some (raised_by a))
          end
      | a => mkTried [NewSocket; SetReuseAddr 1] true (Some (raised_by a))
      end
  | a => mkTried [NewSocket] false (Some (raised_by a))
  end.

(** The [finally] block: [if sock: sock.close()]. *)
Definition finally (t : Tried) : list Event :=
  if sock t then [Close] else [].

(** [main], then the end of the module: the handlers log what they catch
    and let [main] return, so that the process exits with code 0; they do
    not catch [SystemExit]. *)
Definition main (setup : Setup) (inputs : list UdpListener.Recv)
  : list Event * Ending :=
  let t := try_block setup inputs in
  match raised t with
  | None => (events t, Receiving)
  | Some RaisedSocketError => (events t ++ finally t, Exits 0)
  | Some RaisedOther => (events t ++ finally t, Exits 0)
  | Some (SystemExit code) => (events t ++ finally t, Exits code)
  end.

Definition all_fine (setup : Setup) : bool :=
  match socket_answer setup, reuseaddr_answer setup, rcvbuf_answer setup,
        bind_answer setup with
  | Fine, Fine, Fine, Fine => true
  | _, _, _, _ => false
  end.

Definition bind_refused (setup : Setup) : bool :=
  match socket_answer setup, reuseaddr_answer setup, rcvbuf_answer setup,
        bind_answer setup with
  | Fine, Fine, Fine, SocketError => true
  | _, _, _, _ => false
  end.

Definition socket_created (setup : Setup) : bool :=
  match socket_answer setup with Fine => true | _ => false end.

Definition is_close (e : Event) : bool :=
  match e with Close => true | _ => false end.

End ListenerMain.

(* ================================================================== *)
(** * The [finally] block of [main] (SpeedControllerUDP.py) *)

Module MainFinally.

(** What the block finds: whether the child is still running when it looks
    ([udp_process.poll() is None]), how long the child takes to exit once
    it has been sent SIGTERM, if it exits at all, and the instant at which
    [run_rtde_controller] returns, if it does. Durations and instants are
    in milliseconds. *)
Record Env : Type := mkEnv {
  child_running : bool;
  exit_delay : option Z;
  thread_end : option Z
}.

Inductive Event : Type :=
| Sleep (ms : Z)             (* time.sleep(0.1) *)
| Terminate                  (* udp_process.terminate() *)
| Wait (ms : Z)              (* udp_process.wait(timeout=2), for [ms] *)
| Kill                       (* udp_process.kill() *)
| Join (ms : Z)              (* rtde_thread.join(timeout=5), for [ms] *)
| LogThreadAlive.            (* RTDE thread did not terminate gracefully *)

(** The time some events take. *)
Definition duration (e : Event) : Z :=
  match e with
  | Sleep ms | Wait ms | Join ms => ms
  | Terminate | Kill | LogThreadAlive => 0
  end.

Definition elapsed (evs : list Event) : Z :=
  fold_right (fun e t => duration e + t) 0 evs.

(** [udp_process.wait(timeout=2)] and its [except TimeoutExpired]. *)
Definition wait_child (env : Env) : list Event :=
  match exit_delay env with
  | Some ms =>
      if ms <=? 2000 then [Wait (Z.max 0 ms)] else [Wait 2000; Kill]
  | None => [Wait 2000; Kill]
  end.

(** The block up to the join. *)
Definition stop_child (env : Env) : list Event :=
  Sleep 100 ::
    (if child_running env then Terminate :: wait_child env else []).

(** [rtde_thread.join(timeout=5)] called at instant [t]: how long it
    blocks, and whether the thread is still alive afterwards. *)
Definition join_thread (env : Env) (t : Z) : list Event :=
  match thread_end env with
  | Some e =>
      if e <=? t + 5000 then [Join (Z.max 0 (e - t))]
      else [Join 5000; LogThreadAlive]
  | None => [Join 5000; LogThreadAlive]
  end.

(** The block, entered at instant [t]. *)
Definition main_finally (env : Env) (t : Z) : list Event :=
  let before := stop_child env in
  before ++ join_thread env (t + elapsed before).

Definition is_kill (e : Event) : bool :=
  match e with Kill => true | _ => false end.

Definition is_terminate (e : Event) : bool :=
  match e with Terminate => true | _ => false end.

Definition is_log_thread_alive (e : Event) : bool :=
  match e with LogThreadAlive => true | _ => false end.

(** The instant at which the thread returns, in a run of the model. *)
Definition thread_end_of (r : Run) : option Z :=
  match r with
  | ThreadEnded _ s => Some (now s)
  | _ => None
  end.

End MainFinally.

(* ================================================================== *)
(** * dummyListener.py: the stand-alone receiver *)

Module DummyListener.

Import ListenerMain.

(** [sock.recvfrom(1024)] under [sock.settimeout(1.0)]: a datagram that
    arrives [after] ms into the call, the timeout, or another exception.
    The call blocks for one second at most. *)
Inductive Recv : Type :=
| Datagram (after : Z) (payload : list Byte.byte)
| TimesOut                               (* socket.timeout *)
| RecvRaises (after : Z).

Definition blocked (r : Recv) : Z :=
  match r with
  | Datagram after _ | RecvRaises after => Z.min 1000 (Z.max 0 after)
  | TimesOut => 1000
  end.

Inductive Event : Type :=
| NewSocket
| Bind
| SetTimeout (ms : Z)
| LogDistance (distance : float)         (* Distance received *)
| WarnMalformed (size : nat)             (* Malformed packet received *)
| LogReceiveError                        (* Error receiving UDP data *)
| LogSocketError                         (* Unable to create or bind UDP socket *)
| Close.

Inductive LoopEnd : Type :=
| SawStop              (* [stop_event.is_set()] at the head of the loop *)
| Broke                (* [break], after an exception of [recvfrom] *)
| ScriptEnded.         (* still in the loop when the script is used up *)

(** [while not stop_event.is_set(): ...], from instant [t]. *)
Fixpoint reception_loop (stop_at : option Z) (inputs : list Recv) (t : Z)
  : list Event * Z * LoopEnd :=
  if is_set stop_at t then ([], t, SawStop)
  else
    match inputs with
    | [] => ([], t, ScriptEnded)
    | r :: rest =>
        match r with
        | Datagram _ payload =>
            let data := firstn 1024 payload in
            let logged :=
              if (List.length data =? UdpListener.calcsize_f)%nat
              then LogDistance (UdpListener.unpack_float data)
              else WarnMalformed (List.length data) in
            let '(evs, t', e) := reception_loop stop_at rest (t + blocked r) in
            (logged :: evs, t', e)
        | TimesOut => reception_loop stop_at rest (t + blocked r)   (* continue *)
        | RecvRaises _ => ([LogReceiveError], t + blocked r, Broke)
        end
    end.

(** How the thread function ends. *)
Inductive Ending : Type :=
| Returns              (* the function returned *)
| Escapes              (* an exception left it, after [finally] *)
| Receiving.           (* still in the loop when the script is used up *)

(** [run_udp_receiver], started at instant [t], by the answers of
    [socket.socket] and [sock.bind]. *)
Definition run_udp_receiver (socket_answer bind_answer : Answer)
    (stop_at : option Z) (inputs : list Recv) (t : Z)
  : list Event * Z * Ending :=
  match socket_answer with
  | Fine =>
      match bind_answer with
      | Fine =>
          let '(evs, t', e) := reception_loop stop_at inputs t in
          match e with
          | ScriptEnded =>
              (([NewSocket; Bind; SetTimeout 1000] ++ evs)%list, t', Receiving)
          | SawStop | Broke =>
              (([NewSocket; Bind; SetTimeout 1000] ++ evs ++ [Close])%list,
               t', Returns)
          end
      | SocketError => ([NewSocket; Bind; LogSocketError; Close], t, Returns)
      | OtherError => ([NewSocket; Bind; Close], t, Escapes)
      end
  | SocketError => ([NewSocket; LogSocketError], t, Returns)
  | OtherError => ([NewSocket], t, Escapes)
  end.

(** [select.select([sys.stdin], [], [], 0.1)]: nothing to read within
    100 ms, or a line to read [after] ms into the call. *)
Inductive Select : Type :=
| Idle
| Line (after : Z) (line : string).

Definition select_wait (s : Select) : Z :=
  match s with
  | Idle => 100
  | Line after _ => Z.min 100 (Z.max 0 after)
  end.

(** The loop of [main]: the instant at which [stop_event] is set, if the
    script gets there. *)
Fixpoint main_loop (selects : list Select) (t : Z) : option Z :=
  match selects with
  | [] => None
  | s :: rest =>
      match s with
      | Line _ line =>
          if String.eqb (Str.strip line) "q"%string then Some (t + select_wait s)
          else main_loop rest (t + select_wait s)
      | Idle => main_loop rest (t + select_wait s)
      end
  end.

(** [receiver_thread.join(timeout=5)] at instant [t], for a thread that is
    over at [thread_end]: how long it blocks, and whether the warning that
    the thread did not terminate is logged. *)
Definition join (thread_end : Z) (t : Z) : Z * bool :=
  if thread_end <=? t + 5000 then (Z.max 0 (thread_end - t), false)
  else (5000, true).

End DummyListener.

(* ================================================================== *)
(** * From the listener's stdout to the supervisor *)

Module Pipe.

Import Supervisor UdpListener.
Local Open Scope string_scope.

Fixpoint all_chars (ok : ascii -> bool) (s : string) : bool :=
  match s with
  | EmptyString => true
  | String c rest => ok c && all_chars ok rest
  end.

(** A text with no colon and no white space in it. *)
Definition plain (s : string) : bool :=
  all_chars (fun c => negb (Str.isspace c) && negb (Ascii.eqb c ":")) s.

Section Lines.

(** [str] of a float, as the f-string of the listener applies it. *)
Variable repr : float -> string.

(** [f"DISTANCE:{received_distance}\n"] *)
Definition distance_line (received_distance : float) : string :=
  "DISTANCE:" ++ repr received_distance ++ LF.

(** What the listener writes on its stdout, line by line. *)
Definition stdout_lines (outputs : list Output) : list string :=
  flat_map
    (fun o => match o with WriteDistance x => [distance_line x] | _ => [] end)
    outputs.

End Lines.

(** Python's [str] on the floats of the examples: 2.75, 0.5, 1.0 and NaN
    (which [SFeqb] tells from every float). It is not meant for other
    values. *)
Definition str_of_example (x : float) : string :=
  if SFeqb x (lit "2.75") then "2.75"
  else if SFeqb x (lit "0.5") then "0.5"
  else if SFeqb x (lit "1.0") then "1.0"
  else "nan".

End Pipe.

(* ================================================================== *)
(** * The fields of a binary32 *)

Module Binary32.

Import UdpListener.

Definition sign_bit (data : list Byte.byte) : bool :=
  Z.testbit (bits_of data) 31.

Definition exponent_field (data : list Byte.byte) : Z :=
  Z.land (Z.shiftr (bits_of data) 23) 255.

Definition mantissa_field (data : list Byte.byte) : Z :=
  Z.land (bits_of data) 8388607.

(** The number a binary32 with an exponent field below 255 stands for is
    [significand * 2 ^ scale], with the sign of its sign bit: the hidden
    bit is set unless the exponent field is zero. *)
Definition significand (data : list Byte.byte) : Z :=
  if exponent_field data =? 0 then mantissa_field data
  else mantissa_field data + 8388608.

Definition scale (data : list Byte.byte) : Z :=
  if exponent_field data =? 0 then -149 else exponent_field data - 150.

End Binary32.

(* ================================================================== *)
(** * Worked runs *)

Section WorkedRuns.

Local Open Scope string_scope.

(** Decimal literals are rounded to the nearest binary64, as Python reads
    them. *)
Example literals_are_rounded :
  lit "0.3" = S754_finite false 5404319552844595 (-54)
  /\ lit "0.7" = S754_finite false 6305039478318694 (-53)
  /\ lit "0.999999" = S754_finite false 9007190247541737 (-53)
  /\ lit "1.5" = S754_finite false 6755399441055744 (-52).
Proof. split; [| split; [| split]]; vm_compute; reflexivity. Qed.

Example fraction_of_some_distances :
  map calculate_speed_fraction
    [lit "-1.0"; lit "0.5"; lit "1.5"; lit "2.5"; lit "3.5"; lit "10.0"]
  = [lit "1.0"; lit "0.0"; lit "0.3"; lit "0.7"; lit "1.0"; lit "1.0"].
Proof. vm_compute. reflexivity. Qed.

(** Minus zero is not below zero, and the infinities are ordered. *)
Example fraction_of_special_values :
  calculate_speed_fraction (S754_zero true) = lit "0.0"
  /\ calculate_speed_fraction (S754_infinity false) = lit "1.0"
  /\ calculate_speed_fraction (S754_infinity true) = lit "1.0".
Proof. split; [| split]; vm_compute; reflexivity. Qed.

Example consume_three_samples :
  consume_latest
    (Queue.put_all Queue.new [lit "3.5"; lit "2.5"; lit "1.5"]) (lit "-1.0")
  = (lit "1.5", Queue.new).
Proof. vm_compute. reflexivity. Qed.

(** The four bytes of the binary32 values 1.5 and 0.2; the latter widens
    to 0.20000000298023224. *)
Example unpack_some_datagrams :
  UdpListener.unpack_float [Byte.x00; Byte.x00; Byte.xc0; Byte.x3f]
  = lit "1.5"
  /\ UdpListener.unpack_float [Byte.xcd; Byte.xcc; Byte.x4c; Byte.x3e]
     = lit "0.20000000298023224".
Proof. split; vm_compute; reflexivity. Qed.

Example float_of_some_strings :
  map float_of_str
    [" 1.5" ++ LF; "1_000.5"; "2.5E-1"; "1e400"; "-inf"; "NaN"; "-0.0"]
  = [Some (lit "1.5"); Some (lit "1000.5"); Some (lit "0.25");
     Some (S754_infinity false); Some (S754_infinity true); Some S754_nan;
     Some (S754_zero true)]
  /\ map float_of_str [""; "."; "1e"; "1__0"; "_1"; "1.5:7"; "1.5x"; "0x10"]
     = repeat None 8.
Proof. split; vm_compute; reflexivity. Qed.

Example fields_of_a_distance_line :
  Str.split ":" (Str.strip (" DISTANCE:1.5" ++ LF)) = ["DISTANCE"; "1.5"]
  /\ Supervisor.distance_field ("DISTANCE:1.5" ++ LF) = Some "1.5"
  /\ float_of_str "1.5" = Some (lit "1.5")
  /\ float_of_str "abc" = None.
Proof. split; [| split; [| split]]; vm_compute; reflexivity. Qed.

(** A person walks towards the robot and the operator quits 35 ms after the
    thread started. The fraction is sent in the cycles at 0, 10 and 30 ms,
    when it changes, and not in the cycle at 20 ms; of the two samples that
    arrive together only the newer one, 1.5, is used. The head of the
    cyclic loop sees the event at 40 ms and the thread returns at
    30040 ms. *)
Example approaching_person :
  exists s : State,
    run_rtde_controller approaching_robot (Some 35) 3 10 = ThreadEnded 1 s
    /\ timeline 0 (trace s)
       = [(0, NewRTDE); (0, Connect); (0, LoadRecipe); (0, SendInputSetup);
          (0, SendOutputSetup 100); (0, SendStart);
          (0, Receive);
          (0, Send (mkData (Present (Some 1)) (Present (Some (lit "1.0")))));
          (0, Sleep 10);
          (10, Receive);
          (10, Send (mkData (Present (Some 1)) (Present (Some (lit "0.3")))));
          (10, Sleep 10);
          (20, Receive);
          (20, Sleep 10);
          (30, Receive);
          (30, Send (mkData (Present (Some 1)) (Present (Some (lit "0.0")))));
          (30, Sleep 10);
          (40, SendPause); (40, Disconnect); (40, Sleep 30000)]
    /\ now s = 30040
    /\ current_distance s = lit "0.5"
    /\ previous_speed_fraction s = lit "0.0".
Proof.
  eexists. split; [vm_compute; reflexivity |].
  split; [| split; [| split]]; vm_compute; reflexivity.
Qed.

End WorkedRuns.
(* ================================================================== *)
(** * Facts about the Speed Governor *)

Section SpeedGovernorFacts.

Local Open Scope pyfloat_scope.

Lemma threshold_0_5m_lit : VELOCITY_THRESHOLD_0_5M = lit "0.0".
Proof. vm_compute. reflexivity. Qed.

Lemma threshold_1m_lit : VELOCITY_THRESHOLD_1M = lit "0.3".
Proof. vm_compute. reflexivity. Qed.

Lemma threshold_2m_lit : VELOCITY_2M_THRESHOLD = lit "0.7".
Proof. vm_compute. reflexivity. Qed.

Lemma threshold_3m_lit : VELOCITY_3M_THRESHOLD = lit "1.0".
Proof. vm_compute. reflexivity. Qed.

Lemma threshold_over_3m_lit : VELOCITY_OVER_3M_THRESHOLD = lit "1.0".
Proof. vm_compute. reflexivity. Qed.

(** The order of floats is decided by integer comparisons of exponents and
    mantissas; these are split after the constructors have been. *)
Ltac split_order :=
  unfold PyFloat.ltb, PyFloat.leb, SFltb, SFleb, SFcompare;
  change (Pos.compare_cont Eq) with Pos.compare;
  repeat match goal with
    | |- context [Z.compare ?a ?b] =>
        destruct (Z.compare_spec a b); cbv beta iota
    | |- context [Pos.compare ?a ?b] =>
        destruct (Pos.compare_spec a b); cbv beta iota
    end;
  intros; first [ discriminate | reflexivity | exfalso; lia ].

Lemma leb_not_ltb (c d : float) : (c <=? d) = true -> (d <? c) = false.
Proof.
  destruct c as [[] | [] | | [] m1 e1], d as [[] | [] | | [] m2 e2];
    try (intros; first [ discriminate | reflexivity ]); split_order.
Qed.

Lemma leb_trans (a b c : float) :
  (a <=? b) = true -> (b <=? c) = true -> (a <=? c) = true.
Proof.
  destruct a as [[] | [] | | [] m1 e1], b as [[] | [] | | [] m2 e2],
    c as [[] | [] | | [] m3 e3];
    try (intros; first [ discriminate | reflexivity ]); split_order.
Qed.

Lemma literals_ascend :
  (int0 <=? int1) = true /\ (int1 <=? int2) = true /\
  (int2 <=? int3) = true /\ (int3 <=? int4) = true.
Proof. repeat split; vm_compute; reflexivity. Qed.

(** A float at or above a literal is not below that literal nor below a
    smaller one. *)
Lemma at_least_0_not_below (d : float) :
  (int0 <=? d) = true -> (d <? int0) = false.
Proof. apply leb_not_ltb. Qed.

Lemma at_least_1_not_below (d : float) :
  (int1 <=? d) = true -> (d <? int1) = false.
Proof. apply leb_not_ltb. Qed.

Lemma at_least_1_not_below_0 (d : float) :
  (int1 <=? d) = true -> (d <? int0) = false.
Proof.
  intros H. apply leb_not_ltb, (leb_trans int0 int1 d); auto.
Qed.

Lemma at_least_2_at_least_1 (d : float) :
  (int2 <=? d) = true -> (int1 <=? d) = true.
Proof. apply leb_trans, literals_ascend. Qed.

Lemma at_least_2_not_below (d : float) :
  (int2 <=? d) = true -> (d <? int2) = false.
Proof. apply leb_not_ltb. Qed.

Lemma at_least_3_at_least_2 (d : float) :
  (int3 <=? d) = true -> (int2 <=? d) = true.
Proof. apply leb_trans, literals_ascend. Qed.

Lemma at_least_3_not_below (d : float) :
  (int3 <=? d) = true -> (d <? int3) = false.
Proof. apply leb_not_ltb. Qed.

Lemma at_least_4_at_least_3 (d : float) :
  (int4 <=? d) = true -> (int3 <=? d) = true.
Proof. apply leb_trans, literals_ascend. Qed.

Lemma at_least_4_not_below (d : float) :
  (int4 <=? d) = true -> (d <? int4) = false.
Proof. apply leb_not_ltb. Qed.

Lemma nan_unordered (c : float) :
  (S754_nan <? c) = false /\ (c <=? S754_nan) = false.
Proof. split; destruct c; reflexivity. Qed.

Lemma calculate_speed_fraction_branch (d : float) :
  calculate_speed_fraction d = branch_value (speed_branch d).
Proof.
  unfold calculate_speed_fraction, speed_branch.
  repeat match goal with |- context [if ?c then _ else _] => destruct c end;
    reflexivity.
Qed.

Lemma fraction_in_table (d : float) :
  In (calculate_speed_fraction d)
     [VELOCITY_THRESHOLD_0_5M; VELOCITY_THRESHOLD_1M; VELOCITY_2M_THRESHOLD;
      VELOCITY_3M_THRESHOLD].
Proof.
  unfold calculate_speed_fraction.
  repeat match goal with |- context [if ?c then _ else _] => destruct c end;
    simpl; auto.
Qed.

Lemma fraction_in_unit_interval (d : float) :
  in_unit_interval (calculate_speed_fraction d) = true.
Proof.
  destruct (fraction_in_table d) as [H | [H | [H | [H | []]]]];
    rewrite <- H; vm_compute; reflexivity.
Qed.

Lemma band_negative (d : float) :
  (d <? int0) = true ->
  speed_branch d = BranchNegative.
Proof. intros H. unfold speed_branch. rewrite H. reflexivity. Qed.

Lemma band_0_1 (d : float) :
  (int0 <=? d) = true -> (d <? int1) = true ->
  speed_branch d = BranchBelow1.
Proof.
  intros H0 H1. unfold speed_branch.
  rewrite (at_least_0_not_below d H0), H1. reflexivity.
Qed.

Lemma band_1_2 (d : float) :
  (int1 <=? d) = true -> (d <? int2) = true ->
  speed_branch d = Branch1To2.
Proof.
  intros H1 H2. unfold speed_branch.
  rewrite (at_least_1_not_below_0 d H1), (at_least_1_not_below d H1), H1, H2.
  reflexivity.
Qed.

Lemma band_2_3 (d : float) :
  (int2 <=? d) = true -> (d <? int3) = true ->
  speed_branch d = Branch2To3.
Proof.
  intros H2 H3. unfold speed_branch.
  pose proof (at_least_2_at_least_1 d H2) as H1.
  rewrite (at_least_1_not_below_0 d H1), (at_least_1_not_below d H1),
    (at_least_2_not_below d H2), H1, H2, H3.
  reflexivity.
Qed.

Lemma band_3_4 (d : float) :
  (int3 <=? d) = true -> (d <? int4) = true ->
  speed_branch d = Branch3To4.
Proof.
  intros H3 H4. unfold speed_branch.
  pose proof (at_least_3_at_least_2 d H3) as H2.
  pose proof (at_least_2_at_least_1 d H2) as H1.
  rewrite (at_least_1_not_below_0 d H1), (at_least_1_not_below d H1),
    (at_least_2_not_below d H2), (at_least_3_not_below d H3), H1, H2, H3, H4.
  reflexivity.
Qed.

Lemma band_over_4 (d : float) :
  (int4 <=? d) = true ->
  speed_branch d = BranchElse.
Proof.
  intros H4. unfold speed_branch.
  pose proof (at_least_4_at_least_3 d H4) as H3.
  pose proof (at_least_3_at_least_2 d H3) as H2.
  pose proof (at_least_2_at_least_1 d H2) as H1.
  rewrite (at_least_1_not_below_0 d H1), (at_least_1_not_below d H1),
    (at_least_2_not_below d H2), (at_least_3_not_below d H3),
    (at_least_4_not_below d H4), H1, H2, H3.
  reflexivity.
Qed.

Lemma band_nan : speed_branch S754_nan = BranchElse.
Proof. reflexivity. Qed.

End SpeedGovernorFacts.

Section SpeedGovernorClaims.

Local Open Scope pyfloat_scope.

(** C1: for every float [d], [calculate_speed_fraction d] is defined, has
    one value, and that value lies in [[0.0, 1.0]]; it follows the banded
    table with half-open bands ([d < 0] gives 1.0, [0 <= d < 1] gives 0.0,
    [1 <= d < 2] gives 0.3, [2 <= d < 3] gives 0.7, [3 <= d < 4] gives 1.0,
    [d >= 4] gives 1.0), and the boundaries are exact: 1.0 gives 0.3,
    0.999999 gives 0.0 and 4.0 gives 1.0. *)
Theorem C1_speed_fraction_table :
  forall d : float,
    (exists r : float,
        calculate_speed_fraction d = r /\
        forall r' : float, calculate_speed_fraction d = r' -> r' = r)
    /\ in_unit_interval (calculate_speed_fraction d) = true
    /\ ((d <? int0) = true -> calculate_speed_fraction d = lit "1.0")
    /\ ((int0 <=? d) = true -> (d <? int1) = true ->
        calculate_speed_fraction d = lit "0.0")
    /\ ((int1 <=? d) = true -> (d <? int2) = true ->
        calculate_speed_fraction d = lit "0.3")
    /\ ((int2 <=? d) = true -> (d <? int3) = true ->
        calculate_speed_fraction d = lit "0.7")
    /\ ((int3 <=? d) = true -> (d <? int4) = true ->
        calculate_speed_fraction d = lit "1.0")
    /\ ((int4 <=? d) = true -> calculate_speed_fraction d = lit "1.0")
    /\ calculate_speed_fraction (lit "1.0") = lit "0.3"
    /\ calculate_speed_fraction (lit "0.999999") = lit "0.0"
    /\ calculate_speed_fraction (lit "4.0") = lit "1.0".
Proof.
  intros d.
  split. { exists (calculate_speed_fraction d). split; congruence. }
  split. { apply fraction_in_unit_interval. }
  rewrite <- threshold_0_5m_lit, <- threshold_1m_lit, <- threshold_2m_lit,
    <- threshold_over_3m_lit.
  rewrite !calculate_speed_fraction_branch.
  split. { intros H. rewrite band_negative by assumption. reflexivity. }
  split. { intros H0 H1. rewrite band_0_1 by assumption. reflexivity. }
  split. { intros H0 H1. rewrite band_1_2 by assumption. reflexivity. }
  split. { intros H0 H1. rewrite band_2_3 by assumption. reflexivity. }
  split. { intros H0 H1. rewrite band_3_4 by assumption. reflexivity. }
  split. { intros H. rewrite band_over_4 by assumption. reflexivity. }
  split; [| split]; vm_compute; reflexivity.
Qed.

(** NaN is below nothing: it fails every comparison of the chain and
    reaches the final [else], whose value is that of the [d < 0] branch. *)
Lemma nan_reaches_else_branch :
  (S754_nan <? int0) = false
  /\ speed_branch S754_nan = BranchElse
  /\ branch_value BranchElse = branch_value BranchNegative.
Proof. split; [| split]; reflexivity. Qed.

(** C9: no clamping or validation is done beyond the table, the result
    being the value of the branch the comparisons select; for every input
    that is NaN or below zero it equals the result of the [d < 0] branch,
    1.0. *)
Theorem C9_nan_and_negative_inputs (d : float) :
  is_nan d = true \/ (d <? int0) = true ->
  calculate_speed_fraction d = branch_value (speed_branch d)
  /\ calculate_speed_fraction d = branch_value BranchNegative
  /\ calculate_speed_fraction d = lit "1.0".
Proof.
  intros H. split; [apply calculate_speed_fraction_branch |].
  rewrite calculate_speed_fraction_branch.
  destruct H as [H | H].
  - destruct d; try discriminate H. split; vm_compute; reflexivity.
  - rewrite (band_negative d H). split; vm_compute; reflexivity.
Qed.

(** C9 at NaN and at the sentinel -1.0. *)
Lemma C9_nan_and_minus_one :
  calculate_speed_fraction S754_nan = lit "1.0"
  /\ calculate_speed_fraction (SFopp (lit "1.0")) = lit "1.0".
Proof.
  split.
  - apply (C9_nan_and_negative_inputs S754_nan). left. reflexivity.
  - apply (C9_nan_and_negative_inputs (SFopp (lit "1.0"))). right.
    vm_compute. reflexivity.
Defined.

End SpeedGovernorClaims.

(* ================================================================== *)
(** * Facts about the distance queue *)

Section QueueFacts.

Lemma put_all_app (q : Queue.t) (items : list float) :
  Queue.put_all q items = q ++ items.
Proof.
  unfold Queue.put_all. revert q.
  induction items as [| x items IH]; intros q; simpl.
  - now rewrite app_nil_r.
  - rewrite IH. unfold Queue.put. now rewrite <- app_assoc.
Qed.

Lemma last_cons (q : Queue.t) :
  forall x current : float, last (x :: q) current = last q x.
Proof.
  induction q as [| y q IH]; intros x current; [reflexivity |].
  change (last (x :: y :: q) current) with (last (y :: q) current).
  now rewrite !IH.
Qed.

Lemma drain_enough (q : Queue.t) :
  forall (fuel : nat) (current : float),
    (Queue.qsize q < fuel)%nat ->
    drain fuel q current = (last q current, Queue.new).
Proof.
  induction q as [| x q IH]; intros fuel current Hfuel.
  - destruct fuel; [inversion Hfuel | reflexivity].
  - destruct fuel as [| fuel]; [inversion Hfuel |].
    cbn [drain Queue.empty Queue.get_nowait negb].
    rewrite IH by (simpl in Hfuel; lia).
    now rewrite last_cons.
Qed.

Lemma consume_latest_last (q : Queue.t) (current : float) :
  consume_latest q current = (last q current, Queue.new).
Proof. unfold consume_latest. apply drain_enough. lia. Qed.

(** C8, as the code has it: the buffer is an unbounded FIFO. [put] appends
    at the tail and keeps what was there, so the number of samples waiting
    grows by one with every publish; it is a consume that empties the
    queue, keeping only the newest sample. *)
Theorem C8_queue_is_unbounded_fifo :
  forall (q : Queue.t) (items : list float) (x previous : float),
    Queue.put q x = q ++ [x]
    /\ Queue.qsize (Queue.put_all q items)
       = (Queue.qsize q + List.length items)%nat
    /\ Queue.qsize (snd (consume_latest (Queue.put_all q items) previous))
       = 0%nat.
Proof.
  intros q items x previous. split; [| split].
  - reflexivity.
  - rewrite put_all_app. unfold Queue.qsize. apply length_app.
  - rewrite consume_latest_last. reflexivity.
Qed.

(** C8 as stated fails: two publishes with no consume in between leave two
    samples waiting, the older one still first. *)
Lemma C8_two_samples_pending :
  Queue.put (Queue.put Queue.new (lit "0.5")) (lit "2.5")
    = [lit "0.5"; lit "2.5"]
  /\ Queue.qsize (Queue.put (Queue.put Queue.new (lit "0.5")) (lit "2.5"))
     = 2%nat.
Proof. split; reflexivity. Qed.

End QueueFacts.

(* ================================================================== *)
(** * Facts about the controller thread *)

Section ControllerFacts.

Local Open Scope stmt_scope.

Variable robot : Robot.
Variable stop_at : option Z.

(** Runs the statements of the model on a symbolic state. *)
Ltac exec :=
  cbv beta delta [bind ret raise get modify emit sleep call
                  is_connected stop_event_is_set] iota;
  cbn [fst snd now trace distance_queue connected input_data
       current_distance previous_speed_fraction
       set_now set_trace set_distance_queue set_connected set_input_data
       set_current_distance set_previous_speed_fraction].

(** Equal lists of events, up to the bracketing of [++]. *)
Ltac same_events :=
  repeat (rewrite <- ?app_assoc; cbn [app]); reflexivity.

Lemma tries_S (n : nat) : tries (S n) = failed_try ++ tries n.
Proof. reflexivity. Qed.

Lemma count_connect_tries (n : nat) :
  List.length (filter is_connect (tries n)) = n.
Proof. induction n as [| n IH]; [reflexivity |]. rewrite tries_S. simpl. now rewrite IH. Qed.

(** What the connection loop does, from any state and any retry count. *)
Lemma connection_loop_spec (fuel : nat) :
  forall (a retries : nat) (s : State),
  exists (n : nat) (tail : list Event) (r : Outcome unit) (s' : State),
    connection_loop robot stop_at fuel a retries s = (r, s')
    /\ trace s' = trace s ++ tries n ++ tail
    /\ now s' = now s + 2000 * Z.of_nat n
    /\ distance_queue s' = distance_queue s
    /\ input_data s' = input_data s
    /\ current_distance s' = current_distance s
    /\ previous_speed_fraction s' = previous_speed_fraction s
    /\ (forall i, (i < n)%nat ->
          connect_outcome robot a (retries + i) <> ConnectOk)
    /\ ((0 < n)%nat -> (retries + n <= MAX_RETRIES)%nat)
    /\ match r with
       | Ret _ =>
           (tail = [Connect] /\ connected s' = true
            /\ (retries + n < MAX_RETRIES)%nat
            /\ connect_outcome robot a (retries + n) = ConnectOk)
           \/ (tail = [] /\ connected s' = connected s
               /\ (connected s = true
                   \/ is_set stop_at (now s') = true))
       | Raise e =>
           e = ConnectionRefusedError /\ tail = []
           /\ (MAX_RETRIES <= retries + n)%nat
           /\ connected s' = false
       | OutOfFuel => tail = [] /\ n = fuel
       end.
Proof.
  induction fuel as [| fuel IH]; intros a retries s.
  - exists 0%nat, [], OutOfFuel, s. cbn [connection_loop tries repeat List.concat].
    rewrite !app_nil_r, Z.add_0_r.
    repeat (split; [reflexivity |]). split; [intros i Hi; lia |].
    split; [lia | split; reflexivity].
  - cbn [connection_loop]. exec.
    destruct (connected s) eqn:Hc; destruct (is_set stop_at (now s)) eqn:Hs;
      cbn [negb andb];
      try (exists 0%nat, [], (Ret tt), s;
           cbn [tries repeat List.concat]; rewrite !app_nil_r, Z.add_0_r;
           repeat (split; [reflexivity |]); split; [intros i Hi; lia |];
           split; [lia |]; right; rewrite ?Hc; auto).
    destruct (Nat.leb_spec MAX_RETRIES retries) as [Hm | Hm].
    + exists 0%nat, [], (Raise ConnectionRefusedError), s.
      cbn [tries repeat List.concat]. rewrite !app_nil_r, Z.add_0_r.
      repeat (split; [reflexivity |]). split; [intros i Hi; lia |].
      split; [lia |]. repeat split; auto; lia.
    + destruct (connect_outcome robot a retries) eqn:Ho;
        [ eexists 0%nat, [Connect], (Ret tt), _; split; [reflexivity |]; exec;
          cbn [tries repeat List.concat app]; rewrite Z.add_0_r;
          repeat (split; [reflexivity |]); split; [intros i Hi; lia |];
          split; [lia |]; left; rewrite Nat.add_0_r; auto
        | | ].
      (* the try did not connect: sleep, then round again one retry later *)
      all: match goal with |- context [connection_loop _ _ _ _ _ ?s1] =>
             destruct (IH a (S retries) s1)
               as (n & tail & r & s' & Heq & Ht & Hn & Hq & Hi & Hd & Hp & Hf & Hb & Hr)
           end.
      all: exists (S n), tail, r, s'; split; [exact Heq |].
      all: revert Ht Hn Hq Hi Hd Hp Hr; exec; intros Ht Hn Hq Hi Hd Hp Hr.
      all: split; [rewrite Ht, tries_S; unfold failed_try; now rewrite <- !app_assoc |].
      all: split; [rewrite Hn; lia |].
      all: repeat (split; [assumption |]).
      all: split;
             [ intros [| i] Hlt; [rewrite Nat.add_0_r, Ho; discriminate |];
               replace (retries + S i)%nat with (S retries + i)%nat by lia;
               apply Hf; lia |].
      all: split; [intros _; destruct n; [lia |]; specialize (Hb ltac:(lia)); lia |].
      all: destruct r as [[] | e |];
             [ destruct Hr as [(H1 & H2 & H3 & H4) | (H1 & H2 & H3)];
               [ left; replace (retries + S n)%nat with (S retries + n)%nat by lia;
                 repeat split; auto; lia
               | right; split; [exact H1 |]; split; [congruence |];
                 destruct H3 as [H3 | H3]; [congruence | auto] ]
             | destruct Hr as (H1 & H2 & H3 & H4); repeat split; auto; lia
             | destruct Hr as (H1 & H2); split; [auto | lia] ].
Qed.

Lemma handshake_spec (a : nat) (s : State) :
  exists (r : Outcome unit) (s' : State),
    handshake robot a s = (r, s')
    /\ trace s' = trace s ++ handshake_events robot a
    /\ now s' = now s
    /\ connected s' = connected s
    /\ same_data s s'
    /\ (handshake_ok robot a = true ->
        r = Ret tt
        /\ exists d, input_setup robot a = Returned (Some d)
                     /\ input_data s' = Some (init_fraction (set_mask d)))
    /\ (handshake_ok robot a = false -> exists e, r = Raise e).
Proof.
  unfold handshake, handshake_events, handshake_ok, input_ok, output_ok,
    start_ok, same_data.
  exec.
  destruct (input_setup robot a) as [[d |] | e1]; exec;
    [ destruct (output_setup robot a) as [[|] | e2]; exec;
      [ destruct (start_outcome robot a) as [[|] | e3]; exec | | ] | | ];
    eexists _, _; (split; [reflexivity |]); exec;
    rewrite <- ?app_assoc; cbn [app andb];
    repeat (split; [reflexivity |]);
    (split; [repeat split |]);
    (split; [ intros H; try discriminate H; eauto
            | intros H; try discriminate H; eauto ]).
Qed.

Lemma teardown_spec (a : nat) (s : State) :
  exists (evs : list Event) (s' : State),
    teardown robot a s = (Ret tt, s')
    /\ trace s' = trace s ++ evs ++ [Sleep 30000]
    /\ now s' = now s + 30000
    /\ same_data s s'
    /\ input_data s' = input_data s
    /\ (evs = [] \/ evs = [SendPause] \/ evs = [SendPause; Disconnect]).
Proof.
  unfold teardown, same_data. exec.
  destruct (connected s && link_at_finally robot a); exec;
    [ destruct (pause_outcome robot a); exec;
      [ exists [SendPause; Disconnect] | exists [SendPause] ]
    | exists [] ];
    eexists; (split; [reflexivity |]); exec;
    rewrite <- ?app_assoc; cbn [app];
    repeat (split; [reflexivity |]);
    (split; [split; [| split]; reflexivity |]); (split; [reflexivity |]); auto.
Qed.

Lemma is_set_mono (t t' : Z) :
  t <= t' -> is_set stop_at t = true -> is_set stop_at t' = true.
Proof.
  unfold is_set. destruct stop_at as [t0 |]; [| discriminate].
  rewrite !Z.leb_le. lia.
Qed.

(** The [try] block up to the handshake: the connection phase always ends,
    with the link down (and [ConnectionRefusedError]), or with the link up
    and the recipe loaded or not. *)
Lemma attempt_body_cases (cycle_fuel a : nat) (s : State) :
  exists (n : nat) (tail : list Event) (s1 : State),
    trace s1 = trace s ++ NewRTDE :: tries n ++ tail
    /\ now s1 = now s + 2000 * Z.of_nat n
    /\ same_data s s1
    /\ input_data s1 = input_data s
    /\ (forall i, (i < n)%nat -> connect_outcome robot a i <> ConnectOk)
    /\ (n <= MAX_RETRIES)%nat
    /\ ((tail = []
         /\ connected s1 = false
         /\ (n = MAX_RETRIES \/ is_set stop_at (now s1) = true)
         /\ attempt_body robot stop_at cycle_fuel a s
            = (Raise ConnectionRefusedError, s1))
        \/ (tail = [Connect]
            /\ connected s1 = true
            /\ (n < MAX_RETRIES)%nat
            /\ connect_outcome robot a n = ConnectOk
            /\ ((exists e, load_recipe robot a = Raised e
                   /\ attempt_body robot stop_at cycle_fuel a s
                      = (Raise e, set_trace (trace s1 ++ [LoadRecipe]) s1))
                \/ (attempt_body robot stop_at cycle_fuel a s
                    = (handshake robot a ;; cycle_loop robot stop_at cycle_fuel a 0)
                        (set_trace (trace s1 ++ [LoadRecipe]) s1))))).
Proof.
  unfold attempt_body. exec.
  match goal with |- context [connection_loop _ _ _ _ _ ?s0] =>
    destruct (connection_loop_spec (S MAX_RETRIES) a 0 s0)
      as (n & tail & r & s1 & Heq & Ht & Hn & Hq & Hi & Hd & Hp & Hf & Hb & Hr)
  end.
  rewrite Heq. revert Ht Hn Hq Hi Hd Hp Hr. exec. intros Ht Hn Hq Hi Hd Hp Hr.
  cbn [Nat.add] in Hf, Hb, Hr.
  exists n, tail, s1.
  split. { rewrite Ht, <- app_assoc. reflexivity. }
  split; [exact Hn |]. split; [repeat split; assumption |].
  split; [exact Hi |]. split; [exact Hf |].
  assert (Hle : (n <= MAX_RETRIES)%nat).
  { destruct n; [lia |]. specialize (Hb ltac:(lia)). lia. }
  split; [exact Hle |].
  destruct r as [[] | e |].
  - destruct Hr as [(H1 & H2 & H3 & H4) | (H1 & H2 & [H3 | H3])];
      try discriminate.
    + right. rewrite H2. cbn [negb].
      repeat (split; [first [assumption | reflexivity] |]).
      destruct (load_recipe robot a) as [[] | e]; exec; [right | left; eauto].
      reflexivity.
    + left. rewrite H2. cbn [negb]. auto 6.
  - destruct Hr as (-> & H1 & H2 & H3). left. simpl in H2.
    repeat split; auto. left. lia.
  - destruct Hr as (H1 & H2). lia.
Qed.

Lemma quiet_app (xs ys : list Event) : quiet xs -> quiet ys -> quiet (xs ++ ys).
Proof. unfold quiet. rewrite forallb_app. now intros -> ->. Qed.

Lemma quiet_tries (n : nat) : quiet (tries n).
Proof.
  induction n as [| n IH]; [reflexivity |].
  rewrite tries_S. now apply quiet_app.
Qed.

(** The handlers let nothing out and always end on the 30 s sleep of the
    [finally] block. *)
Lemma except_finally_spec (a : nat) (r1 : Outcome unit) (s1 : State) :
  r1 <> OutOfFuel ->
  exists (evs : list Event) (s' : State),
    except_finally robot a (r1, s1) = (Ret tt, s')
    /\ trace s' = trace s1 ++ evs ++ [Sleep 30000]
    /\ quiet evs
    /\ now s' = now s1 + backoff r1 + 30000
    /\ same_data s1 s'
    /\ input_data s' = input_data s1.
Proof.
  intros Hfuel. unfold except_finally.
  destruct r1 as [[] | [] |]; [| | | congruence]; exec;
    match goal with |- context [teardown robot a ?s2] =>
      destruct (teardown_spec a s2) as (evs & s' & Heq & Ht & Hn & Hq & Hi & Hevs);
      rewrite Heq; revert Ht Hn Hq Hi; unfold same_data; exec;
      intros Ht Hn Hq Hi
    end.
  - exists evs, s'. split; [reflexivity |]. split; [exact Ht |].
    split; [destruct Hevs as [-> | [-> | ->]]; reflexivity |].
    split; [cbn [backoff]; lia | auto].
  - exists (Sleep 10000 :: evs), s'. split; [reflexivity |].
    split; [rewrite Ht, <- app_assoc; reflexivity |].
    split; [destruct Hevs as [-> | [-> | ->]]; reflexivity |].
    split; [cbn [backoff]; lia | auto].
  - exists (Sleep 5000 :: evs), s'. split; [reflexivity |].
    split; [rewrite Ht, <- app_assoc; reflexivity |].
    split; [destruct Hevs as [-> | [-> | ->]]; reflexivity |].
    split; [cbn [backoff]; lia | auto].
Qed.

(** One turn of the outer loop never lets an exception out, and when it
    returns it has just slept the 30 s of the [finally] block. *)
Lemma attempt_ends (cycle_fuel a : nat) (s : State) :
  exists (r : Outcome unit) (s' : State),
    attempt robot stop_at cycle_fuel a s = (r, s')
    /\ (r = Ret tt \/ r = OutOfFuel)
    /\ (r = Ret tt -> exists evs, trace s' = evs ++ [Sleep 30000]).
Proof.
  unfold attempt.
  destruct (attempt_body robot stop_at cycle_fuel a s) as [r1 s1].
  destruct r1 as [[] | e |].
  - destruct (except_finally_spec a (Ret tt) s1) as (evs & s' & Heq & Ht & _);
      [discriminate |].
    rewrite Heq. exists (Ret tt), s'. split; [reflexivity |].
    split; [now left |]. intros _. rewrite Ht, app_assoc. eauto.
  - destruct (except_finally_spec a (Raise e) s1) as (evs & s' & Heq & Ht & _);
      [discriminate |].
    rewrite Heq. exists (Ret tt), s'. split; [reflexivity |].
    split; [now left |]. intros _. rewrite Ht, app_assoc. eauto.
  - exists OutOfFuel, s1. split; [reflexivity |].
    split; [now right | discriminate].
Qed.

(** A connection phase that runs out of retries. *)
Lemma attempt_exhausted (cycle_fuel a : nat) (s : State) :
  (forall i, (i < MAX_RETRIES)%nat -> connect_outcome robot a i <> ConnectOk) ->
  is_set stop_at (now s + 2000 * (Z.of_nat MAX_RETRIES - 1)) = false ->
  exists s' : State,
    attempt robot stop_at cycle_fuel a s = (Ret tt, s')
    /\ trace s'
       = trace s ++ NewRTDE :: tries MAX_RETRIES ++ [Sleep 10000; Sleep 30000]
    /\ now s' = now s + 2000 * Z.of_nat MAX_RETRIES + 10000 + 30000
    /\ same_data s s'
    /\ input_data s' = input_data s
    /\ connected s' = false.
Proof.
  intros Hdead Hstop.
  destruct (attempt_body_cases cycle_fuel a s)
    as (n & tail & s1 & Ht & Hn & Hq & Hi & Hf & Hle
        & [(-> & Hc & Hend & Hbody) | (_ & _ & Hlt & Hok & _)]).
  2: { exfalso. exact (Hdead n Hlt Hok). }
  assert (n = MAX_RETRIES) as ->.
  { destruct Hend as [Hend | Hend]; [exact Hend |].
    destruct (Nat.eq_dec n MAX_RETRIES) as [E | E]; [exact E | exfalso].
    rewrite (is_set_mono (now s1) (now s + 2000 * (Z.of_nat MAX_RETRIES - 1)))
      in Hstop; [discriminate | | exact Hend].
    rewrite Hn. nia. }
  unfold attempt. rewrite Hbody. unfold except_finally, teardown. exec.
  rewrite Hc.
  eexists. split; [reflexivity |]. exec.
  destruct Hq as (Hq1 & Hq2 & Hq3).
  rewrite Ht, Hn, app_nil_r, <- !app_assoc. cbn [app].
  repeat split; auto.
Qed.

(** ** The cyclic exchange *)

Lemma on_state_packet_spec (a k : nat) (s : State) :
  exists (r : Outcome unit) (s' : State),
    on_state_packet robot a k s = (r, s')
    /\ current_distance s'
       = fst (consume_latest (distance_queue s) (current_distance s))
    /\ distance_queue s' = Queue.new
    /\ now s' = now s
    /\ connected s' = connected s
    /\ (gate s = false ->
        r = Ret tt /\ trace s' = trace s
        /\ previous_speed_fraction s' = previous_speed_fraction s
        /\ input_data s' = input_data s)
    /\ (gate s = true ->
        exists obj,
          input_data s = Some obj
          /\ hasattr (speed_slider_fraction obj) = true
          /\ trace s' = trace s ++ [Send (set_fraction (cycle_fraction s) obj)]
          /\ input_data s' = Some (set_fraction (cycle_fraction s) obj)
          /\ match send_outcome robot a k with
             | Returned _ =>
                 r = Ret tt /\ previous_speed_fraction s' = cycle_fraction s
             | Raised e =>
                 r = Raise e
                 /\ previous_speed_fraction s' = previous_speed_fraction s
             end).
Proof.
  unfold on_state_packet, gate, cycle_fraction. exec.
  rewrite consume_latest_last. exec.
  destruct (input_data s) as [obj |] eqn:Hdata; exec.
  - destruct (hasattr (speed_slider_fraction obj)) eqn:Hattr; cbn [andb].
    + destruct (calculate_speed_fraction (last (distance_queue s) (current_distance s))
                !=? previous_speed_fraction s)%py eqn:Hneq; exec.
      * destruct (send_outcome robot a k) as [[] | e]; exec;
          eexists _, _; (split; [reflexivity |]); exec;
          repeat (split; [reflexivity |]);
          (split; [discriminate |]); intros _; exists obj; auto 8.
      * eexists _, _. split; [reflexivity |]. exec.
        repeat (split; [reflexivity |]). split; [auto | discriminate].
    + eexists _, _. split; [reflexivity |]. exec.
      repeat (split; [reflexivity |]). split; [auto | discriminate].
  - eexists _, _. split; [reflexivity |]. exec.
    repeat (split; [reflexivity |]). split; [auto | discriminate].
Qed.

Lemma on_state_packet_grows (a k : nat) (s : State) :
  exists evs, trace (snd (on_state_packet robot a k s)) = trace s ++ evs.
Proof.
  destruct (on_state_packet_spec a k s)
    as (r & s' & Heq & _ & _ & _ & _ & Hclosed & Hopen).
  rewrite Heq. cbn [snd]. destruct (gate s).
  - destruct (Hopen eq_refl) as (obj & _ & _ & Ht & _). eauto.
  - destruct (Hclosed eq_refl) as (_ & Ht & _). exists []. now rewrite app_nil_r.
Qed.

Lemma cycle_body_grows (a k : nat) (s : State) :
  exists evs, trace (snd (cycle_body robot a k s)) = trace s ++ evs.
Proof.
  unfold cycle_body. exec.
  destruct (receive_outcome robot a k) as [| | e]; exec.
  - match goal with |- context [on_state_packet robot a k ?s0] =>
      destruct (on_state_packet_grows a k s0) as (evs & Ht);
      destruct (on_state_packet robot a k s0) as [[[] | e |] s1]
    end; revert Ht; exec; intros ->; rewrite <- ?app_assoc; eauto.
  - rewrite <- app_assoc. eauto.
  - eauto.
Qed.

Lemma cycle_loop_grows (fuel : nat) :
  forall (a k : nat) (s : State),
  exists evs, trace (snd (cycle_loop robot stop_at fuel a k s)) = trace s ++ evs.
Proof.
  induction fuel as [| fuel IH]; intros a k s.
  - exists []. cbn. now rewrite app_nil_r.
  - cbn [cycle_loop]. unfold deliver. exec.
    destruct (is_set stop_at (now s)); exec;
      [exists []; now rewrite app_nil_r |].
    destruct (connected s && link_up robot a k); exec;
      [| exists []; now rewrite app_nil_r].
    match goal with |- context [cycle_body robot a k ?s0] =>
      destruct (cycle_body_grows a k s0) as (evs & Ht);
      destruct (cycle_body robot a k s0) as [[[] | e |] s1]
    end; revert Ht; exec; intros Ht; try (rewrite Ht; eauto).
    destruct (IH a (S k) s1) as (evs' & Ht'). rewrite Ht', Ht, <- app_assoc.
    eauto.
Qed.


(** ** The handshake within a turn of the outer loop *)

Lemma quiet_handshake_events (a : nat) : quiet (handshake_events robot a).
Proof.
  unfold handshake_events.
  destruct (input_ok robot a), (output_ok robot a); reflexivity.
Qed.

Lemma handshake_events_ok (a : nat) :
  handshake_ok robot a = true ->
  handshake_events robot a
  = [SendInputSetup; SendOutputSetup RTDE_FREQUENCY; SendStart].
Proof.
  unfold handshake_ok, handshake_events.
  destruct (input_ok robot a), (output_ok robot a); try discriminate.
  reflexivity.
Qed.

(** A turn of the outer loop either ends by the handlers without any
    cyclic exchange, or gets through the three steps of the handshake in
    order and enters the cyclic loop. *)
Lemma attempt_cases (cycle_fuel a : nat) (s : State) :
  (exists (evs : list Event) (s' : State),
      attempt robot stop_at cycle_fuel a s = (Ret tt, s')
      /\ trace s' = trace s ++ evs ++ [Sleep 30000]
      /\ quiet evs)
  \/ (handshake_ok robot a = true
      /\ exists (n : nat) (d : DataObject) (s3 : State),
           (n < MAX_RETRIES)%nat
           /\ input_setup robot a = Returned (Some d)
           /\ trace s3
              = trace s ++ (NewRTDE :: tries n ++ [Connect; LoadRecipe])
                  ++ [SendInputSetup; SendOutputSetup RTDE_FREQUENCY; SendStart]
           /\ now s3 = now s + 2000 * Z.of_nat n
           /\ same_data s s3
           /\ connected s3 = true
           /\ input_data s3 = Some (init_fraction (set_mask d))
           /\ attempt robot stop_at cycle_fuel a s
              = except_finally robot a
                  (cycle_loop robot stop_at cycle_fuel a 0 s3)).
Proof.
  unfold attempt.
  destruct (attempt_body_cases cycle_fuel a s)
    as (n & tail & s1 & Ht & Hn & Hq & _ & _ & _
        & [(-> & _ & _ & Hbody)
          | (-> & Hc & Hlt & _ & [(e & _ & Hbody) | Hbody])]);
    rewrite Hbody.
  - left.
    destruct (except_finally_spec a (Raise ConnectionRefusedError) s1)
      as (evs & s' & Heq & Ht' & Hqt & _); [discriminate |].
    exists ((NewRTDE :: tries n) ++ evs), s'. split; [exact Heq |].
    split. { rewrite Ht', Ht, app_nil_r, <- !app_assoc. reflexivity. }
    apply quiet_app; [apply (quiet_app [NewRTDE]); [reflexivity | apply quiet_tries] | exact Hqt].
  - left.
    match goal with |- context [except_finally robot a (_, ?s2)] =>
      destruct (except_finally_spec a (Raise e) s2)
        as (evs & s' & Heq & Ht' & Hqt & _); [discriminate |]
    end.
    exists ((NewRTDE :: tries n ++ [Connect]) ++ [LoadRecipe] ++ evs), s'.
    split; [exact Heq |]. revert Ht'. exec. intros Ht'.
    split. { rewrite Ht', Ht, <- !app_assoc. reflexivity. }
    apply quiet_app; [apply (quiet_app [NewRTDE]); [reflexivity |];
                      apply quiet_app; [apply quiet_tries | reflexivity] |].
    apply (quiet_app [LoadRecipe]); [reflexivity | exact Hqt].
  - unfold bind.
    match goal with |- context [handshake robot a ?s2] =>
      destruct (handshake_spec a s2)
        as (r & s3 & Heq & Ht3 & Hn3 & Hc3 & Hq3 & Hgood & Hbad);
      rewrite Heq
    end.
    revert Ht3 Hn3 Hc3 Hq3. unfold same_data. exec. intros Ht3 Hn3 Hc3 Hq3.
    destruct (handshake_ok robot a) eqn:Hok.
    + right. split; [reflexivity |].
      destruct (Hgood eq_refl) as (-> & d & Hd & Hi3).
      exists n, d, s3. rewrite (handshake_events_ok a Hok) in Ht3.
      split; [exact Hlt |]. split; [exact Hd |].
      split. { rewrite Ht3, Ht. same_events. }
      split; [congruence |].
      split. { destruct Hq as (? & ? & ?), Hq3 as (? & ? & ?).
               repeat split; congruence. }
      split; [congruence |]. split; [exact Hi3 | reflexivity].
    + left. destruct (Hbad eq_refl) as (e & ->).
      destruct (except_finally_spec a (Raise e) s3)
        as (evs & s' & Heq' & Ht' & Hqt & _); [discriminate |].
      exists ((NewRTDE :: tries n ++ [Connect]) ++ [LoadRecipe]
              ++ handshake_events robot a ++ evs), s'.
      split; [exact Heq' |].
      split. { rewrite Ht', Ht3, Ht, <- !app_assoc. reflexivity. }
      apply quiet_app; [apply (quiet_app [NewRTDE]); [reflexivity |];
                        apply quiet_app; [apply quiet_tries | reflexivity] |].
      apply (quiet_app [LoadRecipe]); [reflexivity |].
      apply quiet_app; [apply quiet_handshake_events | exact Hqt].
Qed.

(** A turn whose handshake cannot succeed never reaches the cyclic
    exchange: it ends by the handlers, whatever the fuel. *)
Lemma attempt_handshake_failed (cycle_fuel a : nat) (s : State) :
  handshake_ok robot a = false ->
  exists (evs : list Event) (s' : State),
    attempt robot stop_at cycle_fuel a s = (Ret tt, s')
    /\ trace s' = trace s ++ evs ++ [Sleep 30000]
    /\ quiet evs.
Proof.
  intros Hfail.
  destruct (attempt_cases cycle_fuel a s) as [H | (Hok & _)];
    [exact H | congruence].
Qed.

(** Whatever a turn does, an event of the cyclic exchange comes only after
    the three steps of the handshake, done in order. *)
Lemma attempt_exchange_after_handshake (cycle_fuel a : nat) (s : State) :
  exists evs : list Event,
    trace (snd (attempt robot stop_at cycle_fuel a s)) = trace s ++ evs
    /\ (quiet evs
        \/ exists (n : nat) (rest : list Event),
             evs = (NewRTDE :: tries n ++ [Connect; LoadRecipe])
                     ++ [SendInputSetup; SendOutputSetup RTDE_FREQUENCY;
                         SendStart]
                     ++ rest).
Proof.
  destruct (attempt_cases cycle_fuel a s)
    as [(evs & s' & Heq & Ht & Hq)
       | (_ & n & d & s3 & _ & _ & Ht3 & _ & _ & _ & _ & Heq)];
    rewrite Heq.
  - exists (evs ++ [Sleep 30000]). split; [exact Ht |].
    left. apply quiet_app; [exact Hq | reflexivity].
  - destruct (cycle_loop_grows cycle_fuel a 0 s3) as (cyc & Hcyc).
    destruct (cycle_loop robot stop_at cycle_fuel a 0 s3) as [r4 s4].
    cbn [snd] in Hcyc.
    assert (Hfin : exists fin,
               trace (snd (except_finally robot a (r4, s4))) = trace s4 ++ fin).
    { destruct r4 as [[] | e |].
      - destruct (except_finally_spec a (Ret tt) s4)
          as (evs & s' & -> & Ht' & _); [discriminate | eauto].
      - destruct (except_finally_spec a (Raise e) s4)
          as (evs & s' & -> & Ht' & _); [discriminate | eauto].
      - exists []. cbn. now rewrite app_nil_r. }
    destruct Hfin as (fin & Hfin).
    exists ((NewRTDE :: tries n ++ [Connect; LoadRecipe])
            ++ [SendInputSetup; SendOutputSetup RTDE_FREQUENCY; SendStart]
            ++ cyc ++ fin).
    split; [| right; eauto].
    rewrite Hfin, Hcyc, Ht3. same_events.
Qed.

(** ** A turn whose connection is made *)

Lemma no_setup_app (xs ys : list Event) :
  no_setup xs -> no_setup ys -> no_setup (xs ++ ys).
Proof. unfold no_setup. rewrite forallb_app. now intros -> ->. Qed.

Lemma cycle_body_no_setup (a k : nat) (s : State) :
  exists evs,
    trace (snd (cycle_body robot a k s)) = trace s ++ evs /\ no_setup evs.
Proof.
  unfold cycle_body. exec.
  destruct (receive_outcome robot a k) as [| | e]; exec.
  - match goal with |- context [on_state_packet robot a k ?s0] =>
      destruct (on_state_packet_spec a k s0)
        as (r & s1 & Heq & _ & _ & _ & _ & Hclosed & Hopen);
      rewrite Heq; destruct (gate s0)
    end.
    + destruct (Hopen eq_refl) as (obj & _ & _ & Ht & _). revert Ht. exec.
      intros Ht.
      destruct r as [[] | e |]; exec; rewrite Ht, <- ?app_assoc;
        eexists; (split; [reflexivity |]); reflexivity.
    + destruct (Hclosed eq_refl) as (-> & Ht & _). revert Ht. exec.
      intros Ht. rewrite Ht, <- ?app_assoc.
      eexists; (split; [reflexivity |]); reflexivity.
  - rewrite <- app_assoc. eexists; (split; [reflexivity |]); reflexivity.
  - eexists; (split; [reflexivity |]); reflexivity.
Qed.

(** The cyclic loop makes no call of the handshake. *)
Lemma cycle_loop_no_setup (fuel : nat) :
  forall (a k : nat) (s : State),
  exists evs,
    trace (snd (cycle_loop robot stop_at fuel a k s)) = trace s ++ evs
    /\ no_setup evs.
Proof.
  induction fuel as [| fuel IH]; intros a k s.
  - exists []. cbn. now rewrite app_nil_r.
  - cbn [cycle_loop]. unfold deliver. exec.
    destruct (is_set stop_at (now s)); exec;
      [exists []; now rewrite app_nil_r |].
    destruct (connected s && link_up robot a k); exec;
      [| exists []; now rewrite app_nil_r].
    match goal with |- context [cycle_body robot a k ?s0] =>
      destruct (cycle_body_no_setup a k s0) as (evs & Ht & Hevs);
      destruct (cycle_body robot a k s0) as [[[] | e |] s1]
    end; revert Ht; exec; intros Ht; try (rewrite Ht; eauto).
    destruct (IH a (S k) s1) as (evs' & Ht' & Hevs').
    exists (evs ++ evs'). rewrite Ht', Ht, <- app_assoc.
    split; [reflexivity | now apply no_setup_app].
Qed.

(** Neither do the handlers and [finally]. *)
Lemma except_finally_no_setup (a : nat) (r1 : Outcome unit) (s1 : State) :
  exists evs,
    trace (snd (except_finally robot a (r1, s1))) = trace s1 ++ evs
    /\ no_setup evs
    /\ quiet evs.
Proof.
  assert (Hfin : forall s2, exists evs,
             trace (snd (teardown robot a s2)) = trace s2 ++ evs
             /\ no_setup evs /\ quiet evs).
  { intros s2.
    destruct (teardown_spec a s2) as (evs & s' & -> & Ht & _ & _ & _ & Hevs).
    exists (evs ++ [Sleep 30000]). split; [exact Ht |].
    destruct Hevs as [-> | [-> | ->]]; split; reflexivity. }
  unfold except_finally. destruct r1 as [[] | [] |].
  - destruct (Hfin s1) as (evs & Ht & Hn & Hq). exists evs. auto.
  - exec.
    match goal with |- context [teardown robot a ?s2] =>
      destruct (Hfin s2) as (evs & Ht & Hn & Hq)
    end.
    revert Ht. exec. intros Ht. exists (Sleep 10000 :: evs).
    rewrite Ht, <- app_assoc. split; [reflexivity |].
    split; [exact Hn | exact Hq].
  - exec.
    match goal with |- context [teardown robot a ?s2] =>
      destruct (Hfin s2) as (evs & Ht & Hn & Hq)
    end.
    revert Ht. exec. intros Ht. exists (Sleep 5000 :: evs).
    rewrite Ht, <- app_assoc. split; [reflexivity |].
    split; [exact Hn | exact Hq].
  - exists []. cbn. rewrite app_nil_r. repeat split.
Qed.

(** A turn whose [connect] succeeds at try [n], before [stop_event] is
    set, and whose recipe is read: it has made [n] failed tries, the
    successful one, and the calls of the handshake up to the first that
    fails; what follows is the cyclic loop when the three steps
    succeeded, the handlers otherwise, and holds no call of the handshake
    any more. *)
Lemma attempt_connected (cycle_fuel a n : nat) (s : State) :
  (n < MAX_RETRIES)%nat ->
  (forall i, (i < n)%nat -> connect_outcome robot a i <> ConnectOk) ->
  connect_outcome robot a n = ConnectOk ->
  is_set stop_at (now s + 2000 * Z.of_nat n) = false ->
  load_recipe robot a = Returned tt ->
  exists (s3 : State) (rest : list Event),
    trace s3
    = trace s ++ (NewRTDE :: tries n ++ [Connect; LoadRecipe])
        ++ handshake_events robot a
    /\ now s3 = now s + 2000 * Z.of_nat n
    /\ same_data s s3
    /\ connected s3 = true
    /\ trace (snd (attempt robot stop_at cycle_fuel a s)) = trace s3 ++ rest
    /\ no_setup rest
    /\ (handshake_ok robot a = true ->
        (exists d, input_setup robot a = Returned (Some d)
                   /\ input_data s3 = Some (init_fraction (set_mask d)))
        /\ attempt robot stop_at cycle_fuel a s
           = except_finally robot a
               (cycle_loop robot stop_at cycle_fuel a 0 s3))
    /\ (handshake_ok robot a = false ->
        quiet rest
        /\ exists e, attempt robot stop_at cycle_fuel a s
                     = except_finally robot a (Raise e, s3)).
Proof.
  intros Hlt Hfail Hconn Hstop Hload. unfold attempt.
  destruct (attempt_body_cases cycle_fuel a s)
    as (n' & tail & s1 & Ht & Hn & Hq & _ & Hf & Hle & Hcases).
  assert (Hge : (n' <= n)%nat).
  { destruct (Nat.le_gt_cases n' n) as [H | H]; [exact H |].
    exfalso. exact (Hf n H Hconn). }
  destruct Hcases as [(_ & _ & Hend & _) | (-> & Hc & _ & Hok & Hbody)].
  { exfalso. destruct Hend as [-> | Hset]; [lia |].
    rewrite (is_set_mono (now s1) (now s + 2000 * Z.of_nat n)) in Hstop;
      [discriminate | rewrite Hn; lia | exact Hset]. }
  assert (n' = n) as ->.
  { destruct (Nat.eq_dec n' n) as [E | E]; [exact E | exfalso].
    apply (Hfail n'); [lia | exact Hok]. }
  destruct Hbody as [(e & He & _) | Hbody]; [congruence |].
  rewrite Hbody. unfold bind.
  match goal with |- context [handshake robot a ?s2] =>
    destruct (handshake_spec a s2)
      as (r & s3 & Heq & Ht3 & Hn3 & Hc3 & Hq3 & Hgood & Hbad);
    rewrite Heq
  end.
  revert Ht3 Hn3 Hc3 Hq3. unfold same_data. exec. intros Ht3 Hn3 Hc3 Hq3.
  assert (Hdata : same_data s s3).
  { destruct Hq as (? & ? & ?), Hq3 as (? & ? & ?).
    repeat split; congruence. }
  destruct (handshake_ok robot a) eqn:Hshake.
  - destruct (Hgood eq_refl) as (-> & d & Hd & Hi3).
    destruct (cycle_loop_no_setup cycle_fuel a 0 s3) as (cyc & Hcyc & Hnc).
    destruct (cycle_loop robot stop_at cycle_fuel a 0 s3) as [r4 s4] eqn:Hloop.
    cbn [snd] in Hcyc.
    destruct (except_finally_no_setup a r4 s4) as (fin & Hfin & Hnf & _).
    exists s3, (cyc ++ fin).
    split. { rewrite Ht3, Ht. same_events. }
    split; [congruence |]. split; [exact Hdata |]. split; [congruence |].
    split. { rewrite Hfin, Hcyc, <- app_assoc. reflexivity. }
    split; [now apply no_setup_app |].
    split; [| discriminate]. intros _. split; [eauto |].
    rewrite ?Hloop. reflexivity.
  - destruct (Hbad eq_refl) as (e & ->).
    destruct (except_finally_no_setup a (Raise e) s3) as (fin & Hfin & Hnf & Hqf).
    exists s3, fin.
    split. { rewrite Ht3, Ht. same_events. }
    split; [congruence |]. split; [exact Hdata |]. split; [congruence |].
    split; [exact Hfin |]. split; [exact Hnf |].
    split; [discriminate |]. intros _.
    split; [exact Hqf | eauto].
Qed.

(** ** The outer loop *)

(** The thread returns only from the head of the outer loop, with
    [stop_event] set there; no exception ends it; and unless it returns
    before its first turn, the last thing it did was the 30 s sleep. *)
Lemma outer_loop_spec (fuel : nat) :
  forall (cycle_fuel a : nat) (s : State),
    match outer_loop robot stop_at fuel cycle_fuel a s with
    | ThreadEnded a' s' =>
        is_set stop_at (now s') = true
        /\ ((a' = a /\ s' = s)
            \/ ((a < a')%nat /\ exists evs, trace s' = evs ++ [Sleep 30000]))
    | StillRunning _ _ => True
    | Crashed _ _ => False
    end.
Proof.
  induction fuel as [| fuel IH]; intros cycle_fuel a s; cbn [outer_loop];
    destruct (is_set stop_at (now s)) eqn:Hstop; auto.
  destruct (attempt_ends cycle_fuel a s) as (r & s' & Heq & [-> | ->] & Hlast);
    rewrite Heq; [| exact I].
  specialize (IH cycle_fuel (S a) s').
  destruct (outer_loop robot stop_at fuel cycle_fuel (S a) s')
    as [a' s'' | |]; auto.
  destruct IH as (Hset & [(-> & ->) | (Hlt & Hevs)]).
  - split; [exact Hset |]. right. split; [lia | auto].
  - split; [exact Hset |]. right. split; [lia | exact Hevs].
Qed.

(** With a robot that never answers and no cancellation, every turn is an
    exhausted one and the next turn always follows. *)
Lemma outer_loop_dead (cycle_fuel : nat) :
  (forall a i, (i < MAX_RETRIES)%nat -> connect_outcome robot a i <> ConnectOk) ->
  (forall t, is_set stop_at t = false) ->
  forall (fuel a : nat) (s : State),
  exists s' : State,
    outer_loop robot stop_at fuel cycle_fuel a s = StillRunning (a + fuel) s'
    /\ trace s' = trace s ++ List.concat (repeat exhausted_turn fuel)
    /\ now s' = now s + 50000 * Z.of_nat fuel.
Proof.
  intros Hdead Hnever. induction fuel as [| fuel IH]; intros a s;
    cbn [outer_loop]; rewrite Hnever.
  - exists s. rewrite Nat.add_0_r, app_nil_r, Z.add_0_r. auto.
  - destruct (attempt_exhausted cycle_fuel a s (Hdead a) (Hnever _))
      as (s' & Heq & Ht & Hn & _).
    rewrite Heq. destruct (IH (S a) s') as (s'' & Heq' & Ht' & Hn').
    exists s''. rewrite Heq'. split; [f_equal; lia |].
    split.
    + rewrite Ht', Ht. cbn [repeat List.concat]. unfold exhausted_turn.
      same_events.
    + rewrite Hn', Hn. unfold MAX_RETRIES. lia.
Qed.

(** ** Change detection over consecutive cycles *)

Lemma sends_app (xs ys : list Event) : sends (xs ++ ys) = sends xs ++ sends ys.
Proof. apply flat_map_app. Qed.

Lemma gate_has_slider (s : State) :
  gate s = has_slider s && (cycle_fraction s !=? previous_speed_fraction s)%py.
Proof. unfold gate, has_slider. destruct (input_data s); reflexivity. Qed.

(** Cycles that all get a state packet and whose sends return: what is
    sent is what change detection lets through, nothing else. *)
Lemma cycles_send_on_change (n : nat) :
  forall (a k : nat) (s : State) (obj : DataObject),
    input_data s = Some obj ->
    hasattr (speed_slider_fraction obj) = true ->
    (forall j, (j < n)%nat ->
       receive_outcome robot a (k + j) = StatePacket
       /\ send_outcome robot a (k + j) = Returned tt) ->
    exists (evs : list Event) (s' : State),
      cycles robot n a k s = (Ret tt, s')
      /\ trace s' = trace s ++ evs
      /\ sends evs
         = map (fun f => set_fraction f obj)
             (gated (previous_speed_fraction s)
                (computed robot n a k (distance_queue s) (current_distance s)))
      /\ previous_speed_fraction s'
         = last (gated (previous_speed_fraction s)
                   (computed robot n a k (distance_queue s) (current_distance s)))
             (previous_speed_fraction s).
Proof.
  induction n as [| n IH]; intros a k s obj Hdata Hattr Hok.
  - exists [], s. cbn. rewrite app_nil_r. auto.
  - destruct (Hok 0%nat ltac:(lia)) as (Hrecv & Hsend).
    rewrite Nat.add_0_r in Hrecv, Hsend.
    cbn [cycles computed]. unfold deliver, cycle_body. exec. rewrite Hrecv.
    match goal with |- context [on_state_packet robot a k ?s0] =>
      destruct (on_state_packet_spec a k s0)
        as (r & s1 & Heq & Hcur & Hqueue & Hnow & _ & Hclosed & Hopen);
      rewrite Heq; pose proof (gate_has_slider s0) as Hgate;
      revert Hcur Hclosed Hopen Hgate
    end.
    unfold has_slider, cycle_fraction. exec. rewrite Hdata, Hattr.
    cbn [andb]. rewrite consume_latest_last. cbn [fst].
    set (f := calculate_speed_fraction
                (last (Queue.put_all (distance_queue s) (arrivals robot a k))
                   (current_distance s))).
    intros Hcur Hclosed Hopen Hgate. cbn [gated].
    destruct (f !=? previous_speed_fraction s)%py eqn:Hneq.
    + destruct (Hopen Hgate) as (obj0 & Hobj0 & _ & Ht1 & Hi1 & Hout).
      injection Hobj0 as <-. rewrite Hsend in Hout. destruct Hout as (-> & Hp1).
      exec.
      match goal with |- context [cycles robot n a (S k) ?s2] =>
        destruct (IH a (S k) s2 (set_fraction f obj)) as (evs & s' & Heq' & Ht' & Hs' & Hp');
        [ exact Hi1 | reflexivity
        | intros j Hj; replace (S k + j)%nat with (k + S j)%nat by lia;
          apply Hok; lia | ]
      end.
      rewrite Heq'. revert Ht' Hs' Hp'. exec. rewrite Hqueue, Hcur, Hp1, Ht1.
      intros Ht' Hs' Hp'.
      exists (Receive :: Send (set_fraction f obj) :: Sleep (1000 / RTDE_FREQUENCY) :: evs), s'.
      split; [reflexivity |]. split; [rewrite Ht'; same_events |].
      split.
      * cbn [sends flat_map app map]. f_equal. exact Hs'.
      * rewrite Hp', last_cons. reflexivity.
    + destruct (Hclosed Hgate) as (-> & Ht1 & Hp1 & Hi1).
      exec.
      match goal with |- context [cycles robot n a (S k) ?s2] =>
        destruct (IH a (S k) s2 obj) as (evs & s' & Heq' & Ht' & Hs' & Hp');
        [ exact Hi1 | exact Hattr
        | intros j Hj; replace (S k + j)%nat with (k + S j)%nat by lia;
          apply Hok; lia | ]
      end.
      rewrite Heq'. revert Ht' Hs' Hp'. exec. rewrite Hqueue, Hcur, Hp1, Ht1.
      intros Ht' Hs' Hp'.
      exists (Receive :: Sleep (1000 / RTDE_FREQUENCY) :: evs), s'.
      split; [reflexivity |]. split; [rewrite Ht'; same_events |].
      split; [exact Hs' | exact Hp'].
Qed.

(** Without the attribute on [input_data] no cycle ever sends. *)
Lemma cycles_without_slider (n : nat) :
  forall (a k : nat) (s : State),
    has_slider s = false ->
    exists evs : list Event,
      trace (snd (cycles robot n a k s)) = trace s ++ evs
      /\ sends evs = [].
Proof.
  induction n as [| n IH]; intros a k s Hno.
  - exists []. cbn. now rewrite app_nil_r.
  - cbn [cycles]. unfold deliver, cycle_body. exec.
    destruct (receive_outcome robot a k) as [| | e]; exec.
    + match goal with |- context [on_state_packet robot a k ?s0] =>
        destruct (on_state_packet_spec a k s0)
          as (r & s1 & Heq & _ & _ & _ & _ & Hclosed & _);
        rewrite Heq; pose proof (gate_has_slider s0) as Hgate;
        revert Hclosed Hgate
      end.
      unfold has_slider in *. exec. rewrite Hno. cbn [andb].
      intros Hclosed Hgate. destruct (Hclosed Hgate) as (-> & Ht1 & _ & Hi1).
      exec.
      match goal with |- context [cycles robot n a (S k) ?s2] =>
        destruct (IH a (S k) s2) as (evs & Ht' & Hs')
      end.
      { exec. now rewrite Hi1. }
      revert Ht'. exec. rewrite Ht1. intros Ht'.
      exists (Receive :: Sleep (1000 / RTDE_FREQUENCY) :: evs).
      split; [rewrite Ht'; same_events | exact Hs'].
    + match goal with |- context [cycles robot n a (S k) ?s2] =>
        destruct (IH a (S k) s2) as (evs & Ht' & Hs')
      end.
      { exact Hno. }
      revert Ht'. exec. intros Ht'.
      exists (Receive :: Sleep (1000 / RTDE_FREQUENCY) :: evs).
      split; [rewrite Ht'; same_events | exact Hs'].
    + exists [Receive]. split; reflexivity.
Qed.

End ControllerFacts.

(* ================================================================== *)
(** * Facts about change detection *)

Section GatingFacts.

Local Open Scope pyfloat_scope.

Ltac each_value H :=
  repeat (destruct H as [H | H]; [rewrite <- H; clear H |]); [.. | destruct H].

Lemma neqb_same (f : float) : table f -> (f !=? f) = false.
Proof. intros H. unfold table in H. each_value H; vm_compute; reflexivity. Qed.

Lemma neqb_false_eq (f p : float) :
  table f -> known p -> (f !=? p) = false -> f = p.
Proof.
  intros Hf [-> | Hp]; unfold table in *.
  - each_value Hf; vm_compute; intros E; discriminate E.
  - each_value Hf; each_value Hp; vm_compute; intros E;
      first [reflexivity | discriminate E].
Qed.

Lemma neqb_distinct (f g : float) :
  table f -> table g -> f <> g -> (f !=? g) = true.
Proof.
  intros Hf Hg Hne. destruct (f !=? g) eqn:E; [reflexivity |].
  exfalso. apply Hne, neqb_false_eq; auto. now right.
Qed.

Lemma initial_previous_differs (f : float) :
  table f -> (f !=? SFopp (lit "1.0")) = true.
Proof. intros H. unfold table in H. each_value H; vm_compute; reflexivity. Qed.

Lemma gated_app (xs ys : list float) :
  forall p : float,
    gated p (xs ++ ys) = gated p xs ++ gated (last (gated p xs) p) ys.
Proof.
  induction xs as [| x xs IH]; intros p; [reflexivity |].
  cbn [app gated]. destruct (x !=? p).
  - rewrite IH. cbn [app]. now rewrite last_cons.
  - apply IH.
Qed.

Lemma gated_unchanged (f p : float) (n : nat) :
  (f !=? p) = false -> gated p (repeat f n) = [].
Proof.
  intros H. induction n as [| n IH]; [reflexivity |].
  cbn [repeat gated]. now rewrite H.
Qed.

(** A run of equal fractions is sent once, by its first cycle, if it
    differs from what was sent last, and not at all otherwise. *)
Lemma gated_run (f p : float) (n : nat) :
  table f ->
  gated p (repeat f (S n)) = if (f !=? p) then [f] else [].
Proof.
  intros Hf. cbn [repeat gated]. destruct (f !=? p) eqn:E.
  - now rewrite gated_unchanged by now apply neqb_same.
  - now apply gated_unchanged.
Qed.

Lemma known_last_gated (xs : list float) :
  forall p : float, known p -> Forall table xs -> known (last (gated p xs) p).
Proof.
  induction xs as [| x xs IH]; intros p Hp Hxs; [exact Hp |].
  inversion Hxs as [| ? ? Hx Hxs']; subst. cbn [gated].
  destruct (x !=? p).
  - rewrite last_cons. apply IH; [now right | assumption].
  - now apply IH.
Qed.

(** After a cycle that computed [g], the fraction sent last is [g]. *)
Lemma last_gated_snoc (xs : list float) (g p : float) :
  known p -> Forall table xs -> table g ->
  last (gated p (xs ++ [g])) p = g.
Proof.
  intros Hp Hxs Hg. rewrite gated_app. cbn [gated].
  destruct (g !=? last (gated p xs) p) eqn:E.
  - now rewrite last_last.
  - rewrite app_nil_r. symmetry. apply neqb_false_eq; auto.
    now apply known_last_gated.
Qed.

(** A maximal run of [f] that follows a cycle with another fraction [g]:
    one transmission for the whole run, made by its first cycle. *)
Lemma gated_maximal_run (pre rest : list float) (g f p : float) (n : nat) :
  known p -> Forall table pre -> table g -> table f -> g <> f ->
  gated p (pre ++ g :: repeat f (S n) ++ rest)
  = gated p (pre ++ [g]) ++ f :: gated f rest.
Proof.
  intros Hp Hpre Hg Hf Hne.
  change (g :: repeat f (S n) ++ rest) with ([g] ++ repeat f (S n) ++ rest).
  rewrite app_assoc, gated_app, last_gated_snoc by assumption.
  rewrite (gated_app (repeat f (S n)) rest), gated_run by assumption.
  rewrite neqb_distinct by auto. reflexivity.
Qed.

Lemma table_fraction (d : float) : table (calculate_speed_fraction d).
Proof. apply fraction_in_table. Qed.

End GatingFacts.

(* ================================================================== *)
(** * Facts about the supervisor loop *)

Section SupervisorFacts.

Import Supervisor.
Local Open Scope string_scope.

Variable py_float : string -> option float.

Lemma prefix_append (p : string) :
  forall s : string, String.prefix p s = true -> exists rest, s = p ++ rest.
Proof.
  induction p as [| c p IH]; intros s H.
  - exists s. reflexivity.
  - destruct s as [| c' s]; [discriminate H |].
    cbn [String.prefix] in H. destruct (ascii_dec c c') as [<- |]; [| discriminate H].
    destruct (IH s H) as (rest & ->). exists rest. reflexivity.
Qed.

Lemma split_nonempty (sep : ascii) (s : string) :
  exists field fields, Str.split sep s = field :: fields.
Proof.
  induction s as [| c s (field & fields & IH)]; cbn [Str.split]; [eauto |].
  destruct (Ascii.eqb c sep); [eauto |]. rewrite IH. eauto.
Qed.

(** On a line with the prefix, [line.strip().split(':')[1]] exists: it is
    the text between the prefix and the next colon, with the white space
    at the end of the line removed. *)
Lemma distance_field_of (rest : string) :
  distance_field ("DISTANCE:" ++ rest)
  = Some (hd EmptyString (Str.split ":" (Str.rstrip rest))).
Proof.
  unfold distance_field, Str.strip.
  change (Str.lstrip ("DISTANCE:" ++ rest)) with ("DISTANCE:" ++ rest).
  change (Str.rstrip ("DISTANCE:" ++ rest)) with ("DISTANCE:" ++ Str.rstrip rest).
  destruct (split_nonempty ":" (Str.rstrip rest)) as (field & fields & E).
  cbn. rewrite E. reflexivity.
Qed.

Lemma distance_field_exists (line : string) :
  Str.startswith line "DISTANCE:" = true ->
  exists field, distance_field line = Some field.
Proof.
  intros H. destruct (prefix_append _ _ H) as (rest & ->).
  rewrite distance_field_of. eauto.
Qed.

Lemma on_stdout_spec (line : string) (m : Main) :
  exists m' : Main,
    on_stdout py_float line m = Returns m'
    /\ clock m' = clock m
    /\ stop_event m' = stop_event m
    /\ stop_set_at m' = stop_set_at m
    /\ (Str.startswith line "DISTANCE:" = false ->
        distance_queue m' = distance_queue m)
    /\ (forall field, distance_field line = Some field ->
        py_float field = None ->
        distance_queue m' = distance_queue m)
    /\ (forall field x,
        Str.is_empty line = false ->
        Str.startswith line "DISTANCE:" = true ->
        distance_field line = Some field ->
        py_float field = Some x ->
        distance_queue m' = Queue.put (distance_queue m) x).
Proof.
  unfold on_stdout.
  destruct (Str.is_empty line).
  { exists m. do 4 (split; [reflexivity |]). split; [auto |].
    split; [auto | discriminate]. }
  destruct (Str.startswith line "DISTANCE:") eqn:Hp.
  - destruct (distance_field_exists line Hp) as (field & Hf). rewrite Hf.
    destruct (py_float field) as [x |] eqn:Hx;
      eexists; (split; [reflexivity |]); cbn;
      do 3 (split; [reflexivity |]);
      (split; [discriminate |]); split; intros; congruence.
  - eexists. split; [reflexivity |]. cbn.
    do 3 (split; [reflexivity |]). split; [auto |].
    split; [auto | discriminate].
Qed.

Lemma on_ready_spec (r : Ready) (m : Main) :
  prompt m ->
  match on_ready py_float r m with
  | Returns m' => raises r = false /\ clock m' = clock m /\ prompt m'
  | Escapes m' => raises r = true /\ m' = m
  end.
Proof.
  intros Hm. destruct r as [line | line | line | | |]; cbn [on_ready raises];
    auto.
  - destruct (on_stdout_spec line m) as (m' & -> & Hc & Hs & Ha & _).
    unfold prompt in *. rewrite Hc, Hs, Ha. auto.
  - unfold on_stderr. destruct (Str.is_empty line); auto.
  - unfold on_stdin. destruct (String.eqb (Str.strip line) "q"); auto.
    split; [reflexivity |]. split; [reflexivity |].
    unfold prompt in *. cbn.
    destruct Hm as [(_ & ->) | (_ & ->)]; auto.
Qed.

Lemma on_all_ready_spec (rs : list Ready) :
  forall m : Main,
    prompt m ->
    match on_all_ready py_float rs m with
    | Returns m' =>
        existsb raises rs = false /\ clock m' = clock m /\ prompt m'
    | Escapes m' =>
        existsb raises rs = true /\ clock m' = clock m /\ prompt m'
    end.
Proof.
  induction rs as [| r rs IH]; intros m Hm; cbn [on_all_ready existsb];
    [auto |].
  pose proof (on_ready_spec r m Hm) as Hr.
  destruct (on_ready py_float r m) as [m1 | m1].
  - destruct Hr as (-> & Hc1 & Hm1). cbn [orb].
    specialize (IH m1 Hm1).
    destruct (on_all_ready py_float rs m1) as [m' | m'];
      destruct IH as (He & Hc & Hm'); repeat split; congruence.
  - destruct Hr as (-> & ->). auto.
Qed.

(** An exception escapes the loop only from a read that raises; when the
    loop is left, [stop_event] was set with no wait in between. *)
Lemma main_loop_spec (wakes : list Wake) :
  forall m : Main,
    prompt m ->
    match main_loop py_float wakes m with
    | Left m' => stop_event m' = true /\ stop_set_at m' = Some (clock m')
    | Aborted m' => prompt m' /\ existsb wake_aborts wakes = true
    | Polling m' => stop_event m' = false
    end.
Proof.
  assert (Hleft : forall m, prompt m -> stop_event m = true ->
                    stop_event m = true /\ stop_set_at m = Some (clock m)).
  { intros m [(E & _) | (_ & E)] Hs; [congruence | auto]. }
  induction wakes as [| w wakes IH]; intros m Hm; cbn [main_loop];
    destruct (stop_event m) eqn:Hs; auto.
  assert (Hw : prompt (wait (poll_wait w) m)).
  { destruct Hm as [(E & Ha) | (E & _)]; [left; cbn; auto | congruence]. }
  pose proof (on_all_ready_spec (ready w) _ Hw) as Hall.
  cbn [existsb]. unfold wake_aborts at 1.
  destruct (on_all_ready py_float (ready w) (wait (poll_wait w) m))
    as [m' | m']; destruct Hall as (-> & _ & Hm'); [| auto].
  cbn [orb].
  destruct (returncode w) as [e |].
  - destruct (exit_stderr e) as [text |].
    + cbn [orb]. destruct (Str.is_empty text); cbn; (split; [reflexivity |]);
        destruct Hm' as [(_ & ->) | (_ & ->)]; reflexivity.
    + split; [| reflexivity]. exact Hm'.
  - cbn [orb]. specialize (IH m' Hm').
    destruct (main_loop py_float wakes m'); auto.
Qed.

End SupervisorFacts.

(* ================================================================== *)
(** * Facts about the reception loop of the listener *)

Section ListenerFacts.

Import UdpListener.

Lemma on_recv_wrong_size (payload : list Byte.byte) :
  List.length payload <> 4%nat ->
  on_recv (Datagram payload)
  = [InfoMalformed (List.length (firstn 1024 payload))].
Proof.
  intros H. unfold on_recv, calcsize_f.
  destruct (Nat.eqb_spec (List.length (firstn 1024 payload)) 4) as [E |];
    [| reflexivity].
  exfalso. rewrite length_firstn in E. lia.
Qed.

Lemma reception_loop_app (xs ys : list Recv) :
  reception_loop (xs ++ ys) = reception_loop xs ++ reception_loop ys.
Proof. apply flat_map_app. Qed.

End ListenerFacts.

(* ================================================================== *)
(** * The freshness of the distance used in a cycle *)

Section FreshnessClaims.

(** C2: whatever was on the queue and whatever values are then published
    with no consume in between, one consume yields the value published
    last and leaves nothing behind; with nothing published since the last
    consume the consumer keeps the value it had, so that consuming twice in
    a row yields the same value both times. The consume is the drain loop
    of the cycle: after the body of [if state:] the controller's distance
    is what a consume yields from the queue and its previous distance, and
    the queue is empty. *)
Theorem C2_consume_yields_latest :
  forall (robot : Robot) (a k : nat) (s : State)
         (q : Queue.t) (earlier : list float) (latest previous : float),
    consume_latest (Queue.put_all q (earlier ++ [latest])) previous
      = (latest, Queue.new)
    /\ consume_latest Queue.new previous = (previous, Queue.new)
    /\ (let (first, q1) := consume_latest q previous in
        consume_latest q1 first = (first, q1))
    /\ (let s' := snd (on_state_packet robot a k s) in
        current_distance s'
        = fst (consume_latest (distance_queue s) (current_distance s))
        /\ distance_queue s' = Queue.new).
Proof.
  intros robot a k s q earlier latest previous.
  split; [| split; [| split]].
  - rewrite consume_latest_last, put_all_app, app_assoc, last_last.
    reflexivity.
  - reflexivity.
  - rewrite consume_latest_last. reflexivity.
  - destruct (on_state_packet_spec robot a k s)
      as (r & s' & Heq & Hd & Hq & _).
    rewrite Heq. split; assumption.
Qed.

End FreshnessClaims.

(* ================================================================== *)
(** * The handshake *)

Section HandshakeClaims.

Local Open Scope stmt_scope.

(** C5: once connected, the handshake makes its calls in the order
    [send_input_setup], [send_output_setup] at [RTDE_FREQUENCY],
    [send_start], stopping at the first that fails; it succeeds exactly
    when all three do, and then it has made exactly these three calls and
    left [speed_slider_fraction], where the recipe has it, at 1.0. In a
    turn of the outer loop no event of the cyclic exchange comes before
    the three calls; and if one of them fails the turn is abandoned: it
    ends by the handlers and the 30 s sleep, back at the head of the outer
    loop, with no cyclic exchange at all. And a turn whose [connect]
    succeeds, at try [n] and before [stop_event] is set, and whose recipe
    is read does make these calls: right after the connection and the
    recipe come the calls of the handshake up to the first that fails,
    and none of them is made again later in the turn; when the three
    succeed the turn goes on with the cyclic loop, entered with the
    object that has the fraction at 1.0, and when one fails with the
    handlers only. *)
Theorem C5_handshake_in_order :
  forall (robot : Robot) (stop_at : option Z) (cycle_fuel a : nat) (s : State),
    (exists (r : Outcome unit) (s' : State),
        handshake robot a s = (r, s')
        /\ trace s' = trace s ++ handshake_events robot a
        /\ (handshake_ok robot a = true ->
            r = Ret tt
            /\ handshake_events robot a
               = [SendInputSetup; SendOutputSetup RTDE_FREQUENCY; SendStart]
            /\ exists d : DataObject,
                 input_setup robot a = Returned (Some d)
                 /\ input_data s' = Some (init_fraction (set_mask d))
                 /\ (hasattr (speed_slider_fraction d) = true ->
                     speed_slider_fraction (init_fraction (set_mask d))
                     = Present (Some (lit "1.0"))))
        /\ (handshake_ok robot a = false -> exists e, r = Raise e))
    /\ (exists evs : list Event,
          trace (snd (attempt robot stop_at cycle_fuel a s)) = trace s ++ evs
          /\ (quiet evs
              \/ exists (n : nat) (rest : list Event),
                   evs = (NewRTDE :: tries n ++ [Connect; LoadRecipe])
                           ++ [SendInputSetup;
                               SendOutputSetup RTDE_FREQUENCY; SendStart]
                           ++ rest))
    /\ (handshake_ok robot a = false ->
        exists (evs : list Event) (s' : State),
          attempt robot stop_at cycle_fuel a s = (Ret tt, s')
          /\ trace s' = trace s ++ evs ++ [Sleep 30000]
          /\ quiet evs)
    /\ (forall n : nat,
          (n < MAX_RETRIES)%nat ->
          (forall i, (i < n)%nat -> connect_outcome robot a i <> ConnectOk) ->
          connect_outcome robot a n = ConnectOk ->
          is_set stop_at (now s + 2000 * Z.of_nat n) = false ->
          load_recipe robot a = Returned tt ->
          exists (s3 : State) (rest : list Event),
            trace s3
            = trace s ++ (NewRTDE :: tries n ++ [Connect; LoadRecipe])
                ++ handshake_events robot a
            /\ trace (snd (attempt robot stop_at cycle_fuel a s))
               = trace s3 ++ rest
            /\ no_setup rest
            /\ (handshake_ok robot a = true ->
                handshake_events robot a
                = [SendInputSetup; SendOutputSetup RTDE_FREQUENCY; SendStart]
                /\ (exists d : DataObject,
                      input_setup robot a = Returned (Some d)
                      /\ input_data s3 = Some (init_fraction (set_mask d)))
                /\ attempt robot stop_at cycle_fuel a s
                   = except_finally robot a
                       (cycle_loop robot stop_at cycle_fuel a 0 s3))
            /\ (handshake_ok robot a = false -> quiet rest)).
Proof.
  intros robot stop_at cycle_fuel a s. split; [| split; [| split]].
  - destruct (handshake_spec robot a s)
      as (r & s' & Heq & Ht & _ & _ & _ & Hgood & Hbad).
    exists r, s'. split; [exact Heq |]. split; [exact Ht |].
    split; [| exact Hbad].
    intros Hok. destruct (Hgood Hok) as (-> & d & Hd & Hi).
    split; [reflexivity |]. split; [now apply handshake_events_ok |].
    exists d. split; [exact Hd |]. split; [exact Hi |].
    intros Hattr. unfold init_fraction, set_mask.
    destruct (hasattr (speed_slider_mask d)); cbn; rewrite Hattr;
      reflexivity.
  - apply attempt_exchange_after_handshake.
  - apply attempt_handshake_failed.
  - intros n Hlt Hfail Hconn Hstop Hload.
    destruct (attempt_connected robot stop_at cycle_fuel a n s
                Hlt Hfail Hconn Hstop Hload)
      as (s3 & rest & Ht3 & _ & _ & _ & Hrest & Hnone & Hgood & Hbad).
    exists s3, rest. split; [exact Ht3 |]. split; [exact Hrest |].
    split; [exact Hnone |]. split.
    + intros Hok. split; [now apply handshake_events_ok |].
      exact (Hgood Hok).
    + intros Hok. exact (proj1 (Hbad Hok)).
Qed.

(** Instances of C5. A robot that refuses the output setup: the turn makes
    the first two calls and ends by the handlers. A robot that accepts
    the three steps: the cyclic loop is entered after them, with the
    fraction at 1.0. *)
Lemma C5_refused_and_accepted_setup :
  (exists (s3 : State) (rest : list Event),
     trace s3
     = [NewRTDE; Connect; LoadRecipe; SendInputSetup; SendOutputSetup 100]
     /\ trace (snd (attempt refusing_robot None 10 0 initial_state))
        = trace s3 ++ rest
     /\ quiet rest)
  /\ (exists s3 : State,
        trace s3
        = [NewRTDE; Connect; LoadRecipe; SendInputSetup; SendOutputSetup 100;
           SendStart]
        /\ input_data s3
           = Some (mkData (Present (Some 1)) (Present (Some (lit "1.0"))))
        /\ attempt (responsive_robot full_recipe_object) None 2 0
             initial_state
           = except_finally (responsive_robot full_recipe_object) 0
               (cycle_loop (responsive_robot full_recipe_object) None 2 0 0
                  s3)).
Proof.
  split.
  - destruct (proj2 (proj2 (proj2
               (C5_handshake_in_order refusing_robot None 10 0
                  initial_state))) 0%nat)
      as (s3 & rest & Ht & Hrest & _ & _ & Hbad);
      [unfold MAX_RETRIES; lia | intros i Hi; lia | reflexivity
      | reflexivity | reflexivity |].
    exists s3, rest. split; [rewrite Ht; reflexivity |].
    split; [exact Hrest | exact (Hbad eq_refl)].
  - destruct (proj2 (proj2 (proj2
               (C5_handshake_in_order (responsive_robot full_recipe_object)
                  None 2 0 initial_state))) 0%nat)
      as (s3 & rest & Ht & _ & _ & Hgood & _);
      [unfold MAX_RETRIES; lia | intros i Hi; lia | reflexivity
      | reflexivity | reflexivity |].
    destruct (Hgood eq_refl) as (Hev & (d & Hd & Hi) & Heq).
    exists s3. split; [rewrite Ht; reflexivity |].
    split; [| exact Heq].
    injection Hd as <-. rewrite Hi. vm_compute. reflexivity.
Defined.

End HandshakeClaims.

(* ================================================================== *)
(** * Retries and reconnection *)

Section ReconnectionClaims.

(** C6: a connection phase calls [connect] at most [MAX_RETRIES] = 5 times,
    with a 2 s sleep after every call that fails; when all five fail the
    turn raises [ConnectionRefusedError], which the thread handles itself
    (10 s back-off, then the 30 s of [finally]) before it is back at the
    head of the outer loop; the thread returns only there, with
    [stop_event] set, and no exception ends it; and as long as
    [stop_event] is not set a turn that failed is followed by another one,
    without end. *)
Theorem C6_bounded_retries_then_restart :
  forall (robot : Robot) (stop_at : option Z) (cycle_fuel fuel a : nat)
         (s : State),
    (exists (n : nat) (tail : list Event) (r : Outcome unit) (s' : State),
        connection_loop robot stop_at (S MAX_RETRIES) a 0 s = (r, s')
        /\ trace s' = trace s ++ tries n ++ tail
        /\ (tail = [] \/ tail = [Connect])
        /\ (n + List.length tail <= MAX_RETRIES)%nat
        /\ List.length (filter is_connect (tries n ++ tail)) = (n + List.length tail)%nat
        /\ MAX_RETRIES = 5%nat
        /\ r <> OutOfFuel)
    /\ ((forall i, (i < MAX_RETRIES)%nat ->
           connect_outcome robot a i <> ConnectOk) ->
        is_set stop_at (now s + 8000) = false ->
        exists s' : State,
          attempt robot stop_at cycle_fuel a s = (Ret tt, s')
          /\ trace s' = trace s ++ exhausted_turn
          /\ now s' = now s + 5 * 2000 + 10000 + 30000)
    /\ match outer_loop robot stop_at fuel cycle_fuel a s with
       | ThreadEnded _ s' => is_set stop_at (now s') = true
       | StillRunning _ _ => True
       | Crashed _ _ => False
       end
    /\ ((forall a' i, (i < MAX_RETRIES)%nat ->
           connect_outcome robot a' i <> ConnectOk) ->
        (forall t, is_set stop_at t = false) ->
        exists s' : State,
          outer_loop robot stop_at fuel cycle_fuel a s
          = StillRunning (a + fuel) s'
          /\ trace s' = trace s ++ List.concat (repeat exhausted_turn fuel)).
Proof.
  intros robot stop_at cycle_fuel fuel a s. split; [| split; [| split]].
  - destruct (connection_loop_spec robot stop_at (S MAX_RETRIES) a 0 s)
      as (n & tail & r & s' & Heq & Ht & _ & _ & _ & _ & _ & _ & Hb & Hr).
    cbn [Nat.add] in Hb, Hr.
    assert (Hn : (n <= MAX_RETRIES)%nat).
    { destruct n; [lia |]. apply Hb. lia. }
    exists n, tail, r, s'. split; [exact Heq |]. split; [exact Ht |].
    assert (Htail : (tail = [] \/ tail = [Connect])
                    /\ (n + List.length tail <= MAX_RETRIES)%nat
                    /\ r <> OutOfFuel).
    { destruct r as [[] | e |].
      - destruct Hr as [(-> & _ & Hlt & _) | (-> & _)];
          cbn [List.length]; repeat split; auto; try lia; discriminate.
      - destruct Hr as (_ & -> & _). cbn [List.length].
        repeat split; auto; try lia; discriminate.
      - destruct Hr as (_ & ->). lia. }
    destruct Htail as (Htail & Hlen & Hr').
    split; [exact Htail |]. split; [exact Hlen |].
    split; [| split; [reflexivity | exact Hr']].
    rewrite filter_app, length_app, count_connect_tries.
    destruct Htail as [-> | ->]; reflexivity.
  - intros Hdead Hstop.
    destruct (attempt_exhausted robot stop_at cycle_fuel a s Hdead)
      as (s' & Heq & Ht & Hn & _).
    { exact Hstop. }
    exists s'. split; [exact Heq |]. split; [exact Ht |].
    rewrite Hn. reflexivity.
  - pose proof (outer_loop_spec robot stop_at fuel cycle_fuel a s) as H.
    destruct (outer_loop robot stop_at fuel cycle_fuel a s); intuition.
  - intros Hdead Hnever.
    destruct (outer_loop_dead robot stop_at cycle_fuel Hdead Hnever fuel a s)
      as (s' & Heq & Ht & _).
    eauto.
Qed.

(** An instance of C6: three turns against a robot that refuses every
    connection, with no cancellation. *)
Lemma C6_dead_robot_keeps_retrying :
  exists s' : State,
    outer_loop dead_robot None 3 10 0 initial_state = StillRunning 3 s'
    /\ trace s' = exhausted_turn ++ exhausted_turn ++ exhausted_turn.
Proof.
  destruct (proj2 (proj2 (proj2
     (C6_bounded_retries_then_restart dead_robot None 10 3 0 initial_state))))
    as (s' & Heq & Ht).
  - intros a' i _. discriminate.
  - reflexivity.
  - exists s'. split; [exact Heq |]. rewrite Ht. reflexivity.
Defined.

End ReconnectionClaims.

(* ================================================================== *)
(** * Change-gated transmission *)

Section TransmissionClaims.

Local Open Scope pyfloat_scope.

Lemma computed_in_table (robot : Robot) (n : nat) :
  forall (a k : nat) (q : Queue.t) (d : float),
    Forall table (computed robot n a k q d).
Proof.
  induction n as [| n IH]; intros a k q d; cbn [computed]; [constructor |].
  rewrite consume_latest_last. constructor; [apply table_fraction | apply IH].
Qed.

(** C3, as the code has it: a cycle that got a state packet sends exactly
    when [input_data] has the [speed_slider_fraction] attribute and the
    fraction it computed differs from the one sent last; with the
    attribute missing no cycle ever sends. Over consecutive such cycles
    with the attribute present, what is sent is what change detection lets
    through: a run of equal fractions is transmitted once, by its first
    cycle, when it differs from the fraction sent last (as a maximal run
    that follows a cycle with another fraction does), and not at all when
    it equals it. *)
Theorem C3_send_on_change_only :
  forall (robot : Robot) (a k n j : nat) (s : State) (obj : DataObject)
         (pre rest : list float) (g f p : float),
    (exists (r : Outcome unit) (s' : State) (evs : list Event),
        on_state_packet robot a k s = (r, s')
        /\ trace s' = trace s ++ evs
        /\ gate s
           = has_slider s
             && (cycle_fraction s !=? previous_speed_fraction s)
        /\ (gate s = true ->
            exists o, input_data s = Some o
                      /\ evs = [Send (set_fraction (cycle_fraction s) o)])
        /\ (gate s = false -> evs = []))
    /\ (has_slider s = false ->
        exists evs : list Event,
          trace (snd (cycles robot n a k s)) = trace s ++ evs
          /\ sends evs = [])
    /\ (input_data s = Some obj ->
        hasattr (speed_slider_fraction obj) = true ->
        (forall i, (i < n)%nat ->
           receive_outcome robot a (k + i) = StatePacket
           /\ send_outcome robot a (k + i) = Returned tt) ->
        exists (evs : list Event) (s' : State),
          cycles robot n a k s = (Ret tt, s')
          /\ trace s' = trace s ++ evs
          /\ sends evs
             = map (fun x => set_fraction x obj)
                 (gated (previous_speed_fraction s)
                    (computed robot n a k (distance_queue s)
                       (current_distance s))))
    /\ Forall table
         (computed robot n a k (distance_queue s) (current_distance s))
    /\ (table f -> gated p (repeat f (S j)) = if (f !=? p) then [f] else [])
    /\ (known p -> Forall table pre -> table g -> table f -> g <> f ->
        gated p (pre ++ g :: repeat f (S j) ++ rest)
        = gated p (pre ++ [g]) ++ f :: gated f rest).
Proof.
  intros robot a k n j s obj pre rest g f p.
  split; [| split; [| split; [| split; [| split]]]].
  - destruct (on_state_packet_spec robot a k s)
      as (r & s' & Heq & _ & _ & _ & _ & Hclosed & Hopen).
    destruct (gate s) eqn:Hgate.
    + destruct (Hopen eq_refl) as (o & Ho & _ & Ht & _).
      exists r, s', [Send (set_fraction (cycle_fraction s) o)].
      split; [exact Heq |]. split; [exact Ht |].
      split; [rewrite <- Hgate; apply gate_has_slider |].
      split; [eauto | discriminate].
    + destruct (Hclosed eq_refl) as (_ & Ht & _).
      exists r, s', []. split; [exact Heq |].
      split; [now rewrite app_nil_r |].
      split; [rewrite <- Hgate; apply gate_has_slider |].
      split; [discriminate | reflexivity].
  - apply cycles_without_slider.
  - intros Hdata Hattr Hok.
    destruct (cycles_send_on_change robot n a k s obj Hdata Hattr Hok)
      as (evs & s' & Heq & Ht & Hs & _).
    eauto.
  - apply computed_in_table.
  - apply gated_run.
  - apply gated_maximal_run.
Qed.

(** An instance of C3: three cycles that compute 1.0, from the initial
    fraction: one transmission. *)
Lemma C3_one_transmission_for_a_run :
  gated (SFopp (lit "1.0")) (repeat (lit "1.0") 3) = [lit "1.0"].
Proof.
  refine (eq_trans
    (proj1 (proj2 (proj2 (proj2 (proj2
       (C3_send_on_change_only (responsive_robot full_recipe_object)
          0 0 0 2 initial_state full_recipe_object [] []
          (lit "1.0") (lit "1.0") (SFopp (lit "1.0"))))))) _) _).
  - right. right. right. left. vm_compute. reflexivity.
  - vm_compute. reflexivity.
Defined.

(** C3 as stated fails: with an input recipe that has no
    [speed_slider_fraction], the first cycle computes 1.0, which differs
    from the fraction sent last (-1.0), and nothing is sent. *)
Lemma C3_differs_but_not_sent :
  let s := set_input_data (Some sliderless_object) initial_state in
  (cycle_fraction s !=? previous_speed_fraction s) = true
  /\ on_state_packet (responsive_robot sliderless_object) 0 0 s
     = (Ret tt, set_current_distance (SFopp (lit "1.0")) s)
  /\ trace (snd (on_state_packet (responsive_robot sliderless_object) 0 0 s))
     = trace s.
Proof. cbv zeta. split; [| split]; vm_compute; reflexivity. Qed.

End TransmissionClaims.

(* ================================================================== *)
(** * The first cycle *)

Section FirstCycleClaims.

Local Open Scope pyfloat_scope.

(** C10, as the code has it: the thread starts with [current_distance] and
    [previous_speed_fraction] both at -1.0, a value outside [[0.0, 1.0]],
    and a turn keeps both until its handshake is done; so with nothing
    published the first fraction computed is 1.0, and whatever was
    published the fraction computed differs from the -1.0 held as sent
    last. The cycle then transmits it when the input recipe has the
    [speed_slider_fraction] field, and transmits nothing when it has not. *)
Theorem C10_first_cycle :
  forall (robot : Robot) (stop_at : option Z) (cycle_fuel a k : nat)
         (clock : Z) (tr : list Event) (q : Queue.t) (link : bool)
         (obj : DataObject),
    let s := mkState clock tr q link (Some obj)
               (SFopp (lit "1.0")) (SFopp (lit "1.0")) in
    current_distance initial_state = SFopp (lit "1.0")
    /\ previous_speed_fraction initial_state = SFopp (lit "1.0")
    /\ in_unit_interval (SFopp (lit "1.0")) = false
    /\ (let turn := attempt robot stop_at cycle_fuel a initial_state in
        quiet (trace (snd turn))
        \/ exists (d : DataObject) (s3 : State),
             snd turn
             = snd (except_finally robot a
                      (cycle_loop robot stop_at cycle_fuel a 0 s3))
             /\ quiet (trace s3)
             /\ input_data s3 = Some (init_fraction (set_mask d))
             /\ distance_queue s3 = Queue.new
             /\ current_distance s3 = SFopp (lit "1.0")
             /\ previous_speed_fraction s3 = SFopp (lit "1.0"))
    /\ (q = Queue.new -> cycle_fraction s = lit "1.0")
    /\ (cycle_fraction s !=? previous_speed_fraction s) = true
    /\ (hasattr (speed_slider_fraction obj) = true ->
        exists (r : Outcome unit) (s' : State),
          on_state_packet robot a k s = (r, s')
          /\ trace s' = tr ++ [Send (set_fraction (cycle_fraction s) obj)])
    /\ (hasattr (speed_slider_fraction obj) = false ->
        exists s' : State,
          on_state_packet robot a k s = (Ret tt, s') /\ trace s' = tr).
Proof.
  intros robot stop_at cycle_fuel a k clock tr q link obj s.
  assert (Hdiffers : (cycle_fraction s !=? previous_speed_fraction s) = true).
  { apply initial_previous_differs, table_fraction. }
  split; [reflexivity |]. split; [reflexivity |].
  split; [vm_compute; reflexivity |].
  split; [| split; [| split; [exact Hdiffers | split]]].
  - cbv zeta.
    destruct (attempt_cases robot stop_at cycle_fuel a initial_state)
      as [(evs & s' & Heq & Ht & Hq)
         | (_ & n & d & s3 & _ & _ & Ht3 & _ & (Hq3 & Hc3 & Hp3) & _ & Hi3 & Heq)];
      rewrite Heq.
    + left. cbn [snd]. rewrite Ht. cbn [trace initial_state app].
      apply quiet_app; [exact Hq | reflexivity].
    + right. exists d, s3. split; [reflexivity |].
      split.
      { rewrite Ht3. cbn [trace initial_state app].
        apply (quiet_app (NewRTDE :: tries n ++ [Connect; LoadRecipe]));
          [| reflexivity].
        apply (quiet_app [NewRTDE]); [reflexivity |].
        apply quiet_app; [apply quiet_tries | reflexivity]. }
      auto.
  - intros ->. vm_compute. reflexivity.
  - intros Hattr.
    destruct (on_state_packet_spec robot a k s)
      as (r & s' & Heq & _ & _ & _ & _ & _ & Hopen).
    destruct Hopen as (o & Ho & _ & Ht & _).
    { rewrite gate_has_slider, Hdiffers. unfold has_slider. cbn.
      now rewrite Hattr. }
    injection Ho as <-. eauto.
  - intros Hattr.
    destruct (on_state_packet_spec robot a k s)
      as (r & s' & Heq & _ & _ & _ & _ & Hclosed & _).
    destruct Hclosed as (-> & Ht & _).
    { rewrite gate_has_slider. unfold has_slider. cbn. now rewrite Hattr. }
    eauto.
Qed.

(** An instance of C10: the first cycle with the full recipe sends 1.0. *)
Lemma C10_first_cycle_sends_full_speed :
  exists (r : Outcome unit) (s' : State),
    on_state_packet (responsive_robot full_recipe_object) 0 0
      (set_input_data
         (Some (init_fraction (set_mask full_recipe_object))) initial_state)
    = (r, s')
    /\ trace s'
       = [Send (mkData (Present (Some 1)) (Present (Some (lit "1.0"))))].
Proof.
  destruct (C10_first_cycle (responsive_robot full_recipe_object) None 0 0 0
              0 [] Queue.new false
              (init_fraction (set_mask full_recipe_object)))
    as (_ & _ & _ & _ & _ & _ & Hsend & _).
  destruct (Hsend eq_refl) as (r & s' & Heq & Ht).
  exists r, s'. split; [exact Heq |]. rewrite Ht. vm_compute. reflexivity.
Defined.

(** C10 as stated fails: with an input recipe that has no
    [speed_slider_fraction], the turn gets through the handshake, receives
    its first state packet and transmits nothing. *)
Lemma C10_first_cycle_without_slider :
  exists s' : State,
    run_rtde_controller (responsive_robot sliderless_object) (Some 5) 2 10
    = ThreadEnded 1 s'
    /\ trace s'
       = [NewRTDE; Connect; LoadRecipe; SendInputSetup; SendOutputSetup 100;
          SendStart; Receive; Sleep 10; SendPause; Disconnect; Sleep 30000]
    /\ sends (trace s') = [].
Proof. eexists. split; [| split]; vm_compute; reflexivity. Qed.

End FirstCycleClaims.

(* ================================================================== *)
(** * Cancellation *)

Section CancellationClaims.

Local Open Scope stmt_scope.




End CancellationClaims.

(* ================================================================== *)
(** * Malformed input *)

Section MalformedInputClaims.

Import Supervisor UdpListener.
Local Open Scope string_scope.

(** C7: the code departs from the claim at one point. The text the
    supervisor hands to [float] is [line.strip().split(':')[1]], the text
    between the prefix and the next colon, and not what follows the
    prefix. Of two lines whose text after the prefix is no float,
    [DISTANCE:1.5x] goes the way of the malformed lines, as the claim
    says: it is logged and nothing is published; [DISTANCE:1.5:7] does
    not: 1.5 is published. *)
Theorem C7_trailing_field_is_published :
  float_of_str "1.5x" = None
  /\ float_of_str "1.5:7" = None
  /\ on_stdout float_of_str ("DISTANCE:1.5x" ++ LF) initial
     = Returns (info (LogMalformed "DISTANCE:1.5x") initial)
  /\ distance_field ("DISTANCE:1.5:7" ++ LF) = Some "1.5"
  /\ on_stdout float_of_str ("DISTANCE:1.5:7" ++ LF) initial
     = Returns (info (LogPut (lit "1.5")) (put (lit "1.5") initial))
  /\ distance_queue (put (lit "1.5") initial) = [lit "1.5"].
Proof.
  split; [| split; [| split; [| split; [| split]]]]; vm_compute; reflexivity.
Qed.

End MalformedInputClaims.

(* ================================================================== *)
(** * Further properties of the Speed Governor *)

Section SpeedGovernorOrder.

Local Open Scope pyfloat_scope.

(** Two floats that are not NaN are ordered one way or the other. *)
Lemma ltb_or_leb (c d : float) :
  is_nan c = false -> is_nan d = false ->
  (d <? c) = true \/ (c <=? d) = true.
Proof.
  destruct c as [[] | [] | | [] m1 e1], d as [[] | [] | | [] m2 e2];
    intros Hc Hd; try discriminate;
    try (left; reflexivity); try (right; reflexivity);
    unfold PyFloat.ltb, PyFloat.leb, SFltb, SFleb, SFcompare;
    change (Pos.compare_cont Eq) with Pos.compare;
    destruct (Z.compare e2 e1) eqn:He; rewrite (Z.compare_antisym e2 e1), ?He;
    cbn [CompOpp]; auto;
    rewrite (Pos.compare_antisym m2 m1);
    destruct (Pos.compare m2 m1); cbn [CompOpp]; auto.
Qed.

Lemma leb_not_nan (c d : float) :
  (c <=? d) = true -> is_nan c = false /\ is_nan d = false.
Proof. destruct c, d; intros H; try discriminate H; split; reflexivity. Qed.

Lemma ltb_not_nan (c d : float) :
  (c <? d) = true -> is_nan c = false /\ is_nan d = false.
Proof. destruct c, d; intros H; try discriminate H; split; reflexivity. Qed.

(** The band of a distance that is at least zero. *)
Lemma band_of_distance (d : float) :
  (int0 <=? d) = true ->
  ((d <? int1) = true /\ speed_branch d = BranchBelow1)
  \/ ((int1 <=? d) = true /\ (d <? int2) = true /\ speed_branch d = Branch1To2)
  \/ ((int2 <=? d) = true /\ (d <? int3) = true /\ speed_branch d = Branch2To3)
  \/ ((int3 <=? d) = true /\ (d <? int4) = true /\ speed_branch d = Branch3To4)
  \/ ((int4 <=? d) = true /\ speed_branch d = BranchElse).
Proof.
  intros H0. destruct (leb_not_nan _ _ H0) as (_ & Hd).
  destruct (ltb_or_leb int1 d eq_refl Hd) as [L1 | G1];
    [left; split; [exact L1 | now apply band_0_1] | right].
  destruct (ltb_or_leb int2 d eq_refl Hd) as [L2 | G2];
    [left; repeat split; auto; now apply band_1_2 | right].
  destruct (ltb_or_leb int3 d eq_refl Hd) as [L3 | G3];
    [left; repeat split; auto; now apply band_2_3 | right].
  destruct (ltb_or_leb int4 d eq_refl Hd) as [L4 | G4];
    [left; repeat split; auto; now apply band_3_4 | right].
  split; [exact G4 | now apply band_over_4].
Qed.

(** The band of any float. *)
Lemma band_of_float (d : float) :
  (is_nan d = true /\ speed_branch d = BranchElse)
  \/ ((d <? int0) = true /\ speed_branch d = BranchNegative)
  \/ ((int0 <=? d) = true /\ (d <? int1) = true
      /\ speed_branch d = BranchBelow1)
  \/ ((int1 <=? d) = true /\ (d <? int2) = true /\ speed_branch d = Branch1To2)
  \/ ((int2 <=? d) = true /\ (d <? int3) = true /\ speed_branch d = Branch2To3)
  \/ ((int3 <=? d) = true /\ speed_branch d = Branch3To4)
  \/ ((int3 <=? d) = true /\ speed_branch d = BranchElse).
Proof.
  destruct (is_nan d) eqn:Hd.
  { left. split; [reflexivity |]. destruct d; try discriminate Hd. reflexivity. }
  right.
  destruct (ltb_or_leb int0 d eq_refl Hd) as [L0 | G0];
    [left; split; [exact L0 | now apply band_negative] | right].
  destruct (band_of_distance d G0)
    as [(L1 & B) | [(G1 & L2 & B) | [(G2 & L3 & B) | [(G3 & L4 & B) | (G4 & B)]]]];
    auto 10.
  do 4 right. split; [now apply at_least_4_at_least_3 | exact B].
Qed.

End SpeedGovernorOrder.

Section SpeedGovernorExtras.

Local Open Scope pyfloat_scope.

(** X1: From zero upwards the fraction never decreases with the distance: of
    two distances that are at least zero, the larger one gets a fraction
    that is at least that of the smaller one. *)
Theorem fraction_monotone_from_zero (d1 d2 : float) :
  (int0 <=? d1) = true -> (d1 <=? d2) = true ->
  (calculate_speed_fraction d1 <=? calculate_speed_fraction d2) = true.
Proof.
  intros H0 H12.
  assert (H0' : (int0 <=? d2) = true) by exact (leb_trans _ _ _ H0 H12).
  assert (Hno : forall c, (c <=? d1) = true -> (d2 <? c) = true -> False).
  { intros c Hc Hlt. pose proof (leb_not_ltb _ _ (leb_trans _ _ _ Hc H12)).
    congruence. }
  pose proof (at_least_2_at_least_1 d1) as U21.
  pose proof (at_least_3_at_least_2 d1) as U32.
  pose proof (at_least_4_at_least_3 d1) as U43.
  rewrite !calculate_speed_fraction_branch.
  destruct (band_of_distance d1 H0)
    as [(L1 & ->) | [(G1 & L2 & ->) | [(G2 & L3 & ->)
        | [(G3 & L4 & ->) | (G4 & ->)]]]];
    destruct (band_of_distance d2 H0')
      as [(L1' & ->) | [(G1' & L2' & ->) | [(G2' & L3' & ->)
          | [(G3' & L4' & ->) | (G4' & ->)]]]];
    try (vm_compute; reflexivity); exfalso; eauto 6.
Qed.

(** An instance: 1.5 m and 2.5 m. *)
Lemma fraction_monotone_from_zero_witness :
  (calculate_speed_fraction (lit "1.5")
   <=? calculate_speed_fraction (lit "2.5")) = true.
Proof.
  apply (fraction_monotone_from_zero (lit "1.5") (lit "2.5"));
    vm_compute; reflexivity.
Defined.

(** X2: Which distances get which fraction: the robot is stopped exactly for
    the distances in [[0, 1)] (minus zero included), gets 0.3 exactly on
    [[1, 2)] and 0.7 exactly on [[2, 3)], and is left at full speed exactly
    for the other floats: those below zero, those from 3 upwards, and
    NaN. *)
Theorem fraction_preimages (d : float) :
  (calculate_speed_fraction d = lit "0.0"
   <-> (int0 <=? d) = true /\ (d <? int1) = true)
  /\ (calculate_speed_fraction d = lit "0.3"
      <-> (int1 <=? d) = true /\ (d <? int2) = true)
  /\ (calculate_speed_fraction d = lit "0.7"
      <-> (int2 <=? d) = true /\ (d <? int3) = true)
  /\ (calculate_speed_fraction d = lit "1.0"
      <-> is_nan d = true \/ (d <? int0) = true \/ (int3 <=? d) = true).
Proof.
  rewrite calculate_speed_fraction_branch.
  assert (N : forall c, (c <=? d) = true -> (d <? c) = true -> False).
  { intros c G L. rewrite (leb_not_ltb _ _ G) in L. discriminate L. }
  pose proof (at_least_2_at_least_1 d) as U21.
  pose proof (at_least_3_at_least_2 d) as U32.
  pose proof (fun G => leb_trans int0 int1 d eq_refl G) as U10.
  destruct (band_of_float d)
    as [(E & ->) | [(L0 & ->) | [(G0 & L1 & ->) | [(G1 & L2 & ->)
        | [(G2 & L3 & ->) | [(G3 & ->) | (G3 & ->)]]]]]];
    (split; [| split; [| split]]); split; intros H.
  (* a value of the table that is not the one of the band *)
  all: try (match type of H with
            | branch_value ?b = ?v =>
                apply (f_equal (fun x => SFeqb x v)) in H;
                vm_compute in H; discriminate H
            end).
  (* the value of the band *)
  all: try (match goal with
            | |- branch_value ?b = ?v =>
                let t := eval vm_compute in (SFeqb (branch_value b) v) in
                match t with true => vm_compute; reflexivity end
            end).
  (* the conditions of the band *)
  all: try (clear H; auto 6; fail).
  (* conditions that contradict the band *)
  all: exfalso;
    repeat match type of H with
      | _ /\ _ => destruct H as (? & H)
      | _ \/ _ => destruct H as [H | H]
      end.
  all: try (match goal with
            | E1 : is_nan ?x = true, G : (_ <=? ?x) = true |- _ =>
                destruct (leb_not_nan _ _ G); congruence
            | E1 : is_nan ?x = true, L : (?x <? _) = true |- _ =>
                destruct (ltb_not_nan _ _ L); congruence
            end).
  all: eauto 8.
Qed.

End SpeedGovernorExtras.

(* ================================================================== *)
(** * Further properties of the controller thread *)

(** Runs the statements of the model on a symbolic state. *)
Ltac run_stmt :=
  cbv beta delta [bind ret raise get modify emit sleep call
                  is_connected stop_event_is_set deliver] iota;
  cbn [fst snd now trace distance_queue connected input_data
       current_distance previous_speed_fraction
       set_now set_trace set_distance_queue set_connected set_input_data
       set_current_distance set_previous_speed_fraction].

Section CommandFacts.

Local Open Scope stmt_scope.

Variable robot : Robot.
Variable stop_at : option Z.

Lemma quiet_sends (evs : list Event) : quiet evs -> sends evs = [].
Proof.
  unfold quiet. induction evs as [| e evs IH]; [reflexivity |].
  cbn [forallb]. intros H. apply andb_prop in H as (He & Hevs).
  destruct e; try discriminate He; cbn [sends flat_map app]; now apply IH.
Qed.

Lemma table_command_set_fraction (d : float) (obj : DataObject) :
  mask_set (Some obj) ->
  table_command (set_fraction (calculate_speed_fraction d) obj).
Proof.
  intros Hm. split; [| exact Hm].
  exists (calculate_speed_fraction d). split; [reflexivity |].
  apply table_fraction.
Qed.

Lemma mask_set_handshake (d : DataObject) :
  mask_set (Some (init_fraction (set_mask d))).
Proof.
  unfold mask_set, init_fraction, set_mask, set_fraction.
  destruct d as [[| m] [| f]]; cbn; auto.
Qed.

Lemma on_state_packet_commands (a k : nat) (s : State) :
  mask_set (input_data s) ->
  exists evs : list Event,
    trace (snd (on_state_packet robot a k s)) = trace s ++ evs
    /\ Forall table_command (sends evs)
    /\ mask_set (input_data (snd (on_state_packet robot a k s))).
Proof.
  intros Hm.
  destruct (on_state_packet_spec robot a k s)
    as (r & s' & Heq & _ & _ & _ & _ & Hclosed & Hopen).
  rewrite Heq. cbn [snd]. destruct (gate s) eqn:Hgate.
  - destruct (Hopen eq_refl) as (obj & Hobj & _ & Ht & Hi & _).
    rewrite Hobj in Hm.
    exists [Send (set_fraction (cycle_fraction s) obj)].
    split; [exact Ht |]. split.
    + cbn. constructor; [| constructor].
      now apply table_command_set_fraction.
    + rewrite Hi. exact Hm.
  - destruct (Hclosed eq_refl) as (_ & Ht & _ & Hi).
    exists []. rewrite app_nil_r, Hi. auto.
Qed.

Lemma cycle_body_commands (a k : nat) (s : State) :
  mask_set (input_data s) ->
  exists evs : list Event,
    trace (snd (cycle_body robot a k s)) = trace s ++ evs
    /\ Forall table_command (sends evs)
    /\ mask_set (input_data (snd (cycle_body robot a k s))).
Proof.
  intros Hm. unfold cycle_body. run_stmt.
  destruct (receive_outcome robot a k) as [| | e]; run_stmt.
  - match goal with |- context [on_state_packet robot a k ?s0] =>
      destruct (on_state_packet_commands a k s0 Hm) as (evs & Ht & Hs & Hi);
      destruct (on_state_packet robot a k s0) as [[[] | e |] s1]
    end; revert Ht Hs Hi; run_stmt; intros Ht Hs Hi.
    + exists (Receive :: evs ++ [Sleep (1000 / RTDE_FREQUENCY)]).
      split; [rewrite Ht, <- !app_assoc; reflexivity |].
      split; [| exact Hi].
      cbn [sends flat_map app]. fold (sends (evs ++ [Sleep (1000 / RTDE_FREQUENCY)])).
      rewrite sends_app. cbn. now rewrite app_nil_r.
    + exists (Receive :: evs).
      split; [rewrite Ht, <- !app_assoc; reflexivity |]. auto.
    + exists (Receive :: evs).
      split; [rewrite Ht, <- !app_assoc; reflexivity |]. auto.
  - exists [Receive; Sleep (1000 / RTDE_FREQUENCY)].
    split; [now rewrite <- app_assoc |]. split; [constructor | exact Hm].
  - exists [Receive]. split; [reflexivity |]. split; [constructor | exact Hm].
Qed.

Lemma cycle_loop_commands (fuel : nat) :
  forall (a k : nat) (s : State),
    mask_set (input_data s) ->
    exists evs : list Event,
      trace (snd (cycle_loop robot stop_at fuel a k s)) = trace s ++ evs
      /\ Forall table_command (sends evs).
Proof.
  induction fuel as [| fuel IH]; intros a k s Hm.
  - exists []. cbn. rewrite app_nil_r. auto.
  - cbn [cycle_loop]. run_stmt.
    destruct (is_set stop_at (now s)); run_stmt;
      [exists []; rewrite app_nil_r; auto |].
    destruct (connected s && link_up robot a k); run_stmt;
      [| exists []; rewrite app_nil_r; auto].
    match goal with |- context [cycle_body robot a k ?s0] =>
      destruct (cycle_body_commands a k s0 Hm) as (evs & Ht & Hs & Hi);
      destruct (cycle_body robot a k s0) as [[[] | e |] s1]
    end; revert Ht Hs Hi; run_stmt; intros Ht Hs Hi; eauto.
    destruct (IH a (S k) s1 Hi) as (evs' & Ht' & Hs').
    exists (evs ++ evs'). rewrite Ht', Ht, <- app_assoc, sends_app.
    split; [reflexivity |]. apply Forall_app. auto.
Qed.

(** What one turn of the outer loop hands to [con.send]. *)
Lemma attempt_commands (cycle_fuel a : nat) (s : State) :
  exists evs : list Event,
    trace (snd (attempt robot stop_at cycle_fuel a s)) = trace s ++ evs
    /\ Forall table_command (sends evs).
Proof.
  destruct (attempt_cases robot stop_at cycle_fuel a s)
    as [(evs & s' & Heq & Ht & Hq)
       | (_ & n & d & s3 & _ & _ & Ht3 & _ & _ & _ & Hi3 & Heq)];
    rewrite Heq.
  - exists (evs ++ [Sleep 30000]). split; [exact Ht |].
    rewrite sends_app, (quiet_sends evs Hq). constructor.
  - destruct (cycle_loop_commands cycle_fuel a 0 s3) as (cyc & Hcyc & Hs).
    { rewrite Hi3. apply mask_set_handshake. }
    destruct (cycle_loop robot stop_at cycle_fuel a 0 s3) as [r4 s4].
    cbn [snd] in Hcyc.
    assert (Hfin : exists fin,
               trace (snd (except_finally robot a (r4, s4))) = trace s4 ++ fin
               /\ sends fin = []).
    { destruct r4 as [[] | e |].
      - destruct (except_finally_spec robot a (Ret tt) s4)
          as (evs & s' & -> & Ht' & Hq & _); [discriminate |].
        exists (evs ++ [Sleep 30000]). split; [exact Ht' |].
        now rewrite sends_app, (quiet_sends evs Hq).
      - destruct (except_finally_spec robot a (Raise e) s4)
          as (evs & s' & -> & Ht' & Hq & _); [discriminate |].
        exists (evs ++ [Sleep 30000]). split; [exact Ht' |].
        now rewrite sends_app, (quiet_sends evs Hq).
      - exists []. cbn. now rewrite app_nil_r. }
    destruct Hfin as (fin & Hfin & Hnone).
    set (pre := (NewRTDE :: tries n ++ [Connect; LoadRecipe])
                ++ [SendInputSetup; SendOutputSetup RTDE_FREQUENCY; SendStart])
      in *.
    assert (Hpre : sends pre = []).
    { apply quiet_sends, quiet_app; [| reflexivity].
      apply (quiet_app [NewRTDE]); [reflexivity |].
      apply quiet_app; [apply quiet_tries | reflexivity]. }
    exists (pre ++ cyc ++ fin).
    split; [rewrite Hfin, Hcyc, Ht3, <- !app_assoc; reflexivity |].
    rewrite !sends_app, Hpre, Hnone, app_nil_r. exact Hs.
Qed.

Lemma outer_loop_commands (fuel : nat) :
  forall (cycle_fuel a : nat) (s : State),
    Forall table_command (sends (trace s)) ->
    Forall table_command
      (sends (trace (final_state (outer_loop robot stop_at fuel cycle_fuel a s)))).
Proof.
  induction fuel as [| fuel IH]; intros cycle_fuel a s Hs; cbn [outer_loop];
    destruct (is_set stop_at (now s)); auto.
  destruct (attempt_commands cycle_fuel a s) as (evs & Ht & Hevs).
  destruct (attempt robot stop_at cycle_fuel a s) as [[[] | e |] s'];
    cbn [snd] in Ht; cbn [final_state];
    try (rewrite Ht, sends_app; apply Forall_app; auto).
  apply IH. rewrite Ht, sends_app. apply Forall_app. auto.
Qed.

End CommandFacts.

Section CommandExtras.

(** X3: Whatever the robot answers, whatever reaches the queue (NaN, the
    infinities and negative values included) and whenever [stop_event] is
    set, every object the thread hands to [con.send] carries a fraction of
    the table (0.0, 0.3, 0.7 or 1.0) and, where the recipe has the mask, the
    mask 1. *)
Theorem every_command_is_of_the_table :
  forall (robot : Robot) (stop_at : option Z) (fuel cycle_fuel : nat),
    Forall table_command
      (sends (trace (final_state
                       (run_rtde_controller robot stop_at fuel cycle_fuel)))).
Proof.
  intros robot stop_at fuel cycle_fuel. unfold run_rtde_controller.
  apply outer_loop_commands. constructor.
Qed.

End CommandExtras.

(* ------------------------------------------------------------------ *)
(** ** The pace of the turns *)

Section PaceFacts.

Local Open Scope stmt_scope.

Variable robot : Robot.
Variable stop_at : option Z.

Lemma cycle_body_time (a k : nat) (s : State) :
  now s <= now (snd (cycle_body robot a k s)).
Proof.
  unfold cycle_body. run_stmt.
  change (1000 / RTDE_FREQUENCY) with 10.
  destruct (receive_outcome robot a k) as [| | e]; run_stmt; try lia.
  match goal with |- context [on_state_packet robot a k ?s0] =>
    destruct (on_state_packet_spec robot a k s0)
      as (r & s1 & Heq & _ & _ & Hn & _);
    rewrite Heq; revert Hn
  end.
  run_stmt. intros Hn. destruct r as [[] | e |]; run_stmt; lia.
Qed.

Lemma cycle_loop_time (fuel : nat) :
  forall (a k : nat) (s : State),
    now s <= now (snd (cycle_loop robot stop_at fuel a k s)).
Proof.
  induction fuel as [| fuel IH]; intros a k s; [cbn; lia |].
  cbn [cycle_loop]. run_stmt.
  destruct (is_set stop_at (now s)); run_stmt; [lia |].
  destruct (connected s && link_up robot a k); run_stmt; [| lia].
  match goal with |- context [cycle_body robot a k ?s0] =>
    pose proof (cycle_body_time a k s0) as Hb;
    destruct (cycle_body robot a k s0) as [[[] | e |] s1]
  end; revert Hb; run_stmt; intros Hb; try lia.
  specialize (IH a (S k) s1). lia.
Qed.

Lemma attempt_body_time (cycle_fuel a : nat) (s : State) :
  now s <= now (snd (attempt_body robot stop_at cycle_fuel a s)).
Proof.
  destruct (attempt_body_cases robot stop_at cycle_fuel a s)
    as (n & tail & s1 & _ & Hn & _ & _ & _ & _
        & [(_ & _ & _ & ->) | (_ & _ & _ & _ & [(e & _ & ->) | ->])]);
    cbn [snd now set_trace]; try lia.
  unfold bind.
  match goal with |- context [handshake robot a ?s2] =>
    destruct (handshake_spec robot a s2) as (r & s3 & -> & _ & Hn3 & _)
  end.
  revert Hn3. run_stmt. intros Hn3.
  destruct r as [[] | e |]; cbn [snd]; try lia.
  pose proof (cycle_loop_time cycle_fuel a 0 s3). lia.
Qed.

(** A turn that comes back to the head of the outer loop has taken at
    least the 30 s of its [finally] block. *)
Lemma attempt_time (cycle_fuel a : nat) (s : State) :
  match attempt robot stop_at cycle_fuel a s with
  | (Ret _, s') => now s + 30000 <= now s'
  | (_, s') => now s <= now s'
  end.
Proof.
  unfold attempt. pose proof (attempt_body_time cycle_fuel a s) as Hb.
  destruct (attempt_body robot stop_at cycle_fuel a s) as [r1 s1].
  cbn [snd] in Hb.
  destruct r1 as [[] | e |]; [| | exact Hb].
  - destruct (except_finally_spec robot a (Ret tt) s1)
      as (evs & s' & -> & _ & _ & Hn & _); [discriminate |].
    cbn [backoff] in Hn. lia.
  - destruct (except_finally_spec robot a (Raise e) s1)
      as (evs & s' & -> & _ & _ & Hn & _); [discriminate |].
    destruct e; cbn [backoff] in Hn; lia.
Qed.

Lemma outer_loop_time (fuel : nat) :
  forall (cycle_fuel a : nat) (s : State),
    match outer_loop robot stop_at fuel cycle_fuel a s with
    | ThreadEnded a' s' | StillRunning a' s' =>
        (a <= a')%nat
        /\ now s + 30000 * (Z.of_nat a' - Z.of_nat a) <= now s'
    | Crashed _ _ => False
    end.
Proof.
  induction fuel as [| fuel IH]; intros cycle_fuel a s; cbn [outer_loop];
    destruct (is_set stop_at (now s)); try (split; lia).
  pose proof (attempt_time cycle_fuel a s) as Ht.
  pose proof (attempt_ends robot stop_at cycle_fuel a s)
    as (r & s1 & Heq & [-> | ->] & _);
    rewrite Heq in *; [| split; lia].
  specialize (IH cycle_fuel (S a) s1).
  destruct (outer_loop robot stop_at fuel cycle_fuel (S a) s1); auto;
    destruct IH; split; lia.
Qed.

End PaceFacts.

Section PaceExtras.

(** X4: The thread never hurries its turns: when it has been through [n]
    turns of its outer loop (each one starting with a new RTDE object), at
    least [30 n] seconds have passed on its clock, whatever the robot and
    the queue did; and it is never ended by an exception. *)
Theorem turns_are_thirty_seconds_apart :
  forall (robot : Robot) (stop_at : option Z) (fuel cycle_fuel : nat),
    match run_rtde_controller robot stop_at fuel cycle_fuel with
    | ThreadEnded n s' | StillRunning n s' => 30000 * Z.of_nat n <= now s'
    | Crashed _ _ => False
    end.
Proof.
  intros robot stop_at fuel cycle_fuel. unfold run_rtde_controller.
  pose proof (outer_loop_time robot stop_at fuel cycle_fuel 0 initial_state)
    as H.
  destruct (outer_loop robot stop_at fuel cycle_fuel 0 initial_state);
    auto; destruct H as (_ & H); cbn [now initial_state] in H; lia.
Qed.

End PaceExtras.

(* ------------------------------------------------------------------ *)
(** ** Cycles without a state packet *)

Section IdleFacts.

Local Open Scope stmt_scope.

Variable robot : Robot.

Lemma idle_cycles_S (n : nat) :
  idle_cycles (S n) = [Receive; Sleep (1000 / RTDE_FREQUENCY)] ++ idle_cycles n.
Proof. reflexivity. Qed.

Lemma cycles_idle (n : nat) :
  forall (a k : nat) (s : State),
    (forall i, (i < n)%nat -> receive_outcome robot a (k + i) = NoPacket) ->
    exists s' : State,
      cycles robot n a k s = (Ret tt, s')
      /\ trace s' = trace s ++ idle_cycles n
      /\ distance_queue s' = distance_queue s ++ arrived robot a k n
      /\ current_distance s' = current_distance s
      /\ previous_speed_fraction s' = previous_speed_fraction s
      /\ input_data s' = input_data s
      /\ now s' = now s + 10 * Z.of_nat n.
Proof.
  induction n as [| n IH]; intros a k s Hidle.
  - exists s. cbn [cycles ret idle_cycles repeat List.concat arrived seq flat_map].
    rewrite !app_nil_r, Z.add_0_r. auto 8.
  - pose proof (Hidle 0%nat ltac:(lia)) as H0. rewrite Nat.add_0_r in H0.
    cbn [cycles]. unfold cycle_body. run_stmt. rewrite H0. run_stmt.
    match goal with |- context [cycles robot n a (S k) ?s1] =>
      destruct (IH a (S k) s1) as (s' & Heq & Ht & Hq & Hd & Hp & Hi & Hn)
    end.
    { intros i Hi. replace (S k + i)%nat with (k + S i)%nat by lia.
      apply Hidle. lia. }
    revert Ht Hq Hd Hp Hi Hn. run_stmt. intros Ht Hq Hd Hp Hi Hn.
    exists s'. split; [exact Heq |].
    split; [rewrite Ht, idle_cycles_S, <- !app_assoc; reflexivity |].
    split.
    { rewrite Hq, put_all_app, <- app_assoc. reflexivity. }
    repeat (split; [assumption |]).
    rewrite Hn. change (1000 / RTDE_FREQUENCY) with 10. lia.
Qed.

Lemma sends_idle_cycles (n : nat) : sends (idle_cycles n) = [].
Proof.
  induction n as [| n IH]; [reflexivity |].
  rewrite idle_cycles_S, sends_app. exact IH.
Qed.

End IdleFacts.

Section IdleExtras.

(** X5: While [con.receive()] returns no state packet the cycles go on at
    their pace, 10 ms each, and do nothing else: the queue is not drained,
    so every sample published in the meantime stays on it, oldest first,
    and nothing is computed or sent. *)
Theorem no_state_packet_no_consume :
  forall (robot : Robot) (n a k : nat) (s : State),
    (forall i, (i < n)%nat -> receive_outcome robot a (k + i) = NoPacket) ->
    exists s' : State,
      cycles robot n a k s = (Ret tt, s')
      /\ trace s' = trace s ++ idle_cycles n
      /\ sends (idle_cycles n) = []
      /\ distance_queue s' = distance_queue s ++ arrived robot a k n
      /\ current_distance s' = current_distance s
      /\ previous_speed_fraction s' = previous_speed_fraction s
      /\ now s' = now s + 10 * Z.of_nat n.
Proof.
  intros robot n a k s Hidle.
  destruct (cycles_idle robot n a k s Hidle)
    as (s' & Heq & Ht & Hq & Hd & Hp & _ & Hn).
  exists s'. split; [exact Heq |]. split; [exact Ht |].
  split; [apply sends_idle_cycles |]. auto.
Qed.

(** An instance: three cycles with a silent robot leave three samples on
    the queue. *)
Lemma no_state_packet_no_consume_witness :
  exists s' : State,
    cycles silent_robot 3 0 0 (after_handshake full_recipe_object)
    = (Ret tt, s')
    /\ distance_queue s' = [lit "0.5"; lit "0.5"; lit "0.5"]
    /\ now s' = 30.
Proof.
  destruct (no_state_packet_no_consume silent_robot 3 0 0
              (after_handshake full_recipe_object))
    as (s' & Heq & _ & _ & Hq & _ & _ & Hn).
  - reflexivity.
  - exists s'. split; [exact Heq |]. split; [exact Hq | exact Hn].
Defined.

End IdleExtras.

(* ------------------------------------------------------------------ *)
(** ** A connection that breaks *)

Section BrokenExchangeExtras.

Local Open Scope stmt_scope.
Local Open Scope pyfloat_scope.

(** X6: When [con.is_connected()] is false at the head of the cyclic loop the
    loop just ends: no exception, no back-off, and [finally], finding the
    link down, calls neither [send_pause] nor [disconnect]; the turn is
    over after the 30 s sleep. What had reached the queue stays on it. *)
Theorem lost_link_ends_the_turn_quietly :
  forall (robot : Robot) (stop_at : option Z) (fuel a k : nat) (s : State),
    is_set stop_at (now s) = false ->
    connected s && link_up robot a k = false ->
    exists s' : State,
      except_finally robot a (cycle_loop robot stop_at (S fuel) a k s)
      = (Ret tt, s')
      /\ trace s' = trace s ++ [Sleep 30000]
      /\ now s' = now s + 30000
      /\ distance_queue s' = distance_queue s ++ arrivals robot a k
      /\ current_distance s' = current_distance s
      /\ previous_speed_fraction s' = previous_speed_fraction s.
Proof.
  intros robot stop_at fuel a k s Hstop Hlink.
  cbn [cycle_loop]. run_stmt. rewrite Hstop. run_stmt. rewrite Hlink.
  unfold except_finally, teardown. run_stmt. cbn [andb].
  eexists. split; [reflexivity |]. run_stmt.
  rewrite put_all_app. auto 6.
Qed.

(** An instance: the link is lost after the first cycle. *)
Lemma lost_link_ends_the_turn_quietly_witness :
  exists s' : State,
    except_finally dropping_robot 0
      (cycle_loop dropping_robot None 5 0 1
         (after_handshake full_recipe_object))
    = (Ret tt, s')
    /\ trace s' = trace (after_handshake full_recipe_object) ++ [Sleep 30000]
    /\ now s' = 30000.
Proof.
  destruct (lost_link_ends_the_turn_quietly dropping_robot None 4 0 1
              (after_handshake full_recipe_object) eq_refl eq_refl)
    as (s' & Heq & Ht & Hn & _).
  exists s'. split; [exact Heq |]. split; [exact Ht | exact Hn].
Defined.

(** X7: An exception of [con.receive()] or of [con.send()] ends the turn, not
    the thread. The 10 ms pause of the cycle is skipped; the matching
    handler sleeps (10 s for [ConnectionRefusedError], 5 s otherwise);
    [finally] asks [con.is_connected()] again: if the link is still up
    it calls [send_pause] and, unless that raises as well, [disconnect];
    if the call that raised has dropped the link it calls neither; then
    it sleeps its 30 s. When it was [con.send()] that raised, the
    fraction is not recorded as sent: it still differs from
    [previous_speed_fraction] after the turn. *)
Theorem exception_in_the_exchange :
  forall (robot : Robot) (stop_at : option Z) (fuel a k : nat) (s : State)
         (e : Exn),
    is_set stop_at (now s) = false ->
    connected s = true ->
    link_up robot a k = true ->
    let s0 := set_distance_queue
                (Queue.put_all (distance_queue s) (arrivals robot a k)) s in
    (receive_outcome robot a k = ReceiveRaises e ->
     exists s' : State,
       except_finally robot a (cycle_loop robot stop_at (S fuel) a k s)
       = (Ret tt, s')
       /\ trace s'
          = trace s ++ [Receive; Sleep (backoff (Raise e))]
              ++ release robot a ++ [Sleep 30000]
       /\ now s' = now s + backoff (Raise e) + 30000
       /\ distance_queue s' = distance_queue s0
       /\ previous_speed_fraction s' = previous_speed_fraction s)
    /\ (receive_outcome robot a k = StatePacket ->
        gate s0 = true ->
        send_outcome robot a k = Raised e ->
        exists (obj : DataObject) (s' : State),
          input_data s = Some obj
          /\ except_finally robot a (cycle_loop robot stop_at (S fuel) a k s)
             = (Ret tt, s')
          /\ trace s'
             = trace s
                 ++ [Receive; Send (set_fraction (cycle_fraction s0) obj);
                     Sleep (backoff (Raise e))]
                 ++ release robot a ++ [Sleep 30000]
          /\ now s' = now s + backoff (Raise e) + 30000
          /\ previous_speed_fraction s' = previous_speed_fraction s
          /\ cycle_fraction s' = cycle_fraction s0
          /\ (cycle_fraction s' !=? previous_speed_fraction s') = true).
Proof.
  intros robot stop_at fuel a k s e Hstop Hc Hlink s0. split.
  - intros Hrecv. cbn [cycle_loop]. unfold cycle_body. run_stmt.
    rewrite Hstop. run_stmt. rewrite Hc, Hlink, Hrecv. cbn [andb]. run_stmt.
    unfold except_finally, teardown, release.
    destruct e; run_stmt; cbn [andb];
      destruct (link_at_finally robot a); run_stmt;
      try (destruct (pause_outcome robot a) as [[] | e']; run_stmt);
      eexists; (split; [reflexivity |]); run_stmt; cbn [backoff];
      rewrite <- ?app_assoc; cbn [app]; repeat split; lia.
  - intros Hrecv Hgate Hsend. subst s0.
    set (q := Queue.put_all (distance_queue s) (arrivals robot a k)) in *.
    assert (Hdiff : (cycle_fraction (set_distance_queue q s)
                     !=? previous_speed_fraction s) = true).
    { revert Hgate. rewrite gate_has_slider. intros H.
      apply andb_prop in H. exact (proj2 H). }
    cbn [cycle_loop]. unfold cycle_body. run_stmt. fold q.
    rewrite Hstop. run_stmt. fold q. rewrite Hc, Hlink, Hrecv. cbn [andb].
    match goal with |- context [on_state_packet robot a k ?X] =>
      destruct (on_state_packet_spec robot a k X)
        as (r & s1 & Heq & Hd & Hq & Hn & Hc1 & _ & Hopen)
    end.
    destruct Hopen as (obj & Hobj & Hattr & Ht1 & Hi1 & Hout).
    { revert Hgate. unfold gate, cycle_fraction. run_stmt. auto. }
    rewrite Hsend in Hout. destruct Hout as (-> & Hp1).
    rewrite Heq.
    revert Hd Hq Hn Hc1 Ht1 Hi1 Hp1 Hobj Hdiff. unfold cycle_fraction.
    run_stmt. intros Hd Hq Hn Hc1 Ht1 Hi1 Hp1 Hobj Hdiff.
    exists obj.
    unfold except_finally, teardown, release.
    destruct e; run_stmt; rewrite Hc1; cbn [andb];
      destruct (link_at_finally robot a); run_stmt;
      try (destruct (pause_outcome robot a) as [[] | e']; run_stmt);
      eexists; (split; [exact Hobj |]); (split; [reflexivity |]); run_stmt;
      cbn [backoff]; rewrite Ht1, Hq, Hd, Hp1, <- ?app_assoc; cbn [app];
      rewrite !consume_latest_last; cbn [fst last Queue.new];
      (split; [reflexivity |]); (split; [lia |]);
      (split; [reflexivity |]); (split; [reflexivity |]);
      revert Hdiff; rewrite !consume_latest_last; cbn [fst]; auto.
Qed.

(** Instances: [receive] raises in the second cycle, with the link still
    up in [finally], and with the link down; [send] raises in the first
    cycle, and [send_pause] after it. *)
Lemma exception_in_the_exchange_witness :
  (exists s' : State,
     except_finally failing_receive_robot 0
       (cycle_loop failing_receive_robot None 5 0 1
          (after_handshake full_recipe_object))
     = (Ret tt, s')
     /\ trace s'
        = trace (after_handshake full_recipe_object)
            ++ [Receive; Sleep 5000; SendPause; Disconnect; Sleep 30000])
  /\ (exists s' : State,
        except_finally vanishing_robot 0
          (cycle_loop vanishing_robot None 5 0 1
             (after_handshake full_recipe_object))
        = (Ret tt, s')
        /\ trace s'
           = trace (after_handshake full_recipe_object)
               ++ [Receive; Sleep 5000; Sleep 30000])
  /\ (exists s' : State,
        except_finally failing_send_robot 0
          (cycle_loop failing_send_robot None 5 0 0
             (after_handshake full_recipe_object))
        = (Ret tt, s')
        /\ sends (trace s')
           = [mkData (Present (Some 1)) (Present (Some (lit "1.0")))]
        /\ previous_speed_fraction s' = SFopp (lit "1.0")).
Proof.
  split; [| split].
  - destruct (exception_in_the_exchange failing_receive_robot None 4 0 1
                (after_handshake full_recipe_object) OtherException
                eq_refl eq_refl eq_refl)
      as ((s' & Heq & Ht & _) & _); [reflexivity |].
    exists s'. split; [exact Heq | exact Ht].
  - destruct (exception_in_the_exchange vanishing_robot None 4 0 1
                (after_handshake full_recipe_object) OtherException
                eq_refl eq_refl eq_refl)
      as ((s' & Heq & Ht & _) & _); [reflexivity |].
    exists s'. split; [exact Heq | exact Ht].
  - destruct (exception_in_the_exchange failing_send_robot None 4 0 0
                (after_handshake full_recipe_object) OtherException
                eq_refl eq_refl eq_refl)
      as (_ & Hsend).
    destruct Hsend as (obj & s' & Hobj & Heq & Ht & _ & Hp & _);
      [reflexivity | vm_compute; reflexivity | reflexivity |].
    exists s'. split; [exact Heq |]. split; [| exact Hp].
    injection Hobj as <-. rewrite Ht. vm_compute. reflexivity.
Defined.

End BrokenExchangeExtras.

(* ------------------------------------------------------------------ *)
(** ** A session with a robot that answers *)

Section SessionFacts.

Local Open Scope stmt_scope.

Variable robot : Robot.
Variable stop_at : option Z.

Lemma cycle_body_returns (a k : nat) (s s1 : State) :
  cycle_body robot a k s = (Ret tt, s1) ->
  now s1 = now s + 10 /\ connected s1 = connected s.
Proof.
  unfold cycle_body. run_stmt. change (1000 / RTDE_FREQUENCY) with 10.
  destruct (receive_outcome robot a k) as [| | e]; run_stmt.
  - match goal with |- context [on_state_packet robot a k ?s0] =>
      destruct (on_state_packet_spec robot a k s0)
        as (r & s2 & Heq & _ & _ & Hn & Hc & _);
      rewrite Heq; revert Hn Hc
    end.
    run_stmt. intros Hn Hc.
    destruct r as [[] | e |]; intros H; inversion H; subst; run_stmt;
      split; [lia | assumption].
  - intros H. inversion H; subst. run_stmt. auto.
  - discriminate.
Qed.

Lemma set_connected_same (s : State) :
  connected s = true -> set_connected true s = s.
Proof. destruct s. cbn. now intros ->. Qed.

(** As long as [stop_event] is not set and the link is up, the loop goes
    through its cycles one after the other. *)
Lemma cycle_loop_unroll (n : nat) :
  forall (fuel a k : nat) (s s1 : State),
    connected s = true ->
    (forall i, (i < n)%nat -> link_up robot a (k + i) = true) ->
    (forall i, (i < n)%nat ->
       is_set stop_at (now s + 10 * Z.of_nat i) = false) ->
    cycles robot n a k s = (Ret tt, s1) ->
    cycle_loop robot stop_at (n + fuel) a k s
    = cycle_loop robot stop_at fuel a (k + n) s1
    /\ now s1 = now s + 10 * Z.of_nat n
    /\ connected s1 = true.
Proof.
  induction n as [| n IH]; intros fuel a k s s1 Hc Hlink Hstop Hcyc.
  - cbn in Hcyc. inversion Hcyc; subst.
    rewrite Nat.add_0_r, Z.add_0_r. auto.
  - pose proof (Hlink 0%nat ltac:(lia)) as Hl0.
    pose proof (Hstop 0%nat ltac:(lia)) as Hs0.
    rewrite Nat.add_0_r in Hl0. rewrite Z.add_0_r in Hs0.
    revert Hcyc. cbn [cycles Nat.add cycle_loop]. run_stmt.
    rewrite Hs0. run_stmt. rewrite Hc, Hl0. cbn [andb].
    set (s0 := set_distance_queue
                 (Queue.put_all (distance_queue s) (arrivals robot a k)) s).
    rewrite (set_connected_same s0 Hc).
    destruct (cycle_body robot a k s0) as [[[] | e |] sm] eqn:Hb;
      try discriminate.
    destruct (cycle_body_returns a k s0 sm Hb) as (Hn & Hcm).
    intros Hcyc.
    destruct (IH fuel a (S k) sm s1) as (Heq & Hn1 & Hc1); auto.
    { rewrite Hcm. exact Hc. }
    { intros i Hi. replace (S k + i)%nat with (k + S i)%nat by lia.
      apply Hlink. lia. }
    { intros i Hi. rewrite Hn. cbn [s0 now set_distance_queue].
      replace (now s + 10 + 10 * Z.of_nat i)
        with (now s + 10 * Z.of_nat (S i)) by lia.
      apply Hstop. lia. }
    rewrite Heq. replace (S k + n)%nat with (k + S n)%nat by lia.
    split; [reflexivity |]. split; [| exact Hc1].
    rewrite Hn1, Hn. cbn [s0 now set_distance_queue]. lia.
Qed.

(** Cycles that get their state packet and whose sends return all
    return. *)
Lemma cycles_return (n : nat) :
  forall (a k : nat) (s : State),
    (forall i, (i < n)%nat ->
       receive_outcome robot a (k + i) = StatePacket
       /\ send_outcome robot a (k + i) = Returned tt) ->
    exists s1 : State, cycles robot n a k s = (Ret tt, s1).
Proof.
  induction n as [| n IH]; intros a k s Hok; [exists s; reflexivity |].
  destruct (Hok 0%nat ltac:(lia)) as (Hrecv & Hsend).
  rewrite Nat.add_0_r in Hrecv, Hsend.
  cbn [cycles]. unfold cycle_body. run_stmt. rewrite Hrecv.
  match goal with |- context [on_state_packet robot a k ?s0] =>
    destruct (on_state_packet_spec robot a k s0)
      as (r & s2 & Heq & _ & _ & _ & _ & Hclosed & Hopen);
    rewrite Heq; destruct (gate s0)
  end.
  - destruct (Hopen eq_refl) as (obj & _ & _ & _ & _ & Hout).
    rewrite Hsend in Hout. destruct Hout as (-> & _). run_stmt.
    apply IH. intros i Hi. replace (S k + i)%nat with (k + S i)%nat by lia.
    apply Hok. lia.
  - destruct (Hclosed eq_refl) as (-> & _). run_stmt.
    apply IH. intros i Hi. replace (S k + i)%nat with (k + S i)%nat by lia.
    apply Hok. lia.
Qed.

End SessionFacts.

Section SessionExtras.

Local Open Scope stmt_scope.

Lemma cycles_before_spec (t0 : Z) :
  0 < t0 ->
  t0 <= 10 * Z.of_nat (cycles_before t0) < t0 + 10.
Proof.
  intros Hpos. unfold cycles_before.
  rewrite Z2Nat.id by (apply Z.div_pos; lia).
  pose proof (Z.div_mod (t0 + 9) 10 ltac:(lia)).
  pose proof (Z.mod_pos_bound (t0 + 9) 10 ltac:(lia)). lia.
Qed.

(** The single turn of a thread whose robot answers every call. *)
Lemma obliging_session :
  forall (robot : Robot) (d : DataObject) (t0 : Z) (fuel cycle_fuel : nat),
    obliging robot d ->
    0 < t0 ->
    (cycles_before t0 < cycle_fuel)%nat ->
    exists s1 s' : State,
      cycles robot (cycles_before t0) 0 0 (after_handshake d) = (Ret tt, s1)
      /\ run_rtde_controller robot (Some t0) (S fuel) cycle_fuel
         = ThreadEnded 1 s'
      /\ trace s' = trace s1 ++ [SendPause; Disconnect; Sleep 30000]
      /\ now s1 = 10 * Z.of_nat (cycles_before t0)
      /\ t0 <= now s1 < t0 + 10
      /\ now s' = now s1 + 30000
      /\ (hasattr (speed_slider_fraction d) = true ->
          sends (trace s')
          = map (fun f => set_fraction f (init_fraction (set_mask d)))
              (gated (SFopp (lit "1.0"))
                 (computed robot (cycles_before t0) 0 0 Queue.new
                    (SFopp (lit "1.0"))))).
Proof.
  intros robot d t0 fuel cycle_fuel
    (Hconn & Hload & Hin & Hout & Hstart & Hlink & Hrecv & Hsend & Hpause
     & Hfin)
    Hpos Hfuel.
  pose proof (cycles_before_spec t0 Hpos) as Hn.
  set (n := cycles_before t0) in *.
  destruct (cycles_return robot n 0 0 (after_handshake d)) as (s1 & Hcyc).
  { intros i _. auto. }
  destruct (cycle_loop_unroll robot (Some t0) n (cycle_fuel - n) 0 0
              (after_handshake d) s1)
    as (Hloop & Hn1 & Hc1); auto.
  { intros i Hi. cbn [now after_handshake is_set]. apply Z.leb_gt. lia. }
  replace (n + (cycle_fuel - n))%nat with cycle_fuel in Hloop by lia.
  cbn [now after_handshake] in Hn1. rewrite Z.add_0_l in Hn1.
  assert (Hstop : is_set (Some t0) (now s1) = true).
  { cbn [is_set]. apply Z.leb_le. lia. }
  assert (Hturn : attempt robot (Some t0) cycle_fuel 0 initial_state
                  = teardown robot 0
                      (set_distance_queue
                         (Queue.put_all (distance_queue s1)
                            (arrivals robot 0 (0 + n))) s1)).
  { unfold attempt, attempt_body. cbn [connection_loop MAX_RETRIES Nat.leb].
    run_stmt. cbn [initial_state now is_set].
    replace (t0 <=? 0) with false by (symmetry; apply Z.leb_gt; lia).
    cbn [negb andb]. rewrite Hconn. run_stmt. rewrite Hload. run_stmt.
    unfold handshake. run_stmt. rewrite Hin. run_stmt. rewrite Hout.
    run_stmt. cbn [negb]. rewrite Hstart. run_stmt. cbn [negb].
    change (cycle_loop robot (Some t0) cycle_fuel 0 0 _)
      with (cycle_loop robot (Some t0) cycle_fuel 0 0 (after_handshake d)).
    rewrite Hloop.
    destruct (cycle_fuel - n)%nat as [| f] eqn:Hf; [lia |].
    cbn [cycle_loop]. run_stmt. rewrite Hstop. reflexivity. }
  revert Hturn. unfold teardown. run_stmt. rewrite Hc1, Hfin, Hpause.
  cbn [andb]. run_stmt. intros Hturn.
  eexists s1, _. split; [exact Hcyc |].
  split.
  { unfold run_rtde_controller. cbn [outer_loop initial_state now is_set].
    replace (t0 <=? 0) with false by (symmetry; apply Z.leb_gt; lia).
    change (mkState 0 [] Queue.new false None (SFopp (lit "1.0"))
              (SFopp (lit "1.0"))) with initial_state.
    rewrite Hturn.
    destruct fuel; cbn [outer_loop is_set now set_now];
      replace (t0 <=? now s1 + 30000) with true
        by (symmetry; apply Z.leb_le; lia);
      reflexivity. }
  run_stmt. rewrite <- !app_assoc. cbn [app].
  split; [reflexivity |]. split; [exact Hn1 |]. split; [lia |].
  split; [reflexivity |].
  intros Hattr.
  destruct (cycles_send_on_change robot n 0 0 (after_handshake d)
              (init_fraction (set_mask d)))
    as (evs & s2 & Heq & Ht & Hs & _); auto.
  { destruct d as [[| m] [| f]]; try discriminate Hattr; reflexivity. }
  rewrite Heq in Hcyc. injection Hcyc as <-.
  rewrite Ht. cbn [trace after_handshake]. rewrite !sends_app.
  cbn [sends flat_map app]. rewrite app_nil_r. exact Hs.
Qed.

(** X8: With a robot that accepts the connection and the handshake, answers
    every [receive] with a state packet and lets every call return, and
    with [stop_event] set [t0] ms after the thread started: the thread
    connects at its first try, runs one cycle every 10 ms, sees the event
    at the head of its loop less than 10 ms after it was set, calls
    [send_pause] and [disconnect] at once, sleeps its 30 s and returns
    after this single turn. When the recipe has the slider field, what it
    sent in between is what change detection lets through of the
    fractions computed, cycle after cycle. *)
Theorem session_with_an_obliging_robot :
  forall (robot : Robot) (d : DataObject) (t0 : Z) (fuel cycle_fuel : nat),
    obliging robot d ->
    0 < t0 ->
    (cycles_before t0 < cycle_fuel)%nat ->
    exists s1 s' : State,
      cycles robot (cycles_before t0) 0 0 (after_handshake d) = (Ret tt, s1)
      /\ run_rtde_controller robot (Some t0) (S fuel) cycle_fuel
         = ThreadEnded 1 s'
      /\ trace s' = trace s1 ++ [SendPause; Disconnect; Sleep 30000]
      /\ now s1 = 10 * Z.of_nat (cycles_before t0)
      /\ t0 <= now s1 < t0 + 10
      /\ now s' = now s1 + 30000
      /\ (hasattr (speed_slider_fraction d) = true ->
          sends (trace s')
          = map (fun f => set_fraction f (init_fraction (set_mask d)))
              (gated (SFopp (lit "1.0"))
                 (computed robot (cycles_before t0) 0 0 Queue.new
                    (SFopp (lit "1.0"))))).
Proof.
  intros robot d t0 fuel cycle_fuel Hrobot Hpos Hfuel.
  destruct (obliging_session robot d t0 fuel cycle_fuel Hrobot Hpos Hfuel)
    as (s1 & s' & Hsession).
  exists s1, s'. exact Hsession.
Qed.

(** An instance: the person who walks towards the robot, and a quit after
    35 ms. *)
Lemma session_with_an_obliging_robot_witness :
  exists s' : State,
    run_rtde_controller approaching_robot (Some 35) 1 5 = ThreadEnded 1 s'
    /\ now s' = 30040
    /\ sends (trace s')
       = map (fun f => mkData (Present (Some 1)) (Present (Some f)))
           [lit "1.0"; lit "0.3"; lit "0.0"].
Proof.
  destruct (session_with_an_obliging_robot approaching_robot
              full_recipe_object 35 0 5)
    as (s1 & s' & _ & Hrun & _ & Hn1 & _ & Hn & Hs).
  - repeat split.
  - reflexivity.
  - vm_compute. lia.
  - exists s'. split; [exact Hrun |].
    split; [rewrite Hn, Hn1; reflexivity |].
    rewrite (Hs eq_refl). vm_compute. reflexivity.
Defined.

End SessionExtras.

(* ------------------------------------------------------------------ *)
(** ** What the robot has been told *)

Section TrackingFacts.

Local Open Scope stmt_scope.
Local Open Scope pyfloat_scope.

Variable robot : Robot.

Lemma last_app_default (xs ys : list float) (d : float) :
  last (xs ++ ys) d = last ys (last xs d).
Proof.
  revert d. induction xs as [| x xs IH]; intros d; [reflexivity |].
  cbn [app]. rewrite !last_cons. apply IH.
Qed.

Lemma arrived_S (a k n : nat) :
  arrived robot a k (S n) = arrivals robot a k ++ arrived robot a (S k) n.
Proof. reflexivity. Qed.

(** The fraction computed by the last of [S n] cycles is that of the
    sample published last. *)
Lemma computed_last (n : nat) :
  forall (a k : nat) (q : Queue.t) (d : float),
  exists xs : list float,
    computed robot (S n) a k q d
    = xs ++ [calculate_speed_fraction
               (last (q ++ arrived robot a k (S n)) d)]
    /\ Forall table xs.
Proof.
  induction n as [| n IH]; intros a k q d.
  - exists []. cbn [computed]. rewrite consume_latest_last, put_all_app.
    cbn [arrived seq flat_map app]. rewrite app_nil_r. auto.
  - destruct (IH a (S k) Queue.new
                (last (q ++ arrivals robot a k) d)) as (xs & Heq & Hxs).
    exists (calculate_speed_fraction (last (q ++ arrivals robot a k) d) :: xs).
    split.
    + change (computed robot (S (S n)) a k q d)
        with (let '(d', q') :=
                consume_latest (Queue.put_all q (arrivals robot a k)) d in
              calculate_speed_fraction d'
                :: computed robot (S n) a (S k) q' d').
      rewrite consume_latest_last, put_all_app, Heq.
      cbn [app Queue.new]. rewrite (arrived_S a k (S n)), app_assoc.
      rewrite (last_app_default (q ++ arrivals robot a k)). reflexivity.
    + constructor; [apply table_fraction | exact Hxs].
Qed.

Lemma cycles_step (n a k : nat) (s : State) :
  cycles robot (S n) a k s
  = (deliver robot a k ;; cycle_body robot a k ;; cycles robot n a (S k)) s.
Proof. reflexivity. Qed.

(** The distance in use after [S n] cycles that got a state packet. *)
Lemma cycles_track (n : nat) :
  forall (a k : nat) (s s' : State),
    (forall i, (i < S n)%nat ->
       receive_outcome robot a (k + i) = StatePacket) ->
    cycles robot (S n) a k s = (Ret tt, s') ->
    current_distance s'
    = last (distance_queue s ++ arrived robot a k (S n)) (current_distance s)
    /\ distance_queue s' = Queue.new.
Proof.
  induction n as [| n IH]; intros a k s s' Hrecv;
    pose proof (Hrecv 0%nat ltac:(lia)) as H0; rewrite Nat.add_0_r in H0;
    rewrite cycles_step; unfold cycle_body; run_stmt; rewrite H0;
    match goal with |- context [on_state_packet robot a k ?s0] =>
      destruct (on_state_packet_spec robot a k s0)
        as (r & s1 & Heq & Hd & Hq & _);
      rewrite Heq; revert Hd Hq
    end;
    run_stmt; rewrite consume_latest_last, put_all_app; cbn [fst];
    intros Hd Hq; destruct r as [[] | e |]; try discriminate; run_stmt.
  - cbn [cycles ret]. intros H. inversion H; subst. run_stmt.
    cbn [arrived seq flat_map]. rewrite app_nil_r. auto.
  - intros Hcyc. apply IH in Hcyc.
    + revert Hcyc. run_stmt. rewrite Hd, Hq. cbn [Queue.new app].
      intros (Hcd & Hqs). split; [| exact Hqs].
      rewrite Hcd, (arrived_S a k (S n)), app_assoc.
      now rewrite (last_app_default (distance_queue s ++ arrivals robot a k)).
    + intros i Hi. replace (S k + i)%nat with (k + S i)%nat by lia.
      apply Hrecv. lia.
Qed.

End TrackingFacts.

Section TrackingExtras.

Local Open Scope pyfloat_scope.

(** X9: After any number of cycles that got their state packet and whose
    sends returned, with the slider field in the recipe, the controller is
    in step with the queue: the queue is empty, [current_distance] is the
    sample published last (or the distance it had, if none was), and the
    fraction last handed to the robot, [previous_speed_fraction], is the
    fraction of that distance. *)
Theorem robot_is_told_the_latest_fraction :
  forall (robot : Robot) (n a k : nat) (s : State) (obj : DataObject),
    input_data s = Some obj ->
    hasattr (speed_slider_fraction obj) = true ->
    known (previous_speed_fraction s) ->
    (forall i, (i < S n)%nat ->
       receive_outcome robot a (k + i) = StatePacket
       /\ send_outcome robot a (k + i) = Returned tt) ->
    exists s' : State,
      cycles robot (S n) a k s = (Ret tt, s')
      /\ distance_queue s' = Queue.new
      /\ current_distance s'
         = last (distance_queue s ++ arrived robot a k (S n))
             (current_distance s)
      /\ previous_speed_fraction s'
         = calculate_speed_fraction (current_distance s').
Proof.
  intros robot n a k s obj Hdata Hattr Hknown Hok.
  destruct (cycles_send_on_change robot (S n) a k s obj Hdata Hattr Hok)
    as (evs & s' & Heq & _ & _ & Hp).
  destruct (cycles_track robot n a k s s') as (Hd & Hq); [| exact Heq |].
  { intros i Hi. apply Hok, Hi. }
  exists s'. split; [exact Heq |]. split; [exact Hq |].
  split; [exact Hd |].
  destruct (computed_last robot n a k (distance_queue s) (current_distance s))
    as (xs & Hc & Hxs).
  rewrite Hp, Hc, Hd.
  apply last_gated_snoc; auto. apply table_fraction.
Qed.

(** An instance: the four cycles of the person who walks towards the
    robot; the last sample is 0.5 m and the robot has been told to
    stop. *)
Lemma robot_is_told_the_latest_fraction_witness :
  exists s' : State,
    cycles approaching_robot 4 0 0 (after_handshake full_recipe_object)
    = (Ret tt, s')
    /\ current_distance s' = lit "0.5"
    /\ previous_speed_fraction s' = lit "0.0".
Proof.
  destruct (robot_is_told_the_latest_fraction approaching_robot 3 0 0
              (after_handshake full_recipe_object)
              (init_fraction (set_mask full_recipe_object)))
    as (s' & Heq & _ & Hd & Hp).
  - reflexivity.
  - reflexivity.
  - left. reflexivity.
  - intros i _. split; reflexivity.
  - exists s'. split; [exact Heq |].
    assert (E : current_distance s' = lit "0.5").
    { rewrite Hd. vm_compute. reflexivity. }
    split; [exact E |]. rewrite Hp, E. vm_compute. reflexivity.
Defined.

End TrackingExtras.

(* ------------------------------------------------------------------ *)
(** ** The fraction held as sent last *)

Section SentLastFacts.

Local Open Scope stmt_scope.

Variable robot : Robot.
Variable stop_at : option Z.

Lemma on_state_packet_known (a k : nat) (s : State) :
  known (previous_speed_fraction s) ->
  known (previous_speed_fraction (snd (on_state_packet robot a k s))).
Proof.
  intros Hk.
  destruct (on_state_packet_spec robot a k s)
    as (r & s' & Heq & _ & _ & _ & _ & Hclosed & Hopen).
  rewrite Heq. cbn [snd]. destruct (gate s).
  - destruct (Hopen eq_refl) as (obj & _ & _ & _ & _ & Hout).
    destruct (send_outcome robot a k) as [[] | e]; destruct Hout as (_ & ->);
      [right; apply table_fraction | exact Hk].
  - destruct (Hclosed eq_refl) as (_ & _ & -> & _). exact Hk.
Qed.

Lemma cycle_body_known (a k : nat) (s : State) :
  known (previous_speed_fraction s) ->
  known (previous_speed_fraction (snd (cycle_body robot a k s))).
Proof.
  intros Hk. unfold cycle_body. run_stmt.
  destruct (receive_outcome robot a k) as [| | e]; run_stmt; auto.
  match goal with |- context [on_state_packet robot a k ?s0] =>
    pose proof (on_state_packet_known a k s0 Hk) as H;
    destruct (on_state_packet robot a k s0) as [[[] | e |] s1]
  end; exact H.
Qed.

Lemma cycle_loop_known (fuel : nat) :
  forall (a k : nat) (s : State),
    known (previous_speed_fraction s) ->
    known (previous_speed_fraction (snd (cycle_loop robot stop_at fuel a k s))).
Proof.
  induction fuel as [| fuel IH]; intros a k s Hk; [exact Hk |].
  cbn [cycle_loop]. run_stmt.
  destruct (is_set stop_at (now s)); run_stmt; [exact Hk |].
  destruct (connected s && link_up robot a k); run_stmt; [| exact Hk].
  match goal with |- context [cycle_body robot a k ?s0] =>
    pose proof (cycle_body_known a k s0 Hk) as H;
    destruct (cycle_body robot a k s0) as [[[] | e |] s1]
  end; cbn [snd] in *; auto.
Qed.

Lemma attempt_known (cycle_fuel a : nat) (s : State) :
  known (previous_speed_fraction s) ->
  known (previous_speed_fraction (snd (attempt robot stop_at cycle_fuel a s))).
Proof.
  intros Hk. unfold attempt.
  assert (Hbody : known (previous_speed_fraction
                           (snd (attempt_body robot stop_at cycle_fuel a s)))).
  { destruct (attempt_body_cases robot stop_at cycle_fuel a s)
      as (n & tail & s1 & _ & _ & (_ & _ & Hp) & _ & _ & _
          & [(_ & _ & _ & ->) | (_ & _ & _ & _ & [(e & _ & ->) | ->])]);
      cbn [snd previous_speed_fraction set_trace]; try (rewrite Hp; exact Hk).
    unfold bind.
    match goal with |- context [handshake robot a ?s2] =>
      destruct (handshake_spec robot a s2)
        as (r & s3 & -> & _ & _ & _ & (_ & _ & Hp3) & _)
    end.
    revert Hp3. run_stmt. intros Hp3.
    destruct r as [[] | e |]; cbn [snd]; try (rewrite Hp3, Hp; exact Hk).
    apply cycle_loop_known. rewrite Hp3, Hp. exact Hk. }
  destruct (attempt_body robot stop_at cycle_fuel a s) as [r1 s1].
  cbn [snd] in Hbody.
  destruct r1 as [[] | e |]; [| | exact Hbody].
  - destruct (except_finally_spec robot a (Ret tt) s1)
      as (evs & s' & -> & _ & _ & _ & (_ & _ & Hp) & _); [discriminate |].
    cbn [snd]. rewrite Hp. exact Hbody.
  - destruct (except_finally_spec robot a (Raise e) s1)
      as (evs & s' & -> & _ & _ & _ & (_ & _ & Hp) & _); [discriminate |].
    cbn [snd]. rewrite Hp. exact Hbody.
Qed.

Lemma outer_loop_known (fuel : nat) :
  forall (cycle_fuel a : nat) (s : State),
    known (previous_speed_fraction s) ->
    known (previous_speed_fraction
             (final_state (outer_loop robot stop_at fuel cycle_fuel a s))).
Proof.
  induction fuel as [| fuel IH]; intros cycle_fuel a s Hk; cbn [outer_loop];
    destruct (is_set stop_at (now s)); auto.
  pose proof (attempt_known cycle_fuel a s Hk) as H.
  destruct (attempt robot stop_at cycle_fuel a s) as [[[] | e |] s'];
    cbn [snd] in H; cbn [final_state]; auto.
Qed.

End SentLastFacts.

Section SentLastExtras.

(** X16: [previous_speed_fraction] only ever holds the -1.0 it starts with or a
    fraction of the table (0.0, 0.3, 0.7, 1.0), at every point a run of
    the thread can be cut: it is written only after a [con.send] that
    returned, with the fraction just computed. *)
Theorem sent_last_is_the_sentinel_or_of_the_table :
  forall (robot : Robot) (stop_at : option Z) (fuel cycle_fuel : nat),
    known (previous_speed_fraction
             (final_state (run_rtde_controller robot stop_at fuel cycle_fuel))).
Proof.
  intros robot stop_at fuel cycle_fuel. unfold run_rtde_controller.
  apply outer_loop_known. left. reflexivity.
Qed.

End SentLastExtras.

(* ------------------------------------------------------------------ *)
(** ** A turn that fails between the connection and the start *)

Section FailedSetupExtras.

Local Open Scope stmt_scope.

(** X21: When the connection is made at the first try and the turn then fails
    before synchronisation has started (the recipe cannot be read, or a
    step of the handshake is refused or raises), the handler sleeps (5 s,
    or 10 s for [ConnectionRefusedError]) and [finally] asks
    [con.is_connected()] again: if the link is still up it calls
    [send_pause] and, unless that raises, [disconnect] on the connection
    that was never started; if the link is down by then it calls neither.
    Then come its 30 s of sleep: such a turn costs 35 s at least, and the
    thread goes on to the next one. *)
Theorem failed_setup_goes_through_finally :
  forall (robot : Robot) (stop_at : option Z) (cycle_fuel a : nat) (s : State),
    is_set stop_at (now s) = false ->
    connect_outcome robot a 0 = ConnectOk ->
    (exists e, load_recipe robot a = Raised e)
    \/ handshake_ok robot a = false ->
    exists (e : Exn) (s' : State),
      attempt robot stop_at cycle_fuel a s = (Ret tt, s')
      /\ trace s'
         = trace s ++ [NewRTDE; Connect; LoadRecipe]
             ++ match load_recipe robot a with
                | Returned _ => handshake_events robot a
                | Raised _ => []
                end
             ++ [Sleep (backoff (Raise e))] ++ release robot a
             ++ [Sleep 30000]
      /\ now s' = now s + backoff (Raise e) + 30000
      /\ now s + 35000 <= now s'.
Proof.
  intros robot stop_at cycle_fuel a s Hstop Hconn Hfail.
  unfold attempt, attempt_body. cbn [connection_loop MAX_RETRIES Nat.leb].
  run_stmt. rewrite Hstop. cbn [negb andb]. rewrite Hconn. run_stmt.
  destruct (load_recipe robot a) as [[] | e] eqn:Hload; run_stmt;
    cbn [negb]; cbv beta iota; run_stmt.
  - destruct Hfail as [(e & He) | Hbad]; [discriminate He |].
    match goal with |- context [handshake robot a ?s2] =>
      destruct (handshake_spec robot a s2)
        as (r & s3 & Heq & Ht3 & Hn3 & Hc3 & _ & _ & Hraise)
    end.
    destruct (Hraise Hbad) as (e & ->). rewrite Heq.
    revert Ht3 Hn3 Hc3. run_stmt. intros Ht3 Hn3 Hc3.
    exists e. unfold except_finally, teardown, release.
    destruct e; run_stmt; rewrite Hc3; cbn [andb];
      destruct (link_at_finally robot a); run_stmt;
      try (destruct (pause_outcome robot a) as [[] | e']; run_stmt);
      eexists; (split; [reflexivity |]); run_stmt; cbn [backoff];
      rewrite Ht3, Hn3, <- ?app_assoc; cbn [app];
      rewrite <- ?app_assoc; cbn [app];
      (split; [reflexivity |]); split; lia.
  - exists e. unfold except_finally, teardown, release.
    destruct e; run_stmt; cbn [andb];
      destruct (link_at_finally robot a); run_stmt;
      try (destruct (pause_outcome robot a) as [[] | e']; run_stmt);
      eexists; (split; [reflexivity |]); run_stmt; cbn [backoff];
      rewrite <- ?app_assoc; cbn [app];
      (split; [reflexivity |]); split; lia.
Qed.

(** Instances: the recipe file cannot be read and the link stays up;
    [send_input_setup] raises and the link is down when [finally] asks. *)
Lemma failed_setup_goes_through_finally_witness :
  (exists s' : State,
     attempt recipeless_robot None 5 0 initial_state = (Ret tt, s')
     /\ trace s'
        = [NewRTDE; Connect; LoadRecipe; Sleep 5000; SendPause; Disconnect;
           Sleep 30000]
     /\ now s' = 35000)
  /\ (exists s' : State,
        attempt aborting_robot None 5 0 initial_state = (Ret tt, s')
        /\ trace s'
           = [NewRTDE; Connect; LoadRecipe; SendInputSetup; Sleep 5000;
              Sleep 30000]
        /\ now s' = 35000).
Proof.
  split.
  - destruct (failed_setup_goes_through_finally recipeless_robot None 5 0
                initial_state eq_refl eq_refl)
      as (e & s' & Heq & Ht & Hn & _).
    + left. exists OtherException. reflexivity.
    + exists s'. split; [exact Heq |].
      revert Heq. vm_compute. intros Heq. injection Heq as <-.
      split; reflexivity.
  - destruct (failed_setup_goes_through_finally aborting_robot None 5 0
                initial_state eq_refl eq_refl)
      as (e & s' & Heq & Ht & Hn & _).
    + right. reflexivity.
    + exists s'. split; [exact Heq |].
      revert Heq. vm_compute. intros Heq. injection Heq as <-.
      split; reflexivity.
Defined.

End FailedSetupExtras.

(* ------------------------------------------------------------------ *)
(** ** When the samples stop *)

Section StaleExtras.

Local Open Scope stmt_scope.
Local Open Scope pyfloat_scope.

(** X22: The controller has no notion of the age of a sample. Once it is in
    step (queue empty, the fraction of [current_distance] sent), cycles
    before which nothing is published change nothing, however many they
    are: each one only receives and sleeps its 10 ms, the distance in use
    and the fraction the robot was told stay what they were, and nothing
    is sent. *)
Theorem stale_distance_is_held :
  forall (robot : Robot) (n a k : nat) (s : State),
    distance_queue s = Queue.new ->
    previous_speed_fraction s
    = calculate_speed_fraction (current_distance s) ->
    (forall i, (i < n)%nat ->
       receive_outcome robot a (k + i) = StatePacket
       /\ arrivals robot a (k + i) = []) ->
    exists s' : State,
      cycles robot n a k s = (Ret tt, s')
      /\ trace s' = trace s ++ idle_cycles n
      /\ distance_queue s' = Queue.new
      /\ current_distance s' = current_distance s
      /\ previous_speed_fraction s' = previous_speed_fraction s
      /\ now s' = now s + 10 * Z.of_nat n.
Proof.
  intros robot n. induction n as [| n IH]; intros a k s Hq Hp Hok.
  - exists s. cbn [cycles ret idle_cycles repeat List.concat].
    rewrite app_nil_r, Z.add_0_r. auto 8.
  - destruct (Hok 0%nat ltac:(lia)) as (Hr & Ha).
    rewrite Nat.add_0_r in Hr, Ha.
    rewrite cycles_step. unfold cycle_body. run_stmt.
    rewrite Hr, Ha, put_all_app, app_nil_r.
    match goal with |- context [on_state_packet robot a k ?s0] =>
      destruct (on_state_packet_spec robot a k s0)
        as (r & s1 & Heq & Hd1 & Hq1 & Hn1 & _ & Hquiet & _);
      rewrite Heq; revert Hd1 Hq1 Hn1 Hquiet
    end.
    unfold gate, cycle_fraction. run_stmt.
    rewrite Hq, consume_latest_last. cbn [last fst Queue.new].
    intros Hd1 Hq1 Hn1 Hquiet.
    destruct Hquiet as (-> & Ht1 & Hp1 & _).
    { destruct (input_data s) as [obj |]; [| reflexivity].
      rewrite Hp, (neqb_same _ (table_fraction _)). apply andb_false_r. }
    run_stmt.
    match goal with |- context [cycles robot n a (S k) ?s2] =>
      destruct (IH a (S k) s2) as (s' & Hrun & Ht & Hq' & Hd & Hp' & Hn)
    end.
    + run_stmt. exact Hq1.
    + run_stmt. rewrite Hp1, Hd1. exact Hp.
    + intros i Hi. replace (S k + i)%nat with (k + S i)%nat by lia.
      apply Hok. lia.
    + revert Ht Hq' Hd Hp' Hn. run_stmt. intros Ht Hq' Hd Hp' Hn.
      exists s'. split; [exact Hrun |].
      split; [rewrite Ht, Ht1, idle_cycles_S, <- !app_assoc; reflexivity |].
      split; [exact Hq' |]. split; [rewrite Hd; exact Hd1 |].
      split; [rewrite Hp'; exact Hp1 |].
      rewrite Hn, Hn1. change (1000 / RTDE_FREQUENCY) with 10. lia.
Qed.

(** An instance: one sample of 3.5 m is consumed, the robot is told to run
    at full speed, and then no sample comes any more; ten seconds (1000
    cycles) later the controller still works with 3.5 m and the robot
    still has 1.0. *)
Lemma stale_distance_is_held_witness :
  exists s' : State,
    cycles (responsive_robot full_recipe_object) 1000 0 1
      (snd (cycles approaching_robot 1 0 0
              (after_handshake full_recipe_object)))
    = (Ret tt, s')
    /\ current_distance s' = lit "3.5"
    /\ previous_speed_fraction s' = lit "1.0"
    /\ now s' = 10010.
Proof.
  destruct (stale_distance_is_held (responsive_robot full_recipe_object)
              1000 0 1
              (snd (cycles approaching_robot 1 0 0
                      (after_handshake full_recipe_object))))
    as (s' & Heq & _ & _ & Hd & Hp & Hn).
  - reflexivity.
  - vm_compute. reflexivity.
  - intros i _. split; reflexivity.
  - exists s'. split; [exact Heq |].
    split; [rewrite Hd; vm_compute; reflexivity |].
    split; [rewrite Hp; vm_compute; reflexivity |].
    rewrite Hn. reflexivity.
Defined.

End StaleExtras.

(* ================================================================== *)
(** * Further properties of the supervisor loop *)

Section SupervisorRunFacts.

Import Supervisor SupervisorRun.
Local Open Scope string_scope.

Variable py_float : string -> option float.

Lemma served_all (rs : list Ready) :
  existsb raises rs = false -> served rs = rs.
Proof.
  induction rs as [| r rs IH]; [reflexivity |].
  cbn [existsb served]. intros H. apply orb_false_elim in H as (-> & H).
  now rewrite IH.
Qed.

(** What reading one ready descriptor does. *)
Lemma on_ready_effect (r : Ready) (m : Main) :
  match on_ready py_float r m with
  | Returns m' =>
      raises r = false
      /\ clock m' = clock m
      /\ distance_queue m'
         = Queue.put_all (distance_queue m) (samples_read py_float r)
      /\ stop_event m' = stop_event m || asks_to_quit r
  | Escapes m' => raises r = true /\ m' = m
  end.
Proof.
  destruct r as [line | line | line | | |];
    cbn [on_ready samples_read asks_to_quit raises]; auto.
  - unfold on_stdout, sample_of.
    destruct (Str.is_empty line).
    { rewrite orb_false_r. auto. }
    destruct (Str.startswith line "DISTANCE:") eqn:Hp.
    + destruct (distance_field_exists line Hp) as (field & ->).
      destruct (py_float field) as [x |]; cbn; rewrite orb_false_r; auto.
    + cbn. rewrite orb_false_r. auto.
  - unfold on_stderr. destruct (Str.is_empty line);
      cbn; rewrite orb_false_r; auto.
  - unfold on_stdin, quits. destruct (String.eqb (Str.strip line) "q");
      cbn; rewrite ?orb_true_r, ?orb_false_r; auto.
Qed.

(** What reading the ready descriptors of one wake does: they are read in
    order, up to the first whose read raises. *)
Lemma on_all_ready_effect (rs : list Ready) :
  forall m : Main,
  exists m' : Main,
    on_all_ready py_float rs m
    = (if existsb raises rs then Escapes m' else Returns m')
    /\ clock m' = clock m
    /\ distance_queue m'
       = Queue.put_all (distance_queue m)
           (flat_map (samples_read py_float) (served rs))
    /\ stop_event m' = stop_event m || existsb asks_to_quit (served rs).
Proof.
  induction rs as [| r rs IH]; intros m;
    cbn [on_all_ready flat_map existsb served].
  - exists m. rewrite orb_false_r. auto.
  - pose proof (on_ready_effect r m) as Hr.
    destruct (on_ready py_float r m) as [m1 | m1].
    + destruct Hr as (-> & Hc1 & Hq1 & Hs1). cbn [orb flat_map existsb].
      destruct (IH m1) as (m' & -> & Hc & Hq & Hs).
      exists m'. split; [reflexivity |]. split; [congruence |].
      split.
      * rewrite Hq, Hq1, !put_all_app, <- app_assoc. reflexivity.
      * rewrite Hs, Hs1, orb_assoc. reflexivity.
    + destruct Hr as (-> & ->). cbn [orb flat_map existsb].
      exists m. rewrite orb_false_r. auto.
Qed.

Lemma main_loop_stopped (wakes : list Wake) (m : Main) :
  stop_event m = true -> main_loop py_float wakes m = Left m.
Proof. intros H. destruct wakes; cbn [main_loop]; rewrite H; reflexivity. Qed.

(** The loop, wake by wake. *)
Lemma main_loop_rounds (wakes : list Wake) :
  forall m : Main,
    stop_event m = false ->
    exists m' : Main,
      main_loop py_float wakes m
      = match ending wakes with
        | None => Polling m'
        | Some w => if wake_aborts w then Aborted m' else Left m'
        end
      /\ stop_event m'
         = match ending wakes with
           | None => false
           | Some w =>
               if wake_aborts w
               then existsb asks_to_quit (served (ready w))
               else true
           end
      /\ clock m' = clock m + total_wait (rounds wakes)
      /\ distance_queue m'
         = (distance_queue m ++ flat_map (samples py_float) (rounds wakes))%list.
Proof.
  induction wakes as [| w wakes IH]; intros m Hrun; cbn [main_loop];
    rewrite Hrun.
  - exists m. cbn. rewrite Z.add_0_r, app_nil_r. auto.
  - destruct (on_all_ready_effect (ready w) (wait (poll_wait w) m))
      as (m1 & Heq & Hc1 & Hq1 & Hs1).
    rewrite Heq. revert Hc1 Hq1 Hs1.
    cbn [wait clock distance_queue stop_event].
    rewrite Hrun, put_all_app. cbn [orb]. intros Hc1 Hq1 Hs1.
    unfold ending. cbn [find rounds total_wait fold_right flat_map].
    fold (ending wakes).
    fold (total_wait (if wake_ends w then [] else rounds wakes)).
    fold (samples py_float w) in Hq1.
    destruct (existsb raises (ready w)) eqn:Hraise.
    { assert (Ha : wake_aborts w = true).
      { unfold wake_aborts. rewrite Hraise. reflexivity. }
      assert (He : wake_ends w = true).
      { unfold wake_ends. rewrite Ha. apply orb_true_r. }
      rewrite He, Ha. cbn [total_wait fold_right flat_map].
      exists m1. rewrite app_nil_r. split; [reflexivity |].
      split; [exact Hs1 |]. split; [lia | exact Hq1]. }
    rewrite (served_all _ Hraise) in Hs1.
    destruct (returncode w) as [e |] eqn:Hrc.
    + assert (He : wake_ends w = true).
      { unfold wake_ends, wake_stops. rewrite Hrc, orb_true_r. reflexivity. }
      rewrite He. cbn [total_wait fold_right flat_map]. rewrite app_nil_r.
      destruct (exit_stderr e) as [text |] eqn:Herr.
      * assert (Ha : wake_aborts w = false).
        { unfold wake_aborts. rewrite Hraise, Hrc, Herr. reflexivity. }
        rewrite Ha. eexists. split; [reflexivity |].
        destruct (Str.is_empty text);
          cbn [set_stop info stop_event clock distance_queue];
          (split; [reflexivity |]); (split; [lia | exact Hq1]).
      * assert (Ha : wake_aborts w = true).
        { unfold wake_aborts. rewrite Hraise, Hrc, Herr. reflexivity. }
        rewrite Ha. eexists. split; [reflexivity |].
        cbn [info stop_event clock distance_queue].
        rewrite (served_all _ Hraise).
        split; [exact Hs1 |]. split; [lia | exact Hq1].
    + assert (Ha : wake_aborts w = false).
      { unfold wake_aborts. rewrite Hraise, Hrc. reflexivity. }
      destruct (existsb asks_to_quit (ready w)) eqn:Hq.
      * assert (He : wake_ends w = true).
        { unfold wake_ends, wake_stops. rewrite Hq. reflexivity. }
        rewrite He, Ha. cbn [total_wait fold_right flat_map].
        exists m1. rewrite app_nil_r.
        split; [apply main_loop_stopped; exact Hs1 |].
        split; [exact Hs1 |]. split; [lia | exact Hq1].
      * assert (He : wake_ends w = false).
        { unfold wake_ends, wake_stops. rewrite Hq, Hrc, Ha. reflexivity. }
        rewrite He.
        destruct (IH m1 Hs1) as (m' & Hloop & Hs & Hc & Hqs).
        exists m'. split; [exact Hloop |]. split; [exact Hs |].
        split; [rewrite Hc, Hc1; lia |].
        rewrite Hqs, Hq1, <- app_assoc. reflexivity.
Qed.

Lemma rounds_all (wakes : list Wake) :
  ending wakes = None -> rounds wakes = wakes.
Proof.
  unfold ending. induction wakes as [| w wakes IH]; [reflexivity |].
  cbn [find rounds]. destruct (wake_ends w); [discriminate |].
  intros H. now rewrite IH.
Qed.

Lemma ending_ends (wakes : list Wake) (w : Wake) :
  ending wakes = Some w -> wake_ends w = true /\ In w wakes.
Proof.
  unfold ending. intros H. apply find_some in H. tauto.
Qed.

Lemma total_wait_bounds (wakes : list Wake) :
  0 <= total_wait wakes <= 100 * Z.of_nat (List.length wakes).
Proof.
  induction wakes as [| w wakes IH]; [cbn; lia |].
  cbn [total_wait fold_right List.length]. fold (total_wait wakes).
  unfold poll_wait. lia.
Qed.

End SupervisorRunFacts.

Section SupervisorRunExtras.

Import Supervisor SupervisorRun.
Local Open Scope string_scope.

(** X10: Signals apart, which are not modelled, the supervisor is out of its
    loop for three reasons only. A line of stdin that is [q] once
    stripped, or the exit of the child: [stop_event] is set and the loop
    is left. Or a read that raises, a [readline] on a ready descriptor or
    the [read] of the child's last stderr output: no handler catches it,
    the exception leaves the loop at once, and [stop_event] is set only
    if a [q] was read earlier in the same wake. The loop goes through the
    wakes up to and including the first that brings one of these, and
    through all of them if none does; the time it spends there is that
    of its [poll] calls, at most 100 ms a wake. *)
Theorem supervisor_leaves_on_quit_exit_or_failed_read :
  forall (py_float : string -> option float) (wakes : list Wake) (m : Main),
    stop_event m = false ->
    match main_loop py_float wakes m, ending wakes with
    | Left m', Some w =>
        wake_stops w = true /\ wake_aborts w = false
        /\ stop_event m' = true
    | Aborted m', Some w =>
        wake_aborts w = true
        /\ stop_event m' = existsb asks_to_quit (served (ready w))
    | Polling m', None =>
        rounds wakes = wakes /\ stop_event m' = false
    | _, _ => False
    end
    /\ clock (left_in (main_loop py_float wakes m))
       = clock m + total_wait (rounds wakes)
    /\ 0 <= total_wait (rounds wakes)
       <= 100 * Z.of_nat (List.length (rounds wakes)).
Proof.
  intros py_float wakes m Hrun.
  destruct (main_loop_rounds py_float wakes m Hrun)
    as (m' & -> & Hs & Hc & _).
  split; [| split; [| apply total_wait_bounds]].
  - destruct (ending wakes) as [w |] eqn:Hend.
    + destruct (ending_ends wakes w Hend) as (Hw & _).
      unfold wake_ends in Hw.
      destruct (wake_aborts w); [auto |].
      rewrite orb_false_r in Hw. auto.
    + split; [now apply rounds_all | exact Hs].
  - destruct (ending wakes) as [w |]; [destruct (wake_aborts w) |];
      exact Hc.
Qed.

(** Instances: two quiet wakes, then one in which the operator types
    [q], so that a fourth wake is not reached; and a wake in which the
    [readline] of stdin raises. *)
Lemma supervisor_leaves_on_quit_exit_or_failed_read_witness :
  (exists m' : Main,
     main_loop float_of_str
       [mkWake 100 [] None;
        mkWake 100 [StderrReady ("bind failed" ++ LF)] None;
        mkWake 40 [StdinReady (" q " ++ LF)] None;
        mkWake 100 [StdoutReady ("DISTANCE:1.5" ++ LF)] None] initial
     = Left m'
     /\ stop_event m' = true
     /\ clock m' = 240)
  /\ (exists m' : Main,
        main_loop float_of_str
          [mkWake 100 [StdoutReady ("DISTANCE:1.5" ++ LF)] None;
           mkWake 30 [StdinRaises] None] initial
        = Aborted m'
        /\ stop_event m' = false
        /\ clock m' = 130).
Proof.
  split.
  - pose proof (supervisor_leaves_on_quit_exit_or_failed_read float_of_str
                  [mkWake 100 [] None;
                   mkWake 100 [StderrReady ("bind failed" ++ LF)] None;
                   mkWake 40 [StdinReady (" q " ++ LF)] None;
                   mkWake 100 [StdoutReady ("DISTANCE:1.5" ++ LF)] None]
                  initial eq_refl) as (H & Hc & _).
    revert H Hc.
    match goal with |- context [main_loop ?f ?ws ?m0] =>
      destruct (main_loop f ws m0) as [m' | m' | m'] eqn:E
    end; try discriminate E.
    intros (_ & _ & Hs) Hc. exists m'. split; [reflexivity |].
    split; [exact Hs | exact Hc].
  - pose proof (supervisor_leaves_on_quit_exit_or_failed_read float_of_str
                  [mkWake 100 [StdoutReady ("DISTANCE:1.5" ++ LF)] None;
                   mkWake 30 [StdinRaises] None]
                  initial eq_refl) as (H & Hc & _).
    revert H Hc.
    match goal with |- context [main_loop ?f ?ws ?m0] =>
      destruct (main_loop f ws m0) as [m' | m' | m'] eqn:E
    end; try discriminate E.
    intros (_ & Hs) Hc. exists m'. split; [reflexivity |].
    split; [exact Hs | exact Hc].
Defined.

(** X11: The supervisor only appends to the queue, in arrival order: when it
    leaves its loop, or is still in it at the end of
    the script, the queue holds what it held before, followed by the
    samples of the stdout lines read in the wakes it went through, in the
    order read: one sample for each line that has the [DISTANCE:] prefix
    and a field that is a float, none for any other line, and none for
    what was read from stderr or stdin. The lines read in the wake that
    ends the loop are published like the others, those that follow the
    [q] as well; what is ready after a read that raises is not read. *)
Theorem supervisor_publishes_in_arrival_order :
  forall (py_float : string -> option float) (wakes : list Wake) (m : Main),
    stop_event m = false ->
    distance_queue (left_in (main_loop py_float wakes m))
    = (distance_queue m ++ flat_map (samples py_float) (rounds wakes))%list.
Proof.
  intros py_float wakes m Hrun.
  destruct (main_loop_rounds py_float wakes m Hrun) as (m' & -> & _ & _ & Hq).
  destruct (ending wakes) as [w |]; [destruct (wake_aborts w) |]; exact Hq.
Qed.

(** An instance: a sample; then, in one wake, the [q], a second sample, a
    [readline] of stderr that raises and a third sample, which is not
    read; a fourth sample in a wake that is not reached. *)
Lemma supervisor_publishes_in_arrival_order_witness :
  distance_queue
    (left_in
       (main_loop float_of_str
          [mkWake 100 [StdoutReady ("DISTANCE:1.5" ++ LF)] None;
           mkWake 20 [StdinReady ("q" ++ LF);
                      StdoutReady ("DISTANCE:2.5" ++ LF);
                      StderrRaises;
                      StdoutReady ("DISTANCE:3.0" ++ LF)] None;
           mkWake 100 [StdoutReady ("DISTANCE:3.5" ++ LF)] None] initial))
  = [lit "1.5"; lit "2.5"].
Proof.
  rewrite (supervisor_publishes_in_arrival_order float_of_str _ initial
             eq_refl).
  vm_compute. reflexivity.
Defined.

End SupervisorRunExtras.

(* ================================================================== *)
(** * Further properties of the reception loop of the listener *)

Section ListenerRunExtras.

Import UdpListener ListenerRun.

(** X12: The listener writes one DISTANCE line for each datagram of four
    bytes, in the order of arrival, with the value these bytes decode to,
    and no other line; a datagram of another size (one cut to the 1024
    bytes of the buffer included) and a [recvfrom] that raises give none.
    With the writes to stdout taken to succeed, it sleeps 100 ms once for
    each [recvfrom] that raises. *)
Theorem one_line_per_well_sized_datagram :
  forall inputs : list Recv,
    filter is_distance_line (reception_loop inputs)
    = map (fun p => WriteDistance (unpack_float p))
        (filter well_sized (payloads inputs))
    /\ filter is_sleep (reception_loop inputs)
       = repeat (Sleep 100) (raised inputs).
Proof.
  induction inputs as [| r inputs (IHl & IHs)]; [split; reflexivity |].
  change (reception_loop (r :: inputs))
    with (on_recv r ++ reception_loop inputs).
  rewrite !filter_app, IHl, IHs.
  destruct r as [payload |]; [| split; reflexivity].
  cbn [payloads flat_map app filter raised List.length].
  fold (payloads inputs). fold (raised inputs).
  unfold on_recv, well_sized.
  destruct (Nat.eqb_spec (List.length payload) calcsize_f) as [E | E].
  - assert (Hcut : firstn 1024 payload = payload).
    { apply firstn_all2. rewrite E. unfold calcsize_f. lia. }
    rewrite Hcut, E, Nat.eqb_refl. split; reflexivity.
  - destruct (Nat.eqb_spec (List.length (firstn 1024 payload)) calcsize_f)
      as [E' | E']; [| split; reflexivity].
    exfalso. apply E. rewrite length_firstn in E'. unfold calcsize_f in *. lia.
Qed.

End ListenerRunExtras.

(* ================================================================== *)
(** * [main] of the listener *)

Section ListenerMainExtras.

Import ListenerMain.

(** X13: How the listener process ends. It reaches its reception loop exactly
    when the socket is created, both options are set and the bind
    succeeds, and then it closes nothing. Otherwise it exits, with code 1
    exactly when it was the bind that failed with [socket.error], and with
    code 0 in every other case (a socket that cannot be created or
    configured, a bind that raises something else): the handlers of [main]
    log and return. On every way out it closes the socket once, as its
    last action, if it had created it, and does not touch it if it had
    not. *)
Theorem listener_exit_codes :
  forall (setup : Setup) (inputs : list UdpListener.Recv),
    let run := main setup inputs in
    (snd run = Receiving <-> all_fine setup = true)
    /\ (snd run = Exits 1 <-> bind_refused setup = true)
    /\ (all_fine setup = false -> bind_refused setup = false ->
        snd run = Exits 0)
    /\ (all_fine setup = true ->
        fst run
        = [NewSocket; SetReuseAddr 1; SetRcvBuf 1048576; Bind]
            ++ map Loop (UdpListener.reception_loop inputs))
    /\ (all_fine setup = false ->
        socket_created setup = true ->
        exists evs, fst run = evs ++ [Close]
                    /\ filter is_close evs = [])
    /\ (socket_created setup = false -> fst run = [NewSocket]).
Proof.
  intros [a b c d] inputs run. subst run.
  unfold main, try_block, all_fine, bind_refused, socket_created, finally.
  cbn [socket_answer reuseaddr_answer rcvbuf_answer bind_answer].
  destruct a, b, c, d;
    cbn [raised events sock raised_by fst snd app];
    (split; [split; intros H; first [reflexivity | discriminate H] |]);
    (split; [split; intros H; first [reflexivity | discriminate H] |]);
    (split; [intros H1 H2; first [reflexivity | discriminate] |]);
    (split; [intros H; first [reflexivity | discriminate H] |]);
    (split; [| intros H; first [reflexivity | discriminate H]]);
    intros H1 H2; try discriminate;
    first [ exists [NewSocket; SetReuseAddr 1; SetRcvBuf (1024 * 1024); Bind];
            split; reflexivity
          | exists [NewSocket; SetReuseAddr 1; SetRcvBuf (1024 * 1024)];
            split; reflexivity
          | exists [NewSocket; SetReuseAddr 1]; split; reflexivity ].
Qed.

End ListenerMainExtras.

(* ================================================================== *)
(** * The [finally] block of [main] *)

Section MainFinallyFacts.

Import MainFinally.

Lemma elapsed_app (xs ys : list Event) :
  elapsed (xs ++ ys) = elapsed xs + elapsed ys.
Proof.
  induction xs as [| x xs IH]; [reflexivity |].
  cbn [app elapsed fold_right]. fold (elapsed (xs ++ ys)). fold (elapsed xs).
  rewrite IH. lia.
Qed.

Lemma stop_child_bounds (env : Env) :
  100 <= elapsed (stop_child env) <= 2100.
Proof.
  unfold stop_child, wait_child.
  destruct (child_running env); [| cbn [elapsed fold_right duration]; lia].
  destruct (exit_delay env) as [ms |]; [| cbn [elapsed fold_right duration]; lia].
  destruct (Z.leb_spec ms 2000); cbn [elapsed fold_right duration]; lia.
Qed.

Lemma join_thread_bounds (env : Env) (t : Z) :
  0 <= elapsed (join_thread env t) <= 5000.
Proof.
  unfold join_thread.
  destruct (thread_end env) as [e |]; [| cbn [elapsed fold_right duration]; lia].
  destruct (Z.leb_spec e (t + 5000)); cbn [elapsed fold_right duration]; lia.
Qed.

End MainFinallyFacts.

Section MainFinallyExtras.

Import MainFinally.

(** X14: [main] is done at most 7.1 s after it has left its loop, whatever the
    child and the thread do: 0.1 s of sleep, at most 2 s for the child and
    at most 5 s for the thread. It sends SIGTERM to the child exactly when
    the child is still running, and SIGKILL exactly when the child then
    has not exited within 2 s; and it logs that the RTDE thread did not
    terminate exactly when the thread has not returned 5 s after the join
    began. *)
Theorem main_finally_is_bounded :
  forall (env : Env) (t : Z),
    100 <= elapsed (main_finally env t) <= 7100
    /\ existsb is_terminate (main_finally env t) = child_running env
    /\ existsb is_kill (main_finally env t)
       = child_running env
         && match exit_delay env with
            | Some ms => 2000 <? ms
            | None => true
            end
    /\ existsb is_log_thread_alive (main_finally env t)
       = match thread_end env with
         | Some e => t + elapsed (stop_child env) + 5000 <? e
         | None => true
         end.
Proof.
  intros env t. unfold main_finally. cbv zeta.
  pose proof (stop_child_bounds env) as Hb.
  pose proof (join_thread_bounds env (t + elapsed (stop_child env))) as Hj.
  split; [rewrite elapsed_app; lia |].
  rewrite !existsb_app.
  unfold stop_child, wait_child, join_thread.
  destruct (child_running env), (exit_delay env) as [ms |],
    (thread_end env) as [e |];
    repeat match goal with
      | |- context [?a <=? ?b] =>
          destruct (Z.leb_spec a b) as [? | ?]
      end;
    cbn [existsb is_terminate is_kill is_log_thread_alive orb andb];
    repeat split;
    try reflexivity;
    first [ symmetry; apply Z.ltb_lt; assumption
          | symmetry; apply Z.ltb_ge; assumption
          | idtac ].
  all: cbn [elapsed fold_right duration] in *;
    first [ symmetry; apply Z.ltb_lt; lia | symmetry; apply Z.ltb_ge; lia ].
Qed.

End MainFinallyExtras.

Section QuitExtras.

Import Supervisor MainFinally.
Local Open Scope string_scope.

(** X15: Quitting while the robot is being driven. The supervisor has left its
    loop, [stop_event] set, at a time when the thread is in its cyclic
    exchange with a robot that answers every call. The thread then
    releases the robot within 10 ms, but returns only 30 s later, after
    the sleep of its [finally]; [main] waits 5 s for it at most, so the
    join times out, the log says that the RTDE thread did not terminate,
    and [main] is done at least 22.9 s before the thread would be. *)
Theorem quitting_a_session_outlasts_the_join :
  forall (py_float : string -> option float) (wakes : list Wake) (m' : Main)
         (robot : Robot) (d : DataObject) (fuel cycle_fuel : nat)
         (running : bool) (delay : option Z),
    obliging robot d ->
    main_loop py_float wakes initial = Left m' ->
    0 < clock m' ->
    (cycles_before (clock m') < cycle_fuel)%nat ->
    let thread :=
      run_rtde_controller robot (stop_set_at m') (S fuel) cycle_fuel in
    let evs :=
      main_finally (mkEnv running delay (thread_end_of thread)) (clock m') in
    existsb is_log_thread_alive evs = true
    /\ exists e : Z,
         thread_end_of thread = Some e
         /\ clock m' + 30000 <= e
         /\ clock m' + elapsed evs + 22900 <= e.
Proof.
  intros py_float wakes m' robot d fuel cycle_fuel running delay
    Hrobot Hloop Hpos Hfuel thread evs.
  assert (Hstop : stop_set_at m' = Some (clock m')).
  { pose proof (main_loop_spec py_float wakes initial) as H.
    rewrite Hloop in H. apply H. left. split; reflexivity. }
  destruct (obliging_session robot d (clock m') fuel cycle_fuel
              Hrobot Hpos Hfuel)
    as (s1 & s' & _ & Hrun & _ & _ & Hn1 & Hn & _).
  assert (Hend : thread_end_of thread = Some (now s')).
  { subst thread. rewrite Hstop, Hrun. reflexivity. }
  subst evs. rewrite Hend. unfold main_finally. cbv zeta.
  set (env := mkEnv running delay (Some (now s'))).
  pose proof (stop_child_bounds env) as Hb.
  assert (Hjoin : join_thread env (clock m' + elapsed (stop_child env))
                  = [Join 5000; LogThreadAlive]).
  { unfold join_thread. cbn [thread_end env].
    destruct (Z.leb_spec (now s') (clock m' + elapsed (stop_child env) + 5000));
      [lia | reflexivity]. }
  rewrite Hjoin, existsb_app, elapsed_app.
  split; [cbn; apply orb_true_r |].
  exists (now s'). split; [reflexivity |].
  cbn [elapsed fold_right duration]. lia.
Qed.

(** An instance: the operator types [q] 35 ms after the start, while the
    person walks towards the robot; the child exits at once on SIGTERM. *)
Lemma quitting_a_session_outlasts_the_join_witness :
  exists m' : Main,
    main_loop float_of_str [mkWake 35 [StdinReady ("q" ++ LF)] None] initial
    = Left m'
    /\ main_finally
         (mkEnv true (Some 0)
            (thread_end_of
               (run_rtde_controller approaching_robot (stop_set_at m') 1 5)))
         (clock m')
       = [Sleep 100; Terminate; Wait 0; Join 5000; LogThreadAlive].
Proof.
  set (m' := SupervisorRun.left_in
               (main_loop float_of_str
                  [mkWake 35 [StdinReady ("q" ++ LF)] None] initial)).
  exists m'. split; [reflexivity |].
  destruct (quitting_a_session_outlasts_the_join float_of_str
              [mkWake 35 [StdinReady ("q" ++ LF)] None] m'
              approaching_robot full_recipe_object 0 5 true (Some 0))
    as (_ & e & He & _).
  - repeat split.
  - reflexivity.
  - reflexivity.
  - vm_compute. lia.
  - vm_compute. reflexivity.
Defined.

End QuitExtras.

(* ================================================================== *)
(** * The stand-alone receiver of dummyListener.py *)

Section DummyListenerFacts.

Import DummyListener.

Lemma blocked_bounds (r : Recv) : 0 <= blocked r <= 1000.
Proof. destruct r; cbn [blocked]; lia. Qed.

(** The loop sees [stop_event] less than a second after it is set. *)
Lemma reception_loop_prompt (t0 : Z) (inputs : list Recv) :
  forall t : Z,
    t < t0 + 1000 ->
    match reception_loop (Some t0) inputs t with
    | (evs, t', e) =>
        t <= t' < t0 + 1000
        /\ match e with
           | SawStop => t0 <= t'
           | Broke => exists before, evs = (before ++ [LogReceiveError])%list
           | ScriptEnded => t' < t0
           end
    end.
Proof.
  induction inputs as [| r inputs IH]; intros t Ht; cbn [reception_loop is_set];
    destruct (Z.leb_spec t0 t) as [Hset | Hrun]; try (split; lia).
  pose proof (blocked_bounds r) as Hb.
  destruct r as [after payload | | after].
  - specialize (IH (t + blocked (Datagram after payload)) ltac:(lia)).
    destruct (reception_loop (Some t0) inputs
                (t + blocked (Datagram after payload))) as [[evs t'] e].
    destruct IH as (Ht' & He). split; [lia |].
    destruct e; auto.
    destruct He as (before & ->). eexists (_ :: before). reflexivity.
  - specialize (IH (t + blocked TimesOut) ltac:(lia)).
    destruct (reception_loop (Some t0) inputs (t + blocked TimesOut))
      as [[evs t'] e].
    destruct IH as (Ht' & He). split; [lia | exact He].
  - split; [lia | exists []; reflexivity].
Qed.

End DummyListenerFacts.

Section DummyListenerExtras.

Import ListenerMain DummyListener.

(** X19: The receiver of dummyListener.py, whose [recvfrom] has a timeout of
    one second, sees [stop_event] less than a second after it is set: when
    the event is set at [t0], not before the thread starts, the thread is
    over before [t0 + 1000] ms unless the script of datagrams is used up
    before [t0]. An exception of [recvfrom] other than the timeout ends
    the loop for good, its log entry being the last; and the socket is
    closed, as the last action, whenever the loop is left. *)
Theorem dummy_receiver_stops_within_a_second :
  forall (inputs : list Recv) (t t0 : Z),
    t <= t0 ->
    match reception_loop (Some t0) inputs t with
    | (evs, t', e) =>
        t <= t' < t0 + 1000
        /\ match e with
           | SawStop =>
               t0 <= t'
               /\ run_udp_receiver Fine Fine (Some t0) inputs t
                  = (([NewSocket; Bind; SetTimeout 1000] ++ evs ++ [Close])%list,
                     t', Returns)
           | Broke =>
               (exists before, evs = (before ++ [LogReceiveError])%list)
               /\ run_udp_receiver Fine Fine (Some t0) inputs t
                  = (([NewSocket; Bind; SetTimeout 1000] ++ evs ++ [Close])%list,
                     t', Returns)
           | ScriptEnded => t' < t0
           end
    end.
Proof.
  intros inputs t t0 Ht.
  pose proof (reception_loop_prompt t0 inputs t ltac:(lia)) as H.
  unfold run_udp_receiver.
  destruct (reception_loop (Some t0) inputs t) as [[evs t'] e].
  destruct H as (Ht' & He). split; [exact Ht' |].
  destruct e; auto.
Qed.

(** An instance: a datagram, a timeout during which the event is set, and
    a datagram that is not read any more. *)
Lemma dummy_receiver_stops_within_a_second_witness :
  exists (evs : list Event) (t' : Z),
    reception_loop (Some 1200)
      [Datagram 300 [Byte.x00; Byte.x00; Byte.x30; Byte.x40];
       TimesOut;
       Datagram 10 [Byte.x00; Byte.x00; Byte.x80; Byte.x3f]] 0
    = (evs, t', SawStop)
    /\ evs = [LogDistance (lit "2.75")]
    /\ t' = 1300
    /\ run_udp_receiver Fine Fine (Some 1200)
         [Datagram 300 [Byte.x00; Byte.x00; Byte.x30; Byte.x40];
          TimesOut;
          Datagram 10 [Byte.x00; Byte.x00; Byte.x80; Byte.x3f]] 0
       = (([NewSocket; Bind; SetTimeout 1000] ++ evs ++ [Close])%list,
          t', Returns).
Proof.
  pose proof (dummy_receiver_stops_within_a_second
                [Datagram 300 [Byte.x00; Byte.x00; Byte.x30; Byte.x40];
                 TimesOut;
                 Datagram 10 [Byte.x00; Byte.x00; Byte.x80; Byte.x3f]]
                0 1200 ltac:(lia)) as H.
  destruct (reception_loop (Some 1200) _ 0) as [[evs t'] e] eqn:E.
  vm_compute in E. injection E as <- <- <-.
  destruct H as (_ & _ & Hrun).
  eexists _, _. split; [reflexivity |]. split; [vm_compute; reflexivity |].
  split; [reflexivity | exact Hrun].
Defined.

End DummyListenerExtras.

Section DummyMainFacts.

Import DummyListener.

Lemma select_wait_bounds (s : Select) : 0 <= select_wait s <= 100.
Proof. destruct s; cbn [select_wait]; lia. Qed.

Lemma main_loop_later (selects : list Select) :
  forall t t0 : Z, main_loop selects t = Some t0 -> t <= t0.
Proof.
  induction selects as [| s selects IH]; intros t t0; cbn [main_loop];
    [discriminate |].
  pose proof (select_wait_bounds s) as Hw.
  destruct s as [| after line].
  - intros H. apply IH in H. lia.
  - destruct (String.eqb (Str.strip line) "q").
    + intros H. injection H as <-. lia.
    + intros H. apply IH in H. lia.
Qed.

End DummyMainFacts.

Section DummyMainExtras.

Import ListenerMain DummyListener.

(** X20: In dummyListener.py the join of [main] does not time out: once the
    operator has typed [q], the receiver thread, if its script lets it
    end, is over less than a second after [stop_event] was set, whatever
    the socket and the datagrams did; the join then blocks for less than
    a second and the warning that the thread did not terminate is not
    logged. *)
Theorem dummy_join_does_not_time_out :
  forall (socket_answer bind_answer : Answer) (selects : list Select)
         (inputs : list Recv) (t0 t_end : Z) (evs : list Event)
         (ending : Ending),
    main_loop selects 0 = Some t0 ->
    run_udp_receiver socket_answer bind_answer (Some t0) inputs 0
    = (evs, t_end, ending) ->
    ending <> Receiving ->
    0 <= t_end < t0 + 1000
    /\ join t_end t0 = (Z.max 0 (t_end - t0), false)
    /\ Z.max 0 (t_end - t0) < 1000.
Proof.
  intros socket_answer bind_answer selects inputs t0 t_end evs ending
    Hmain Hrun Hended.
  apply main_loop_later in Hmain.
  assert (Hend : 0 <= t_end < t0 + 1000).
  { revert Hrun. unfold run_udp_receiver.
    pose proof (reception_loop_prompt t0 inputs 0 ltac:(lia)) as H.
    destruct socket_answer, bind_answer;
      try (intros E; injection E as <- <- <-; lia).
    destruct (reception_loop (Some t0) inputs 0) as [[evs' t'] e].
    destruct H as (Ht' & _).
    destruct e; intros E; injection E as <- <- <-; lia. }
  split; [exact Hend |]. unfold join.
  destruct (Z.leb_spec t_end (t0 + 5000)); [| lia].
  split; [reflexivity | lia].
Qed.

(** An instance: [q] after 150 ms, while the receiver is in a [recvfrom]
    that times out at 1000 ms. *)
Lemma dummy_join_does_not_time_out_witness :
  main_loop [Idle; Line 50 ("q" ++ LF)] 0 = Some 150
  /\ run_udp_receiver Fine Fine (Some 150) [TimesOut; TimesOut] 0
     = ([NewSocket; Bind; SetTimeout 1000; Close], 1000, Returns)
  /\ join 1000 150 = (850, false).
Proof.
  split; [reflexivity |]. split; [reflexivity |].
  destruct (dummy_join_does_not_time_out Fine Fine
              [Idle; Line 50 ("q" ++ LF)] [TimesOut; TimesOut] 150 1000
              [NewSocket; Bind; SetTimeout 1000; Close] Returns)
    as (_ & Hjoin & _).
  - reflexivity.
  - reflexivity.
  - discriminate.
  - exact Hjoin.
Defined.

End DummyMainExtras.

(* ================================================================== *)
(** * From the datagram to the queue *)

Section PipeFacts.

Import Supervisor SupervisorRun UdpListener ListenerRun Pipe.
Local Open Scope string_scope.

Lemma rstrip_plain (s : string) :
  plain s = true -> Str.rstrip (s ++ LF) = s.
Proof.
  induction s as [| c s IH]; [reflexivity |].
  cbn [plain all_chars]. intros H. apply andb_prop in H as (Hc & Hs).
  apply andb_prop in Hc as (Hspace & _).
  cbn [append Str.rstrip]. cbv zeta. fold (plain s) in Hs.
  rewrite (IH Hs). apply negb_true_iff in Hspace. rewrite Hspace.
  reflexivity.
Qed.

Lemma split_plain (s : string) :
  plain s = true -> Str.split ":" s = [s].
Proof.
  induction s as [| c s IH]; [reflexivity |].
  cbn [plain all_chars]. intros H. apply andb_prop in H as (Hc & Hs).
  apply andb_prop in Hc as (_ & Hcolon).
  cbn [Str.split]. apply negb_true_iff in Hcolon. rewrite Hcolon.
  fold (plain s) in Hs. rewrite (IH Hs). reflexivity.
Qed.

Lemma in_firstn {A : Type} (n : nat) :
  forall (xs : list A) (x : A), In x (firstn n xs) -> In x xs.
Proof.
  induction n as [| n IH]; intros [| y xs] x H; cbn in *; try contradiction.
  destruct H as [-> | H]; [now left | right; now apply IH].
Qed.

Lemma prefix_of_append (p rest : string) : String.prefix p (p ++ rest) = true.
Proof.
  induction p as [| c p IH]; [destruct rest; reflexivity |].
  cbn [append String.prefix]. destruct (ascii_dec c c); [exact IH | congruence].
Qed.

Section Lines.

Variable py_float : string -> option float.
Variable repr : float -> string.

(** The line written for [x] carries [x], when its text is plain and
    [float] reads it back. *)
Lemma sample_of_distance_line (x : float) :
  plain (repr x) = true ->
  py_float (repr x) = Some x ->
  sample_of py_float (distance_line repr x) = [x].
Proof.
  intros Hplain Hback. unfold sample_of, distance_line.
  rewrite distance_field_of, rstrip_plain, split_plain by assumption.
  cbn [hd]. rewrite Hback.
  change (Str.is_empty ("DISTANCE:" ++ repr x ++ LF)) with false.
  unfold Str.startswith. rewrite prefix_of_append. reflexivity.
Qed.

(** The samples of the reads of a wake are those of the lines read from
    the child's stdout. *)
Lemma samples_of_lines (rs : list Ready) :
  flat_map (samples_read py_float) rs
  = flat_map (sample_of py_float) (flat_map stdout_line rs).
Proof.
  induction rs as [| r rs IH]; [reflexivity |].
  cbn [flat_map]. rewrite flat_map_app, IH. f_equal.
  destruct r as [line | line | line | | |]; try reflexivity.
  cbn [samples_read stdout_line]. unfold sample_of at 1.
  destruct (Str.is_empty line) eqn:He; [reflexivity |].
  cbn [flat_map]. rewrite app_nil_r. unfold sample_of. now rewrite He.
Qed.

Lemma samples_of_stdout_read (wakes : list Wake) :
  flat_map (samples py_float) wakes
  = flat_map (sample_of py_float)
      (flat_map (fun w => flat_map stdout_line (served (ready w))) wakes).
Proof.
  induction wakes as [| w wakes IH]; [reflexivity |].
  cbn [flat_map]. rewrite flat_map_app, IH. f_equal.
  apply samples_of_lines.
Qed.

(** What the listener writes: one line for each datagram of four bytes. *)
Lemma stdout_lines_of_reception (inputs : list Recv) :
  stdout_lines repr (reception_loop inputs)
  = map (fun p => distance_line repr (unpack_float p))
      (filter well_sized (payloads inputs)).
Proof.
  induction inputs as [| r inputs IH]; [reflexivity |].
  change (reception_loop (r :: inputs))
    with (on_recv r ++ reception_loop inputs)%list.
  unfold stdout_lines in *. rewrite flat_map_app, IH.
  destruct r as [payload |]; [| reflexivity].
  cbn [payloads flat_map app filter]. fold (payloads inputs).
  unfold on_recv, well_sized.
  destruct (Nat.eqb_spec (List.length payload) calcsize_f) as [E | E].
  - assert (Hcut : firstn 1024 payload = payload).
    { apply firstn_all2. rewrite E. unfold calcsize_f. lia. }
    rewrite Hcut, E, Nat.eqb_refl. reflexivity.
  - destruct (Nat.eqb_spec (List.length (firstn 1024 payload)) calcsize_f)
      as [E' | E']; [| reflexivity].
    exfalso. apply E. rewrite length_firstn in E'. unfold calcsize_f in *. lia.
Qed.

(** Reading back the lines written for some payloads. *)
Lemma samples_of_distance_lines (ps : list (list Byte.byte)) :
  (forall p, In p ps ->
     plain (repr (unpack_float p)) = true
     /\ py_float (repr (unpack_float p)) = Some (unpack_float p)) ->
  flat_map (sample_of py_float)
    (map (fun p => distance_line repr (unpack_float p)) ps)
  = map unpack_float ps.
Proof.
  induction ps as [| p ps IH]; intros Hok; [reflexivity |].
  cbn [map flat_map].
  destruct (Hok p (or_introl eq_refl)) as (Hplain & Hback).
  rewrite (sample_of_distance_line _ Hplain Hback). cbn [app]. f_equal.
  apply IH. intros q Hq. apply Hok. now right.
Qed.

End Lines.

End PipeFacts.

Section PipeExtras.

Import Supervisor SupervisorRun UdpListener ListenerRun Pipe.
Local Open Scope string_scope.

(** X17: From the socket to the queue. The listener writes
    [DISTANCE:<str of the value>] for each datagram of four bytes, and
    the pipe hands these lines to the supervisor in the order written;
    how many of them its [readline] calls have returned so far depends
    on its wakes and on the buffer of the stream, and is left open here.
    Provided, for each value decoded, that its text has no colon and no
    white space in it and that [float] reads it back as the same value (as
    Python's [str] and [float] do): when the lines the supervisor has
    read from the child's stdout are the first [n] lines written, the
    samples it has put on the queue are the values decoded from the first
    [n] datagrams of four bytes, in the order of arrival, and nothing
    else. *)
Theorem decoded_values_reach_the_queue :
  forall (py_float : string -> option float) (repr : float -> string)
         (inputs : list Recv) (wakes : list Wake) (m : Main) (n : nat),
    stop_event m = false ->
    (forall p, In p (filter well_sized (payloads inputs)) ->
       plain (repr (unpack_float p)) = true
       /\ py_float (repr (unpack_float p)) = Some (unpack_float p)) ->
    stdout_read wakes
    = firstn n (stdout_lines repr (reception_loop inputs)) ->
    distance_queue (left_in (main_loop py_float wakes m))
    = (distance_queue m
       ++ map unpack_float
            (firstn n (filter well_sized (payloads inputs))))%list.
Proof.
  intros py_float repr inputs wakes m n Hrun Hok Hread.
  destruct (main_loop_rounds py_float wakes m Hrun)
    as (m' & Heq & _ & _ & Hq).
  assert (Hm : left_in (main_loop py_float wakes m) = m').
  { rewrite Heq.
    destruct (ending wakes) as [w |]; [destruct (wake_aborts w) |];
      reflexivity. }
  rewrite Hm, Hq. f_equal.
  rewrite samples_of_stdout_read. fold (stdout_read wakes).
  rewrite Hread, stdout_lines_of_reception, firstn_map.
  apply samples_of_distance_lines.
  intros p Hp. apply Hok. exact (in_firstn _ _ _ Hp).
Qed.

(** An instance: 2.75 m, a datagram of three bytes, and 0.5 m. When the
    supervisor has read the first line only, the queue holds 2.75; when
    it has read both, in one wake, the queue holds 2.75 and 0.5. *)
Lemma decoded_values_reach_the_queue_witness :
  distance_queue
    (left_in
       (main_loop float_of_str
          [mkWake 100 [StdoutReady ("DISTANCE:2.75" ++ LF)] None;
           mkWake 100 [] None] initial))
  = [lit "2.75"]
  /\ distance_queue
       (left_in
          (main_loop float_of_str
             [mkWake 100 [] None;
              mkWake 100 [StdoutReady ("DISTANCE:2.75" ++ LF);
                          StdoutReady ("DISTANCE:0.5" ++ LF)] None]
             initial))
     = [lit "2.75"; lit "0.5"].
Proof.
  split.
  - rewrite (decoded_values_reach_the_queue float_of_str str_of_example
               [Datagram [Byte.x00; Byte.x00; Byte.x30; Byte.x40];
                Datagram [Byte.x00; Byte.x00; Byte.x30];
                Datagram [Byte.x00; Byte.x00; Byte.x00; Byte.x3f]]
               _ initial 1).
    + vm_compute. reflexivity.
    + reflexivity.
    + intros p [<- | [<- | []]]; split; vm_compute; reflexivity.
    + vm_compute. reflexivity.
  - rewrite (decoded_values_reach_the_queue float_of_str str_of_example
               [Datagram [Byte.x00; Byte.x00; Byte.x30; Byte.x40];
                Datagram [Byte.x00; Byte.x00; Byte.x30];
                Datagram [Byte.x00; Byte.x00; Byte.x00; Byte.x3f]]
               _ initial 2).
    + vm_compute. reflexivity.
    + reflexivity.
    + intros p [<- | [<- | []]]; split; vm_compute; reflexivity.
    + vm_compute. reflexivity.
Defined.

End PipeExtras.

(* ================================================================== *)
(** * Decoding a binary32 *)

Section DecodingFacts.

Import UdpListener Binary32.

Lemma digits2_pos_size (p : positive) : digits2_pos p = Pos.size p.
Proof. induction p; cbn [digits2_pos Pos.size]; congruence. Qed.

Lemma digits2_pos_shift (k p : positive) :
  digits2_pos (Pos.iter xO p k) = (digits2_pos p + k)%positive.
Proof.
  induction k as [| k IH] using Pos.peano_ind.
  - cbn [Pos.iter digits2_pos]. now rewrite Pos.add_1_r.
  - rewrite Pos.iter_succ. cbn [digits2_pos]. rewrite IH. lia.
Qed.

Lemma digits2_pos_bounds (p : positive) :
  2 ^ (Zpos (digits2_pos p) - 1) <= Zpos p < 2 ^ Zpos (digits2_pos p).
Proof.
  rewrite digits2_pos_size.
  pose proof (Pos.size_gt p) as Hgt. pose proof (Pos.size_le p) as Hle.
  apply Pos2Z.pos_lt_pos in Hgt. apply Pos2Z.pos_le_pos in Hle.
  rewrite Pos2Z.inj_pow in Hgt, Hle.
  replace (Zpos (Pos.size p)) with (Z.succ (Zpos (Pos.size p) - 1)) in Hle
    by lia.
  rewrite Z.pow_succ_r in Hle by lia. change (Zpos p~0) with (2 * Zpos p) in Hle.
  lia.
Qed.

(** A number of fewer than 53 bits is brought to 53 bits by a shift to the
    left, with nothing to round. *)
Lemma binary_round_exact (s : bool) (m : positive) (e : Z) :
  Zpos (digits2_pos m) < 53 ->
  -1074 <= e + Zpos (digits2_pos m) - 53 <= 971 ->
  binary_round prec emax s m e
  = S754_finite s (Pos.iter xO m (Z.to_pos (53 - Zpos (digits2_pos m))))
      (e + Zpos (digits2_pos m) - 53).
Proof.
  set (d := Zpos (digits2_pos m)). intros Hd He.
  assert (Hf : forall x, fexp prec emax x = Z.max (x - 53) (-1074)).
  { intros x. reflexivity. }
  unfold binary_round. fold d. rewrite Hf, Z.max_l by lia.
  unfold shl_align.
  replace (d + e - 53 - e) with (Zneg (Z.to_pos (53 - d)))
    by (rewrite <- Pos2Z.opp_pos, Z2Pos.id; lia).
  cbv iota. set (k := Z.to_pos (53 - d)). set (m' := Pos.iter xO m k).
  assert (Hd' : Zdigits2 (Zpos m') = 53).
  { cbn [Zdigits2]. subst m'. rewrite digits2_pos_shift, Pos2Z.inj_add.
    fold d. subst k. rewrite Z2Pos.id; lia. }
  unfold binary_round_aux, shr_fexp. rewrite Hd'.
  rewrite Hf, Z.max_l by lia.
  replace (53 + (d + e - 53) - 53 - (d + e - 53)) with 0 by lia.
  cbn [shr shr_record_of_loc shr_m loc_of_shr_record round_nearest_even].
  rewrite Hd'.
  rewrite Hf, Z.max_l by lia.
  replace (53 + (d + e - 53) - 53 - (d + e - 53)) with 0 by lia.
  cbn [shr shr_m].
  replace (d + e - 53 <=? emax - prec) with true
    by (symmetry; apply Z.leb_le; unfold emax, prec; lia).
  f_equal. lia.
Qed.

(** Widening a number of at most 24 bits with a binary32 exponent. *)
Lemma binary_round_widens (s : bool) (p : positive) (ex : Z) :
  Zpos p < 16777216 -> -149 <= ex <= 104 ->
  exists (m : positive) (e : Z),
    binary_round prec emax s p ex = S754_finite s m e
    /\ e <= ex
    /\ Zpos m = Zpos p * 2 ^ (ex - e)
    /\ valid_binary prec emax (S754_finite s m e) = true.
Proof.
  intros Hp Hex. pose proof (digits2_pos_bounds p) as Hb.
  set (d := Zpos (digits2_pos p)) in *.
  assert (Hd : 1 <= d <= 24).
  { split; [subst d; lia |].
    assert (H : d - 1 < 24); [| lia].
    apply (Z.pow_lt_mono_r_iff 2); [lia | lia |].
    change (2 ^ 24) with 16777216. lia. }
  rewrite binary_round_exact by (fold d; lia). fold d.
  set (k := Z.to_pos (53 - d)).
  exists (Pos.iter xO p k), (ex + d - 53).
  split; [reflexivity |]. split; [lia |].
  split.
  - change (Pos.iter xO p k) with (shift_pos k p).
    rewrite shift_pos_correct.
    change (Z.pow_pos 2 k) with (2 ^ Zpos k). subst k.
    rewrite Z2Pos.id by lia.
    replace (ex - (ex + d - 53)) with (53 - d) by lia. lia.
  - cbn [valid_binary]. unfold bounded, canonical_mantissa.
    rewrite digits2_pos_shift, Pos2Z.inj_add. fold d. subst k.
    rewrite Z2Pos.id by lia.
    replace (fexp prec emax (d + (53 - d) + (ex + d - 53)))
      with (Z.max (ex + d - 53) (-1074))
      by (unfold fexp, emin, prec, emax; f_equal; lia).
    rewrite Z.max_l by lia. rewrite Z.eqb_refl. cbn [andb].
    apply Z.leb_le. unfold emax, prec. lia.
Qed.

Lemma mantissa_bounds (bits : Z) : 0 <= Z.land bits 8388607 < 8388608.
Proof.
  change 8388607 with (Z.ones 23). rewrite Z.land_ones by lia.
  apply Z.mod_pos_bound. lia.
Qed.

Lemma exponent_bounds (bits : Z) : 0 <= Z.land bits 255 < 256.
Proof.
  change 255 with (Z.ones 8). rewrite Z.land_ones by lia.
  apply Z.mod_pos_bound. lia.
Qed.

End DecodingFacts.

Section DecodingExtras.

Import UdpListener Binary32.

(** X18: Decoding never rounds. With an exponent field of 255 the value is an
    infinity (mantissa zero) or NaN; with all of exponent and mantissa
    zero it is a zero; else it is the finite binary64, in canonical form,
    whose value is that of the binary32: the same sign, and
    [m * 2 ^ e = significand * 2 ^ scale] with nothing lost, subnormal
    binary32 numbers included. *)
Theorem unpack_float_is_exact :
  forall data : list Byte.byte,
    (exponent_field data = 255 ->
     unpack_float data
     = if mantissa_field data =? 0 then S754_infinity (sign_bit data)
       else S754_nan)
    /\ (exponent_field data = 0 -> mantissa_field data = 0 ->
        unpack_float data = S754_zero (sign_bit data))
    /\ (exponent_field data <> 255 -> significand data <> 0 ->
        exists (m : positive) (e : Z),
          unpack_float data = S754_finite (sign_bit data) m e
          /\ e <= scale data
          /\ Zpos m = significand data * 2 ^ (scale data - e)
          /\ valid_binary prec emax (S754_finite (sign_bit data) m e) = true).
Proof.
  intros data. unfold unpack_float, significand, scale.
  fold (sign_bit data). fold (exponent_field data). fold (mantissa_field data).
  pose proof (mantissa_bounds (bits_of data)) as Hm.
  pose proof (exponent_bounds (Z.shiftr (bits_of data) 23)) as He.
  fold (mantissa_field data) in Hm. fold (exponent_field data) in He.
  set (E := exponent_field data) in *. set (M := mantissa_field data) in *.
  set (s := sign_bit data).
  split; [| split].
  - intros ->. reflexivity.
  - intros -> ->. reflexivity.
  - intros H255 Hsig.
    assert (Hwiden : forall (sig ex : Z),
               0 < sig < 16777216 -> -149 <= ex <= 104 ->
               exists (m : positive) (e : Z),
                 binary_normalize prec emax (if s then - sig else sig) ex false
                 = S754_finite s m e
                 /\ e <= ex /\ Zpos m = sig * 2 ^ (ex - e)
                 /\ valid_binary prec emax (S754_finite s m e) = true).
    { intros sig ex Hs Hx. destruct sig as [| p | p]; try lia.
      destruct (binary_round_widens s p ex ltac:(lia) Hx)
        as (m & e & Heq & Hle & Hv & Hb).
      exists m, e. split; [| auto].
      destruct s; cbn [Z.opp binary_normalize]; exact Heq. }
    destruct (Z.eqb_spec E 0) as [E0 | E0].
    + destruct (Z.eqb_spec M 0) as [M0 | M0]; [contradiction |].
      apply Hwiden; lia.
    + destruct (Z.eqb_spec E 255) as [E255 | _]; [contradiction |].
      apply Hwiden; lia.
Qed.

End DecodingExtras.
